(** * Personal Library Manager: the catalog store of [app.py]

    A shallow embedding of the class [LibraryManager] and of the Python
    primitives its methods rest on.

    - Python values are the ones the [json] module exchanges with the
      persisted file: [None], booleans, integers, strings, lists and
      dictionaries with string keys.  Floats are not part of the value
      universe; the decoder answers [Outside] on a literal that Python
      would read as a float.  The one float of the program, the
      percentage of [get_statistics], is the binary64 number that CPython
      computes, held as the rational it stands for.
    - The text of a value is a [string] of 8-bit characters, read as the
      code points U+0000 to U+00FF, on which [str.lower] works character
      by character.  [text_lower] is [str.lower] on texts that hold Greek
      letters as well, where it depends on the context; it agrees with the
      character-wise one on 8-bit text.
    - Methods that mutate [self] return the new object next to their
      result, so that a raised exception keeps the mutation done before it.
    - [st.error] is a log of notices in the world; the clock is an argument.
    - Opening a file for writing empties it; the write that follows can
      break with part of the text in the file.  Whether it breaks is a
      matter of the world (a full device, a limit of the interpreter), not
      computed from the data: integers turn into text and back whatever
      their number of digits and recursion is as deep as the data.
*)

From Stdlib Require Import ZArith QArith Qround Qabs Qpower Lqa.
From Stdlib Require Import Ascii String List Lia DecimalN DecimalFacts.
From stdpp Require Import base list strings gmap sorting.

Local Open Scope string_scope.
Local Open Scope list_scope.
Local Open Scope stdpp_scope.
Local Open Scope Z_scope.

(** ** Exceptions and results *)

Inductive exn : Set :=
| TypeError
| KeyError
| IndexError
| AttributeError
| OSError
| JSONDecodeError.

Inductive result (A : Type) : Type :=
| Ok (a : A)
| Raise (e : exn).
Arguments Ok {A} a.
Arguments Raise {A} e.

#[global] Instance result_ret : MRet result := λ A a, Ok a.
#[global] Instance result_bind : MBind result := λ A B f m,
  match m with
  | Ok a => f a
  | Raise e => Raise e
  end.

(** ** Text *)

(** [str.lower] on the code points below U+0100: the ASCII capitals and the
    Latin-1 capitals U+00C0..U+00DE (U+00D7, the multiplication sign, has
    no case) move up by 32; every other character is its own lower case. *)
Definition lower_char (c : ascii) : ascii :=
  let n := N_of_ascii c in
  if ((65 <=? n) && (n <=? 90) || (192 <=? n) && (n <=? 222) && negb (n =? 215))%N
  then ascii_of_N (n + 32)
  else c.

Fixpoint lower (s : string) : string :=
  match s with
  | EmptyString => EmptyString
  | String c s' => String (lower_char c) (lower s')
  end.

Fixpoint startswith (p s : string) : bool :=
  match p, s with
  | EmptyString, _ => true
  | String a p', String b s' => Ascii.eqb a b && startswith p' s'
  | String _ _, EmptyString => false
  end.

(** [needle in hay] on two strings. *)
Fixpoint str_in (needle hay : string) : bool :=
  startswith needle hay ||
  match hay with
  | EmptyString => false
  | String _ hay' => str_in needle hay'
  end.

(** ** Text beyond U+00FF

    [str.lower] on a text of code points, as CPython computes it: every
    code point goes to its lower case, except the capital sigma U+03A3,
    which becomes the final sigma U+03C2 when a cased letter stands before
    it and none after it, code points that case ignores being skipped on
    both sides, and the small sigma U+03C3 otherwise.  The tables cover the
    code points below U+0100 and the Greek letters U+0391..U+03A9 and
    U+03B1..U+03C9; a text with another code point is outside the model. *)

Definition in_range (lo hi c : N) : bool := ((lo <=? c) && (c <=? hi))%N.

Definition tabulated (c : N) : bool :=
  (c <? 256)%N || in_range 913 929 c || in_range 931 937 c || in_range 945 969 c.

(** The letters, of either case. *)
Definition cased (c : N) : bool :=
  in_range 65 90 c || in_range 97 122 c
  || (c =? 170)%N || (c =? 181)%N || (c =? 186)%N
  || in_range 192 214 c || in_range 216 246 c || in_range 248 255 c
  || in_range 913 929 c || in_range 931 937 c || in_range 945 969 c.

(** The marks that case ignores: the apostrophe, the full stop, the colon,
    the circumflex, the grave, and in Latin-1 the diaeresis, the soft
    hyphen, the macron, the acute, the middle dot and the cedilla. *)
Definition case_ignorable (c : N) : bool :=
  (c =? 39)%N || (c =? 46)%N || (c =? 58)%N || (c =? 94)%N || (c =? 96)%N
  || (c =? 168)%N || (c =? 173)%N || (c =? 175)%N || (c =? 180)%N
  || (c =? 183)%N || (c =? 184)%N.

(** The lower case of a code point other than the capital sigma. *)
Definition to_lower (c : N) : N :=
  if in_range 65 90 c || in_range 192 214 c || in_range 216 222 c
     || in_range 913 929 c || in_range 932 937 c
  then (c + 32)%N else c.

(** The first code point of [s] that case does not ignore. *)
Fixpoint first_regarded (s : list N) : option N :=
  match s with
  | [] => None
  | c :: s' => if case_ignorable c then first_regarded s' else Some c
  end.

(** Is a capital sigma between [before] (nearest code point first) and
    [after] a final one? *)
Definition final_sigma (before after : list N) : bool :=
  match first_regarded before with
  | Some c => cased c
  | None => false
  end
  && match first_regarded after with
     | Some c => negb (cased c)
     | None => true
     end.

Fixpoint lower_from (before s : list N) : list N :=
  match s with
  | [] => []
  | c :: s' =>
      (if (c =? 931)%N then if final_sigma before s' then 962%N else 963%N
       else to_lower c) :: lower_from (c :: before) s'
  end.

Definition text_lower (s : list N) : option (list N) :=
  if forallb tabulated s then Some (lower_from [] s) else None.

Fixpoint text_startswith (p s : list N) : bool :=
  match p, s with
  | [], _ => true
  | a :: p', b :: s' => (a =? b)%N && text_startswith p' s'
  | _ :: _, [] => false
  end.

(** [needle in hay] on two texts. *)
Fixpoint text_in (needle hay : list N) : bool :=
  text_startswith needle hay ||
  match hay with
  | [] => false
  | _ :: hay' => text_in needle hay'
  end.

(** The test of the comprehensions of lines 35 and 40,
    [query.lower() in field.lower()]. *)
Definition lower_in (query field : list N) : option bool :=
  q ← text_lower query; f ← text_lower field; Some (text_in q f).

(** The code points of a string of 8-bit characters. *)
Definition codes (s : string) : list N := N_of_ascii <$> list_ascii_of_string s.

(** ** Values *)

Unset Elimination Schemes.
Inductive value : Type :=
| VNone
| VBool (b : bool)
| VInt (n : Z)
| VStr (s : string)
| VList (l : list value)
| VDict (d : list (string * value)).
Set Elimination Schemes.

(** A dictionary keeps its keys in insertion order; [dict_get] is [d[k]] and
    [dict_set] is [d[k] = v], which keeps the position of a key already
    present. *)
Fixpoint dict_get (k : string) (d : list (string * value)) : option value :=
  match d with
  | [] => None
  | (k', v) :: d' => if String.eqb k k' then Some v else dict_get k d'
  end.

Fixpoint dict_set (k : string) (v : value) (d : list (string * value))
  : list (string * value) :=
  match d with
  | [] => [(k, v)]
  | (k', v') :: d' =>
      if String.eqb k k' then (k', v) :: d' else (k', v') :: dict_set k v d'
  end.

(** [len(v)] *)
Definition py_len (v : value) : result Z :=
  match v with
  | VStr s => Ok (Z.of_nat (String.length s))
  | VList l => Ok (Z.of_nat (length l))
  | VDict d => Ok (Z.of_nat (length d))
  | VNone | VBool _ | VInt _ => Raise TypeError
  end.

(** [iter(v)]: the elements of a list, the keys of a dictionary, the
    characters of a string. *)
Definition py_iter (v : value) : result (list value) :=
  match v with
  | VList l => Ok l
  | VDict d => Ok (map (λ kv, VStr (fst kv)) d)
  | VStr s => Ok (map (λ c, VStr (String c EmptyString)) (list_ascii_of_string s))
  | VNone | VBool _ | VInt _ => Raise TypeError
  end.

(** [v[k]] for a string key [k]. *)
Definition py_getitem (v : value) (k : string) : result value :=
  match v with
  | VDict d =>
      match dict_get k d with
      | Some x => Ok x
      | None => Raise KeyError
      end
  | _ => Raise TypeError
  end.

(** [bool(v)] *)
Definition py_truthy (v : value) : bool :=
  match v with
  | VNone => false
  | VBool b => b
  | VInt n => negb (n =? 0)
  | VStr s => negb (String.eqb s "")
  | VList l => negb (Nat.eqb (length l) 0)
  | VDict d => negb (Nat.eqb (length d) 0)
  end.

(** [v.lower()] *)
Definition py_lower (v : value) : result string :=
  match v with
  | VStr s => Ok (lower s)
  | _ => Raise AttributeError
  end.

(** [v == s] for a string [s]: only the same string is equal to it. *)
Definition py_eq_str (v : value) (s : string) : bool :=
  match v with
  | VStr t => String.eqb t s
  | _ => false
  end.

(** [v.append(x)], giving the list after the call. *)
Definition py_append (v x : value) : result value :=
  match v with
  | VList l => Ok (VList (l ++ [x]))
  | _ => Raise AttributeError
  end.

(** [v.pop(i)] for an integer [i], giving the popped element and the
    container after the call.  A negative index counts from the end of a
    list; a dictionary has no integer key. *)
Definition py_pop (v : value) (i : Z) : result (value * value) :=
  match v with
  | VList l =>
      let n := Z.of_nat (length l) in
      let j := if i <? 0 then i + n else i in
      if (0 <=? j) && (j <? n) then
        match l !! Z.to_nat j with
        | Some x => Ok (x, VList (delete (Z.to_nat j) l))
        | None => Raise IndexError
        end
      else Raise IndexError
  | VDict _ => Raise KeyError
  | _ => Raise AttributeError
  end.

(** A list comprehension [[x for x in items if cond(x)]] whose condition
    may raise: the first exception ends the evaluation. *)
Fixpoint comprehension (cond : value → result bool) (items : list value)
  : result (list value) :=
  match items with
  | [] => Ok []
  | x :: rest =>
      b ← cond x;
      r ← comprehension cond rest;
      Ok (if b : bool then x :: r else r)
  end.

(** [sum(1 for x in items if cond(x))] *)
Fixpoint count_if (cond : value → result bool) (items : list value) : result Z :=
  match items with
  | [] => Ok 0
  | x :: rest =>
      b ← cond x;
      n ← count_if cond rest;
      Ok (if b : bool then 1 + n else n)
  end.

(** ** [sorted(set(...))] *)

(** Hashable values are the ones that are not containers. *)
Definition hashable (v : value) : bool :=
  match v with
  | VList _ | VDict _ => false
  | _ => true
  end.

(** The integer a number stands for ([True] is 1, [False] is 0). *)
Definition as_number (v : value) : option Z :=
  match v with
  | VBool b => Some (if b then 1 else 0)
  | VInt n => Some n
  | _ => None
  end.

(** Equality of two hashable values, as a set sees it: numbers by their
    integer, strings by their characters, [None] with itself. *)
Definition hash_eq (a b : value) : bool :=
  match a, b with
  | VNone, VNone => true
  | VStr s, VStr t => String.eqb s t
  | _, _ =>
      match as_number a, as_number b with
      | Some m, Some n => m =? n
      | _, _ => false
      end
  end.

(** [set(items)], as the list of its elements in order of first insertion:
    an element equal to an earlier one is dropped, an unhashable one raises. *)
Fixpoint py_set_add (x : value) (seen : list value) : list value :=
  match seen with
  | [] => [x]
  | y :: seen' => if hash_eq y x then seen else y :: py_set_add x seen'
  end.

Definition as_string (v : value) : option string :=
  match v with
  | VStr s => Some s
  | _ => None
  end.

Definition number_le (a b : value) : Prop :=
  match as_number a, as_number b with
  | Some m, Some n => m ≤ n
  | _, _ => True
  end.

#[global] Instance number_le_dec : RelDecision number_le.
Proof.
  intros a b. unfold number_le.
  destruct (as_number a), (as_number b); apply _.
Defined.

(** [sorted(xs)] for pairwise distinct [xs].  Fewer than two elements are
    never compared.  Otherwise strings sort among strings by code points
    and numbers among numbers; any other mixture has a pair that [<]
    rejects, which every comparison sort meets. *)
Definition py_sorted (xs : list value) : result (list value) :=
  match xs with
  | [] | [_] => Ok xs
  | _ =>
      match mapM as_string xs with
      | Some ss => Ok (VStr <$> merge_sort String.le ss)
      | None =>
          match mapM as_number xs with
          | Some _ => Ok (merge_sort number_le xs)
          | None => Raise TypeError
          end
      end
  end.

(** ** Decimal numerals *)

Fixpoint uint_chars (u : Decimal.uint) : list ascii :=
  match u with
  | Decimal.Nil => []
  | Decimal.D0 u' => "0"%char :: uint_chars u'
  | Decimal.D1 u' => "1"%char :: uint_chars u'
  | Decimal.D2 u' => "2"%char :: uint_chars u'
  | Decimal.D3 u' => "3"%char :: uint_chars u'
  | Decimal.D4 u' => "4"%char :: uint_chars u'
  | Decimal.D5 u' => "5"%char :: uint_chars u'
  | Decimal.D6 u' => "6"%char :: uint_chars u'
  | Decimal.D7 u' => "7"%char :: uint_chars u'
  | Decimal.D8 u' => "8"%char :: uint_chars u'
  | Decimal.D9 u' => "9"%char :: uint_chars u'
  end.

(** [str(n)] for a natural number [n]. *)
Definition nat_chars (n : N) : list ascii := uint_chars (N.to_uint n).

(** [repr(n)] for an integer [n]. *)
Definition int_chars (n : Z) : list ascii :=
  match n with
  | Zneg p => "-"%char :: nat_chars (Npos p)
  | _ => nat_chars (Z.to_N n)
  end.

(** ** The clock *)

(** The date of [datetime.now()]: a year from 1 to 9999, a month and a day
    of it. *)
Record datetime : Set := { dt_year : N; dt_month : N; dt_day : N }.

(** A numeral padded with zeros on the left to [width] characters. *)
Definition zero_pad (width : nat) (n : N) : list ascii :=
  let ds := nat_chars n in
  replicate (width - length ds)%nat "0"%char ++ ds.

(** [now.strftime("%Y-%m-%d")], as CPython 3.11 gives it with the C library
    of Linux: the month and the day have two digits, the year has the
    digits of its number, which are four from the year 1000 on. *)
Definition strftime_ymd (now : datetime) : string :=
  string_of_list_ascii
    (nat_chars (dt_year now) ++ "-"%char :: zero_pad 2 (dt_month now)
       ++ "-"%char :: zero_pad 2 (dt_day now)).

(** ** Book records and statistics *)

Module Book.
(** The record [add_book] builds, field by field. *)
Record t : Type := {
  title : string;
  author : string;
  year : Z;
  genre : string;
  read : bool;
  date_added : string
}.
End Book.

(** The dictionary a book record is in memory, keys in the order of the
    literal in [add_book]. *)
Definition of_book (b : Book.t) : value :=
  VDict [("title", VStr (Book.title b));
         ("author", VStr (Book.author b));
         ("year", VInt (Book.year b));
         ("genre", VStr (Book.genre b));
         ("read", VBool (Book.read b));
         ("date_added", VStr (Book.date_added b))].

Definition of_catalog (books : list Book.t) : value := VList (of_book <$> books).

(** ** Binary64 floats

    A float is held as the rational it stands for.  [b64 q] is the float
    of an arithmetic operation whose exact result is [q]: the nearest
    number with a mantissa of 53 bits, a tie going to the even mantissa.
    The exponent is not limited; the floats of the program lie between
    2^-63 and 100 on any list that a memory holds. *)

(** The nearest integer, a tie going to the even one. *)
Definition round_half_even (x : Q) : Z :=
  let k := Qfloor x in
  match (x - inject_Z k ?= 1 # 2)%Q with
  | Lt => k
  | Gt => k + 1
  | Eq => if Z.even k then k else k + 1
  end.

(** The [e] with [2^e <= q < 2^(e+1)], for [q > 0]. *)
Definition exponent (q : Q) : Z :=
  let l := Z.log2 (Qnum q) - Z.log2 (Z.pos (Qden q)) in
  if Qle_bool (2 ^ l) q then l else l - 1.

(** The nearest number with a mantissa of 53 bits, for [q > 0]. *)
Definition nearest53 (q : Q) : Q :=
  let e := exponent q - 52 in
  (inject_Z (round_half_even (q / 2 ^ e)) * 2 ^ e)%Q.

Definition b64 (q : Q) : Q :=
  match Qnum q with
  | 0 => 0%Q
  | Z.pos _ => Qred (nearest53 q)
  | Z.neg _ => Qred (- nearest53 (- q))
  end.


(** A Python number: [percentage] is the integer [0] on an empty library
    and a float otherwise.  [NFloat q] is the float whose value is [q]. *)
Inductive number : Set :=
| NInt (n : Z)
| NFloat (q : Q).

Definition number_value (x : number) : Q :=
  match x with
  | NInt n => inject_Z n
  | NFloat q => q
  end.

Module Stats.
(** The dictionary [get_statistics] returns. *)
Record t : Set := {
  total : Z;
  read : Z;
  unread : Z;
  percentage : number
}.
End Stats.

(** ** The store *)

Record LibraryManager : Type := {
  library : value;
  filename : string
}.

Definition set_library (self : LibraryManager) (l : value) : LibraryManager :=
  {| library := l; filename := filename self |}.

(** The manager that holds a catalog of book records. *)
Definition manager_of (books : list Book.t) : LibraryManager :=
  {| library := of_catalog books; filename := "library.txt" |}.

Definition add_book (self : LibraryManager) (now : datetime)
    (title author : string) (year : Z) (genre : string) (read_status : bool)
  : result value * LibraryManager :=
  let book :=
    VDict [("title", VStr title);
           ("author", VStr author);
           ("year", VInt year);
           ("genre", VStr genre);
           ("read", VBool read_status);
           ("date_added", VStr (strftime_ymd now))] in
  match py_append (library self) book with
  | Ok l => (Ok book, set_library self l)
  | Raise e => (Raise e, self)
  end.

(** [0 <= index < len(self.library)]: the chained comparison does not
    evaluate [len] when its first half is false. *)
Definition index_in_range (self : LibraryManager) (index : Z) : result bool :=
  if 0 <=? index then n ← py_len (library self); Ok (index <? n) else Ok false.

Definition remove_book (self : LibraryManager) (index : Z)
  : result (bool * value) * LibraryManager :=
  match index_in_range self index with
  | Raise e => (Raise e, self)
  | Ok false => (Ok (false, VStr ""), self)
  | Ok true =>
      match py_pop (library self) index with
      | Raise e => (Raise e, self)
      | Ok (removed, l) =>
          (t ← py_getitem removed "title"; Ok (true, t), set_library self l)
      end
  end.

Definition search_by_title (self : LibraryManager) (title : string)
  : result (list value) :=
  items ← py_iter (library self);
  comprehension
    (λ book, t ← py_getitem book "title"; h ← py_lower t; Ok (str_in (lower title) h))
    items.

Definition search_by_author (self : LibraryManager) (author : string)
  : result (list value) :=
  items ← py_iter (library self);
  comprehension
    (λ book, t ← py_getitem book "author"; h ← py_lower t; Ok (str_in (lower author) h))
    items.

(** [(read_books / total_books) * 100]: the division of two integers gives
    the float nearest to the quotient, the product with [100] is rounded
    again. *)
Definition get_statistics (self : LibraryManager) : result Stats.t :=
  total_books ← py_len (library self);
  items ← py_iter (library self);
  read_books ← count_if (λ book, r ← py_getitem book "read"; Ok (py_truthy r)) items;
  let percentage_read :=
    if 0 <? total_books
    then NFloat (b64 (b64 (inject_Z read_books / inject_Z total_books) * 100))
    else NInt 0 in
  Ok {| Stats.total := total_books;
        Stats.read := read_books;
        Stats.unread := total_books - read_books;
        Stats.percentage := percentage_read |}.

(** [set(book["genre"] for book in items)]: each element is looked up and
    hashed in turn. *)
Fixpoint genre_set (items : list value) (seen : list value) : result (list value) :=
  match items with
  | [] => Ok seen
  | book :: rest =>
      g ← py_getitem book "genre";
      if hashable g then genre_set rest (py_set_add g seen) else Raise TypeError
  end.

Definition get_all_genres (self : LibraryManager) : result (list value) :=
  items ← py_iter (library self);
  genres ← genre_set items [];
  py_sorted genres.

Definition filter_by_genre (self : LibraryManager) (genre : string) : result value :=
  if String.eqb genre "All Genres" then Ok (library self)
  else
    items ← py_iter (library self);
    r ← comprehension (λ book, g ← py_getitem book "genre"; Ok (py_eq_str g genre)) items;
    Ok (VList r).

(** ** The [json] module: [json.dump(obj, file, indent=4)]

    The encoder writes ASCII only ([ensure_ascii]): inside a string, the
    quote, the backslash and the five control characters with a short form
    are escaped with a backslash, every other character outside
    U+0020..U+007E as [\u00xx] in lower-case hexadecimal.  With an indent,
    every item of a list or dictionary starts on a line of its own, items
    are separated by a comma, a key from its value by a colon and a space. *)

Definition chars (s : string) : list ascii := list_ascii_of_string s.

(** The double quote and the backslash. *)
Definition quote : ascii := "034"%char.
Definition backslash : ascii := "092"%char.

Definition hex_digit (n : N) : ascii :=
  if (n <? 10)%N then ascii_of_N (48 + n) else ascii_of_N (87 + n).

Definition escape_char (c : ascii) : list ascii :=
  let n := N_of_ascii c in
  if Ascii.eqb c quote then [backslash; quote]
  else if Ascii.eqb c backslash then [backslash; backslash]
  else if Ascii.eqb c "010" then [backslash; "n"%char]
  else if Ascii.eqb c "013" then [backslash; "r"%char]
  else if Ascii.eqb c "009" then [backslash; "t"%char]
  else if Ascii.eqb c "008" then [backslash; "b"%char]
  else if Ascii.eqb c "012" then [backslash; "f"%char]
  else if ((32 <=? n) && (n <=? 126))%N then [c]
  else backslash :: chars "u00" ++ [hex_digit (n / 16); hex_digit (n mod 16)].

Definition encode_string (s : string) : list ascii :=
  quote :: flat_map escape_char (chars s) ++ [quote].

Definition newline_indent (level : nat) : list ascii :=
  "010"%char :: replicate (4 * level) " "%char.

Fixpoint encode (level : nat) (v : value) {struct v} : list ascii :=
  match v with
  | VNone => chars "null"
  | VBool true => chars "true"
  | VBool false => chars "false"
  | VInt n => int_chars n
  | VStr s => encode_string s
  | VList [] => chars "[]"
  | VList (x :: xs) =>
      "["%char :: newline_indent (S level) ++ encode (S level) x
        ++ flat_map (λ y, ","%char :: newline_indent (S level) ++ encode (S level) y) xs
        ++ newline_indent level ++ chars "]"
  | VDict [] => chars "{}"
  | VDict (kx :: kxs) =>
      "{"%char :: newline_indent (S level)
        ++ encode_string (fst kx) ++ chars ": " ++ encode (S level) (snd kx)
        ++ flat_map (λ ky, ","%char :: newline_indent (S level)
                             ++ encode_string (fst ky) ++ chars ": "
                             ++ encode (S level) (snd ky)) kxs
        ++ newline_indent level ++ chars "}"
  end.

Definition json_dump (v : value) : string := string_of_list_ascii (encode 0 v).

(** ** The [json] module: [json.load(file)]

    The decoder answers with the value, with [Malformed] where Python
    raises [JSONDecodeError], and with [Outside] where the document leaves
    the modelled values: a number with a fraction or an exponent, [NaN],
    [Infinity], or an escape for a code point above U+00FF.  [Exhausted]
    is the answer of the recursive descent when its fuel is spent. *)

Inductive parse (A : Type) : Type :=
| Parsed (a : A)
| Malformed
| Outside
| Exhausted.
Arguments Parsed {A} a.
Arguments Malformed {A}.
Arguments Outside {A}.
Arguments Exhausted {A}.

#[global] Instance parse_bind : MBind parse := λ A B f m,
  match m with
  | Parsed a => f a
  | Malformed => Malformed
  | Outside => Outside
  | Exhausted => Exhausted
  end.

Definition is_ws (c : ascii) : bool :=
  Ascii.eqb c " " || Ascii.eqb c "009" || Ascii.eqb c "010" || Ascii.eqb c "013".

Fixpoint skip_ws (s : list ascii) : list ascii :=
  match s with
  | c :: r => if is_ws c then skip_ws r else s
  | [] => []
  end.

Fixpoint strip_prefix (p s : list ascii) : option (list ascii) :=
  match p, s with
  | [], _ => Some s
  | a :: p', b :: s' => if Ascii.eqb a b then strip_prefix p' s' else None
  | _ :: _, [] => None
  end.

Definition char_digit (c : ascii) : option (Decimal.uint → Decimal.uint) :=
  if Ascii.eqb c "0" then Some Decimal.D0
  else if Ascii.eqb c "1" then Some Decimal.D1
  else if Ascii.eqb c "2" then Some Decimal.D2
  else if Ascii.eqb c "3" then Some Decimal.D3
  else if Ascii.eqb c "4" then Some Decimal.D4
  else if Ascii.eqb c "5" then Some Decimal.D5
  else if Ascii.eqb c "6" then Some Decimal.D6
  else if Ascii.eqb c "7" then Some Decimal.D7
  else if Ascii.eqb c "8" then Some Decimal.D8
  else if Ascii.eqb c "9" then Some Decimal.D9
  else None.

Definition is_digit (c : ascii) : bool :=
  match char_digit c with Some _ => true | None => false end.

(** The longest run of digits at the head of [s]. *)
Fixpoint scan_digits (s : list ascii) : Decimal.uint * list ascii :=
  match s with
  | c :: r =>
      match char_digit c with
      | Some d => let '(u, r') := scan_digits r in (d u, r')
      | None => (Decimal.Nil, s)
      end
  | [] => (Decimal.Nil, [])
  end.

(** The integer part of a number, [0|[1-9][0-9]*]. *)
Definition scan_integer (s : list ascii) : option (Decimal.uint * list ascii) :=
  match s with
  | c :: r =>
      if Ascii.eqb c "0" then Some (Decimal.D0 Decimal.Nil, r)
      else if is_digit c then Some (scan_digits s)
      else None
  | [] => None
  end.

(** Does a fraction [\.[0-9]+] or an exponent [[eE][-+]?[0-9]+] follow? *)
Definition float_tail (s : list ascii) : bool :=
  match s with
  | c :: d :: r =>
      if Ascii.eqb c "." then is_digit d
      else if Ascii.eqb c "e" || Ascii.eqb c "E" then
        is_digit d ||
        ((Ascii.eqb d "+" || Ascii.eqb d "-") &&
         match r with d' :: _ => is_digit d' | [] => false end)
      else false
  | _ => false
  end.

Definition parse_number (s : list ascii) : parse (value * list ascii) :=
  let '(negative, s1) :=
    match s with
    | c :: r => if Ascii.eqb c "-" then (true, r) else (false, s)
    | [] => (false, s)
    end in
  match scan_integer s1 with
  | Some (u, r) =>
      if float_tail r then Outside
      else
        let n := Z.of_N (N.of_uint u) in
        Parsed (VInt (if negative : bool then - n else n), r)
  | None =>
      if negative && bool_decide (is_Some (strip_prefix (chars "Infinity") s1))
      then Outside else Malformed
  end.

Definition hex_value (c : ascii) : option N :=
  let n := N_of_ascii c in
  if ((48 <=? n) && (n <=? 57))%N then Some (n - 48)%N
  else if ((97 <=? n) && (n <=? 102))%N then Some (n - 87)%N
  else if ((65 <=? n) && (n <=? 70))%N then Some (n - 55)%N
  else None.

Definition hex4 (a b c d : ascii) : option N :=
  x ← hex_value a; y ← hex_value b; z ← hex_value c; t ← hex_value d;
  Some (4096 * x + 256 * y + 16 * z + t)%N.

(** The character a backslash and [e] stand for, [\u] apart. *)
Definition unescape (e : ascii) : option ascii :=
  if Ascii.eqb e quote then Some quote
  else if Ascii.eqb e backslash then Some backslash
  else if Ascii.eqb e "/" then Some "/"%char
  else if Ascii.eqb e "b" then Some "008"%char
  else if Ascii.eqb e "f" then Some "012"%char
  else if Ascii.eqb e "n" then Some "010"%char
  else if Ascii.eqb e "r" then Some "013"%char
  else if Ascii.eqb e "t" then Some "009"%char
  else None.

(** The body of a string, after the opening quote and up to the closing
    one.  A raw control character is refused (the decoder is strict). *)
Fixpoint scan_string (s : list ascii) : parse (string * list ascii) :=
  match s with
  | [] => Malformed
  | c :: r =>
      if Ascii.eqb c quote then Parsed (EmptyString, r)
      else if Ascii.eqb c backslash then
        match r with
        | [] => Malformed
        | e :: r1 =>
            if Ascii.eqb e "u" then
              match r1 with
              | h1 :: h2 :: h3 :: h4 :: r2 =>
                  match hex4 h1 h2 h3 h4 with
                  | None => Malformed
                  | Some n =>
                      if (n <? 256)%N then
                        '(t, r3) ← scan_string r2;
                        Parsed (String (ascii_of_N n) t, r3)
                      else Outside
                  end
              | _ => Malformed
              end
            else
              match unescape e with
              | Some c' => '(t, r2) ← scan_string r1; Parsed (String c' t, r2)
              | None => Malformed
              end
        end
      else if (N_of_ascii c <? 32)%N then Malformed
      else '(t, r') ← scan_string r; Parsed (String c t, r')
  end.

Definition literal (name : string) (v : value) (s : list ascii)
  : option (parse (value * list ascii)) :=
  match strip_prefix (chars name) s with
  | Some r => Some (Parsed (v, r))
  | None => None
  end.

(** One value at the head of [s].  The three functions descend together
    as the scanner of the module does; [fuel] bounds the number of calls.
    [json_load] gives twice the length of the text and one more, which
    is always enough ([json_load_fuel]). *)
Fixpoint parse_value (fuel : nat) (s : list ascii) : parse (value * list ascii) :=
  match fuel with
  | O => Exhausted
  | S fuel' =>
      match s with
      | [] => Malformed
      | c :: r =>
          if Ascii.eqb c quote then
            '(str, r') ← scan_string r; Parsed (VStr str, r')
          else if Ascii.eqb c "{" then
            match skip_ws r with
            | [] => Malformed
            | c' :: r' =>
                if Ascii.eqb c' "}" then Parsed (VDict [], r')
                else parse_members fuel' [] (c' :: r')
            end
          else if Ascii.eqb c "[" then
            match skip_ws r with
            | [] => Malformed
            | c' :: r' =>
                if Ascii.eqb c' "]" then Parsed (VList [], r')
                else parse_elements fuel' [] (c' :: r')
            end
          else
            match literal "null" VNone s with
            | Some p => p
            | None =>
            match literal "true" (VBool true) s with
            | Some p => p
            | None =>
            match literal "false" (VBool false) s with
            | Some p => p
            | None =>
                match parse_number s with
                | Malformed =>
                    if bool_decide (is_Some (strip_prefix (chars "NaN") s))
                       || bool_decide (is_Some (strip_prefix (chars "Infinity") s))
                    then Outside else Malformed
                | p => p
                end
            end end end
      end
  end
with parse_elements (fuel : nat) (acc : list value) (s : list ascii)
  : parse (value * list ascii) :=
  match fuel with
  | O => Exhausted
  | S fuel' =>
      '(v, r) ← parse_value fuel' s;
      match skip_ws r with
      | [] => Malformed
      | c :: r' =>
          if Ascii.eqb c "]" then Parsed (VList (acc ++ [v]), r')
          else if Ascii.eqb c "," then parse_elements fuel' (acc ++ [v]) (skip_ws r')
          else Malformed
      end
  end
with parse_members (fuel : nat) (acc : list (string * value)) (s : list ascii)
  : parse (value * list ascii) :=
  match fuel with
  | O => Exhausted
  | S fuel' =>
      match s with
      | [] => Malformed
      | q :: r =>
          if Ascii.eqb q quote then
            '(k, r1) ← scan_string r;
            match skip_ws r1 with
            | [] => Malformed
            | c :: r2 =>
                if Ascii.eqb c ":" then
                  '(v, r3) ← parse_value fuel' (skip_ws r2);
                  match skip_ws r3 with
                  | [] => Malformed
                  | c' :: r4 =>
                      if Ascii.eqb c' "}" then Parsed (VDict (dict_set k v acc), r4)
                      else if Ascii.eqb c' ","
                      then parse_members fuel' (dict_set k v acc) (skip_ws r4)
                      else Malformed
                  end
                else Malformed
            end
          else Malformed
      end
  end.

(** [json.loads(text)]: one value between optional white space, and
    nothing after it. *)
Definition json_load (text : string) : parse value :=
  let s := skip_ws (chars text) in
  '(v, r) ← parse_value (S (2 * length s)) s;
  match skip_ws r with
  | [] => Parsed v
  | _ :: _ => Malformed
  end.

(** ** The file system and the user interface *)

(** What a path names: a regular file with its permissions and text, a
    directory, or a file that opens for writing while the write that
    follows breaks: [room] characters of the new text reach the file, then
    [e] is raised, at the latest when the file is closed ([OSError] when
    the device is full).  The fault stays with the file. *)
Inductive node : Type :=
| File (readable writable : bool) (content : string)
| Directory
| Faulty (readable : bool) (content : string) (room : nat) (e : exn).

(** The messages [st.error] shows. *)
Inductive notice : Set :=
| SaveError (e : exn)
| LoadError (e : exn).

Record world : Type := {
  files : gmap string node;
  may_create : bool;
  errors : list notice
}.

Definition with_files (w : world) (fs : gmap string node) : world :=
  {| files := fs; may_create := may_create w; errors := errors w |}.

(** [st.error(...)] *)
Definition st_error (n : notice) (w : world) : world :=
  {| files := files w; may_create := may_create w; errors := errors w ++ [n] |}.

(** [os.path.exists(path)] *)
Definition path_exists (w : world) (path : string) : bool :=
  match files w !! path with
  | Some _ => true
  | None => false
  end.

(** The first [n] characters of [text]. *)
Definition cut (n : nat) (text : string) : string :=
  string_of_list_ascii (take n (chars text)).

(** What the block [with open(path, "w") as file: ...] that writes [text]
    comes to: the file holds the text, or an exception left the world as
    [w]. *)
Inductive written : Type :=
| Complete (w : world)
| Broken (e : exn) (w : world).

(** [with open(path, "w") as file: file.write(text)].  The open fails on a
    directory, on a file without write permission and where no file can be
    created, and then nothing is touched.  Once the file is open it is
    empty; the write replaces the whole text, or breaks and leaves the
    first characters of it. *)
Definition write_text (w : world) (path text : string) : written :=
  match files w !! path with
  | Some (File r true _) =>
      Complete (with_files w (<[path := File r true text]> (files w)))
  | Some (File _ false _) => Broken OSError w
  | Some Directory => Broken OSError w
  | Some (Faulty r _ room e) =>
      Broken e (with_files w (<[path := Faulty r (cut room text) room e]> (files w)))
  | None =>
      if may_create w
      then Complete (with_files w (<[path := File true true text]> (files w)))
      else Broken OSError w
  end.

(** [with open(path, "r") as file: file.read()] *)
Definition read_text (w : world) (path : string) : result string :=
  match files w !! path with
  | Some (File true _ text) => Ok text
  | Some (File false _ _) => Raise OSError
  | Some Directory => Raise OSError
  | Some (Faulty true text _ _) => Ok text
  | Some (Faulty false _ _ _) => Raise OSError
  | None => Raise OSError
  end.

(** The [try] block ends at the first exception, of the open or of the
    dump; [except Exception] shows it and returns [False]. *)
Definition save_library (self : LibraryManager) (w : world)
  : bool * LibraryManager * world :=
  match write_text w (filename self) (json_dump (library self)) with
  | Complete w' => (true, self, w')
  | Broken e w' => (false, self, st_error (SaveError e) w')
  end.

(** [None] where the file holds a document outside the modelled values. *)
Definition load_library (self : LibraryManager) (w : world)
  : option (bool * LibraryManager * world) :=
  if path_exists w (filename self) then
    match read_text w (filename self) with
    | Ok text =>
        match json_load text with
        | Parsed v => Some (true, set_library self v, w)
        | Malformed => Some (false, self, st_error (LoadError JSONDecodeError) w)
        | Outside | Exhausted => None
        end
    | Raise e => Some (false, self, st_error (LoadError e) w)
    end
  else Some (false, self, w).

(** [LibraryManager()]: the constructor sets an empty list and the file
    name, calls [load_library] and drops what it returns. *)
Definition blank : LibraryManager :=
  {| library := VList []; filename := "library.txt" |}.

Definition init (w : world) : option (LibraryManager * world) :=
  '(_, self, w') ← load_library blank w;
  Some (self, w').

(** ** The script: [main]

    Streamlit runs [main] anew on every interaction.  The values the
    widgets return are arguments of the model, what [st.success],
    [st.info] and the script's own [st.error] show is returned as a list
    of messages, and the table that pandas draws, which the script does
    not control, is the argument [show_table]. *)

(** [a == b] on two values: numbers by their integer, lists element by
    element, dictionaries key by key whatever the order of the keys. *)
Fixpoint py_eq (a b : value) {struct a} : bool :=
  match a, b with
  | VNone, VNone => true
  | VStr s, VStr t => String.eqb s t
  | VList l, VList m =>
      (fix all2 (l m : list value) {struct l} : bool :=
         match l, m with
         | [], [] => true
         | x :: l', y :: m' => py_eq x y && all2 l' m'
         | _, _ => false
         end) l m
  | VDict d, VDict e =>
      Nat.eqb (length d) (length e)
      && forallb (λ kx, match dict_get (fst kx) e with
                        | Some y => py_eq (snd kx) y
                        | None => false
                        end) d
  | _, _ =>
      match as_number a, as_number b with
      | Some m, Some n => m =? n
      | _, _ => false
      end
  end.

(** The first position of [l] whose element equals [x]. *)
Fixpoint list_index (l : list value) (x : value) : option nat :=
  match l with
  | [] => None
  | y :: l' => if py_eq y x then Some 0%nat else S <$> list_index l' x
  end.

(** The first position at which [needle] starts in [hay]. *)
Fixpoint str_index (needle hay : string) : option nat :=
  if startswith needle hay then Some 0%nat
  else
    match hay with
    | EmptyString => None
    | String _ hay' => S <$> str_index needle hay'
    end.

(** The exceptions of the script: those of the store, and [ValueError],
    which [index] raises when it finds nothing. *)
Inductive script_exn : Set :=
| StoreError (e : exn)
| ValueError.

Inductive outcome (A : Type) : Type :=
| Done (a : A)
| Failed (e : script_exn).
Arguments Done {A} a.
Arguments Failed {A} e.

(** [v.index(x)] *)
Definition py_index (v x : value) : outcome Z :=
  match v with
  | VList l =>
      match list_index l x with
      | Some i => Done (Z.of_nat i)
      | None => Failed ValueError
      end
  | VStr s =>
      match x with
      | VStr t =>
          match str_index t s with
          | Some i => Done (Z.of_nat i)
          | None => Failed ValueError
          end
      | _ => Failed (StoreError TypeError)
      end
  | _ => Failed (StoreError AttributeError)
  end.

(** What the script shows besides the errors of the store. *)
Inductive message : Type :=
| RemovedFromLibrary (title : value)
| AddedToLibrary (title : string)
| FillRequiredFields
| NoBooksFound.

(** [st.session_state.library_manager], built on the first run only. *)
Definition session_manager (session : option LibraryManager) (w : world)
  : option (LibraryManager * world) :=
  match session with
  | Some self => Some (self, w)
  | None => init w
  end.

(** The condition of the status filter,
    [s == "All Books" or (s == "Read" and book["read"])
     or (s == "Unread" and not book["read"])]:
    [book["read"]] is looked up only where [and] reaches it. *)
Definition status_test (selected_status : string) (book : value) : result bool :=
  if String.eqb selected_status "All Books" then Ok true
  else
    is_read ←
      (if String.eqb selected_status "Read"
       then r ← py_getitem book "read"; Ok (py_truthy r)
       else Ok false);
    if is_read : bool then Ok true
    else if String.eqb selected_status "Unread"
    then r ← py_getitem book "read"; Ok (negb (py_truthy r))
    else Ok false.

(** The books the Library tab lists: [filter_by_genre], then the status
    filter. *)
Definition filtered_books (self : LibraryManager)
    (selected_genre selected_status : string) : result (list value) :=
  by_genre ← filter_by_genre self selected_genre;
  items ← py_iter by_genre;
  comprehension (status_test selected_status) items.

(** [[book["title"] for book in books]] *)
Fixpoint titles_of (books : list value) : result (list value) :=
  match books with
  | [] => Ok []
  | book :: rest =>
      t ← py_getitem book "title";
      ts ← titles_of rest;
      Ok (t :: ts)
  end.

(** The Library tab, for the genre and status chosen, the entry
    [book_to_remove] of the select box and the state [clicked] of the
    button.  The options of the genre box need [get_all_genres] first. *)
Definition library_tab (show_table : list value → result unit)
    (self : LibraryManager) (w : world)
    (selected_genre selected_status : string)
    (book_to_remove : value) (clicked : bool)
  : outcome (list message) * LibraryManager * world :=
  match get_all_genres self with
  | Raise e => (Failed (StoreError e), self, w)
  | Ok _ =>
  match filtered_books self selected_genre selected_status with
  | Raise e => (Failed (StoreError e), self, w)
  | Ok books =>
      if py_truthy (VList books) then
        match show_table books with
        | Raise e => (Failed (StoreError e), self, w)
        | Ok _ =>
        match titles_of books with
        | Raise e => (Failed (StoreError e), self, w)
        | Ok book_titles =>
            if clicked && py_truthy book_to_remove then
              match list_index book_titles book_to_remove with
              | None => (Failed ValueError, self, w)
              | Some index =>
              match books !! index with
              | None => (Failed (StoreError IndexError), self, w)
              | Some shown =>
              match py_index (library self) shown with
              | Failed e => (Failed e, self, w)
              | Done position =>
                  match remove_book self position with
                  | (Raise e, self') => (Failed (StoreError e), self', w)
                  | (Ok (true, title), self') =>
                      let '(_, self'', w') := save_library self' w in
                      (Done [RemovedFromLibrary title], self'', w')
                  | (Ok (false, _), self') => (Done [], self', w)
                  end
              end end end
            else (Done [], self, w)
        end end
      else (Done [NoBooksFound], self, w)
  end end.

(** The Add Book tab, for the contents of the form and the state
    [submitted] of its button. *)
Definition add_book_tab (self : LibraryManager) (w : world) (now : datetime)
    (title author : string) (year : Z) (genre : string) (read_status : bool)
    (submitted : bool)
  : outcome (list message) * LibraryManager * world :=
  if submitted then
    if py_truthy (VStr title) && py_truthy (VStr author) && py_truthy (VStr genre)
    then
      match add_book self now title author year genre read_status with
      | (Raise e, self') => (Failed (StoreError e), self', w)
      | (Ok _, self') =>
          let '(_, self'', w') := save_library self' w in
          (Done [AddedToLibrary title], self'', w')
      end
    else (Done [FillRequiredFields], self, w)
  else (Done [], self, w).

(** [genre in genre_counts], [genre_counts[genre] += 1] and
    [genre_counts[genre] = 1] on a dictionary whose keys are values. *)
Fixpoint count_genre (genre : value) (counts : list (value * Z)) : list (value * Z) :=
  match counts with
  | [] => [(genre, 1)]
  | (g, n) :: counts' =>
      if hash_eq g genre then (g, n + 1) :: counts'
      else (g, n) :: count_genre genre counts'
  end.

(** The loop of the Statistics tab over the library. *)
Fixpoint genre_counts (items : list value) (counts : list (value * Z))
  : result (list (value * Z)) :=
  match items with
  | [] => Ok counts
  | book :: rest =>
      genre ← py_getitem book "genre";
      if hashable genre then genre_counts rest (count_genre genre counts)
      else Raise TypeError
  end.

(** The Statistics tab: the statistics, and where there is a book the
    fraction handed to [st.progress], which is the float
    [stats["percentage"] / 100], and the count of every genre. *)
Definition statistics_tab (self : LibraryManager)
  : result (Stats.t * option (Q * list (value * Z))) :=
  stats ← get_statistics self;
  if 0 <? Stats.total stats then
    items ← py_iter (library self);
    counts ← genre_counts items [];
    Ok (stats, Some (b64 (number_value (Stats.percentage stats) / 100), counts))
  else Ok (stats, None).

(** ** Notions for the script *)

(** Does the Library tab list the record [b] for this genre and status? *)
Definition listed (selected_genre selected_status : string) (b : Book.t) : bool :=
  (String.eqb selected_genre "All Genres" || String.eqb (Book.genre b) selected_genre)
  && (String.eqb selected_status "All Books"
      || String.eqb selected_status "Read" && Book.read b
      || String.eqb selected_status "Unread" && negb (Book.read b)).

(** A character of plain text: printable ASCII, or the line feed. *)
Definition plain (c : ascii) : bool :=
  ((32 <=? N_of_ascii c) && (N_of_ascii c <=? 126))%N || Ascii.eqb c "010".

(** The count of [genre] in a tally of genres, 0 where it has none. *)
Fixpoint tally_get (genre : string) (tally : list (string * Z)) : Z :=
  match tally with
  | [] => 0
  | (g, n) :: tally' => if String.eqb g genre then n else tally_get genre tally'
  end.

(** One more record of [genre] in a tally: its count goes up by one, or it
    enters at the end with the count 1. *)
Fixpoint tally_add (genre : string) (tally : list (string * Z)) : list (string * Z) :=
  match tally with
  | [] => [(genre, 1)]
  | (g, n) :: tally' =>
      if String.eqb g genre then (g, n + 1) :: tally'
      else (g, n) :: tally_add genre tally'
  end.

(** A tally of genres as the dictionary [genre_counts] is in memory. *)
Definition of_tally (tally : list (string * Z)) : list (value * Z) :=
  (λ gn, (VStr (fst gn), snd gn)) <$> tally.

(** The number of records of [genre] in a catalog. *)
Definition genre_count (genre : string) (books : list Book.t) : Z :=
  Z.of_nat (length (List.filter (λ b, String.eqb (Book.genre b) genre) books)).

(** A table that always draws. *)
Definition table_drawn (books : list value) : result unit := Ok tt.

(** ** Notions of the specification *)

(** The capital of a small letter, among the code points below U+0100:
    [a]..[z] have [A]..[Z], and U+00E0..U+00FE, the division sign U+00F7
    apart, have U+00C0..U+00DE.  The sharp s, the micro sign and the y with
    diaeresis have no capital there. *)
Definition capital (c : ascii) : option ascii :=
  let n := N_of_ascii c in
  if ((97 <=? n) && (n <=? 122) || (224 <=? n) && (n <=? 254) && negb (n =? 247))%N
  then Some (ascii_of_N (n - 32))
  else None.

(** Two characters are the same letter when they are equal or one is the
    capital of the other. *)
Definition same_letter (a b : ascii) : bool :=
  Ascii.eqb a b
  || match capital a with Some a' => Ascii.eqb a' b | None => false end
  || match capital b with Some b' => Ascii.eqb b' a | None => false end.

(** Two strings of the same length with the same letter at every place. *)
Fixpoint same_letters (s t : string) : bool :=
  match s, t with
  | EmptyString, EmptyString => true
  | String a s', String b t' => same_letter a b && same_letters s' t'
  | _, _ => false
  end.

(** [q] occurs in [t] as a substring when letter case is ignored: a part
    of [t] has the letters of [q]. *)
Definition ci_substring (q t : string) : Prop :=
  ∃ pre mid post, t = (pre ++ mid ++ post)%string ∧ same_letters q mid = true.

(** The digit of the units of [n]. *)
Definition digit_char (n : N) : ascii := ascii_of_N (48 + n mod 10).

(** The date [YYYY-MM-DD] of a day whose year has four digits. *)
Definition iso_date (year month day : N) : string :=
  string_of_list_ascii
    [digit_char (year / 1000); digit_char (year / 100); digit_char (year / 10);
     digit_char year; "-"%char;
     digit_char (month / 10); digit_char month; "-"%char;
     digit_char (day / 10); digit_char day].

(** A date that a clock shows with a year of four digits. *)
Definition four_digit_date (now : datetime) : Prop :=
  (1000 ≤ dt_year now ≤ 9999)%N ∧ (1 ≤ dt_month now ≤ 12)%N ∧ (1 ≤ dt_day now ≤ 31)%N.

(** [a] is before [b] in the lexicographic order of code points, the order
    of [<] on Python strings. *)
Definition str_lt (a b : string) : Prop := String.compare a b = Lt.

(** A value as Python builds it: the keys of every dictionary in it are
    pairwise distinct. *)
#[warnings="-register-all"]
Inductive wf : value → Prop :=
| wf_none : wf VNone
| wf_bool b : wf (VBool b)
| wf_int n : wf (VInt n)
| wf_str s : wf (VStr s)
| wf_list l : Forall wf l → wf (VList l)
| wf_dict d : NoDup d.*1 → Forall (λ kv, wf kv.2) d → wf (VDict d).

(** The number of calls the decoder spends on the text of a value. *)
Fixpoint weight (v : value) : nat :=
  match v with
  | VList l => S (foldr (λ x n, S (weight x + n)) 0%nat l)
  | VDict d => S (foldr (λ kv n, S (weight kv.2 + n)) 0%nat d)
  | _ => 1%nat
  end.

(** What may follow a number so that the number ends there: no digit, and
    no start of a fraction or of an exponent. *)
Definition ends_number (rest : list ascii) : bool :=
  match rest with
  | [] => true
  | c :: _ =>
      negb (is_digit c || Ascii.eqb c "." || Ascii.eqb c "e" || Ascii.eqb c "E")
  end.

(** The characters a value can start with in the text of the encoder. *)
Definition starts_value (c : ascii) : bool :=
  is_digit c || Ascii.eqb c "-" || Ascii.eqb c quote || Ascii.eqb c "[" || Ascii.eqb c "{"
  || Ascii.eqb c "n" || Ascii.eqb c "t" || Ascii.eqb c "f".

(** The decoder reads the text of [v] back as [v], at every indent level,
    before every text that ends a number, with [weight v] calls. *)
Definition decodes (v : value) : Prop :=
  ∀ (level fuel : nat) (rest : list ascii),
    ends_number rest = true → (weight v ≤ fuel)%nat →
    parse_value fuel (encode level v ++ rest) = Parsed (v, rest).

(** [load_library] reports success: it returns [True]. *)
Definition returns_true (r : option (bool * LibraryManager * world)) : Prop :=
  ∃ self w, r = Some (true, self, w).

(** ** Sample data *)

Definition dune : Book.t :=
  {| Book.title := "Dune"; Book.author := "Herbert"; Book.year := 1965;
     Book.genre := "Sci-Fi"; Book.read := true; Book.date_added := "2024-05-17" |}.

Definition hamlet : Book.t :=
  {| Book.title := "Hamlet"; Book.author := "Shakespeare"; Book.year := 1603;
     Book.genre := "Drama"; Book.read := false; Book.date_added := "2024-05-18" |}.

Definition emma : Book.t :=
  {| Book.title := "Emma"; Book.author := "Austen"; Book.year := 1815;
     Book.genre := "Drama"; Book.read := true; Book.date_added := "2024-06-02" |}.

Definition dune_film : Book.t :=
  {| Book.title := "Dune"; Book.author := "Villeneuve"; Book.year := 2021;
     Book.genre := "Drama"; Book.read := false; Book.date_added := "2024-07-01" |}.

(** A directory without [library.txt], in which files can be created. *)
Definition empty_world : world :=
  {| files := ∅; may_create := true; errors := [] |}.

(** A world whose [library.txt] holds [text] with the given permissions. *)
Definition world_with (readable writable : bool) (text : string) : world :=
  {| files := {[ "library.txt" := File readable writable text ]};
     may_create := true; errors := [] |}.

(** A world whose [library.txt] holds [text] on a full device: it opens
    for writing, and the write breaks with nothing written. *)
Definition world_full (text : string) : world :=
  {| files := {[ "library.txt" := Faulty true text 0 OSError ]};
     may_create := true; errors := [] |}.

(** * Properties *)

(** ** Book records in memory *)

Section catalog.
Implicit Types (b : Book.t) (books : list Book.t).

Lemma of_book_inj b1 b2 : of_book b1 = of_book b2 → b1 = b2.
Proof. destruct b1, b2; unfold of_book; simpl; intros [=]; by subst. Qed.

Lemma getitem_title b : py_getitem (of_book b) "title" = Ok (VStr (Book.title b)).
Proof. reflexivity. Qed.

Lemma getitem_author b : py_getitem (of_book b) "author" = Ok (VStr (Book.author b)).
Proof. reflexivity. Qed.

Lemma getitem_genre b : py_getitem (of_book b) "genre" = Ok (VStr (Book.genre b)).
Proof. reflexivity. Qed.

Lemma getitem_read b : py_getitem (of_book b) "read" = Ok (VBool (Book.read b)).
Proof. reflexivity. Qed.

Lemma len_catalog books : py_len (of_catalog books) = Ok (Z.of_nat (length books)).
Proof. unfold of_catalog; simpl. by rewrite length_fmap. Qed.

(** A comprehension over book records whose condition never raises is a
    filter. *)
Lemma comprehension_books (cond : value → result bool) (keep : Book.t → bool) books :
  (∀ b, cond (of_book b) = Ok (keep b)) →
  comprehension cond (of_book <$> books) = Ok (of_book <$> List.filter keep books).
Proof.
  intros Hcond. induction books as [|b books IH]; [done|].
  rewrite fmap_cons. cbn [comprehension]. rewrite Hcond, IH. cbn.
  by destruct (keep b).
Qed.

Lemma count_if_books (cond : value → result bool) (keep : Book.t → bool) books :
  (∀ b, cond (of_book b) = Ok (keep b)) →
  count_if cond (of_book <$> books) = Ok (Z.of_nat (length (List.filter keep books))).
Proof.
  intros Hcond. induction books as [|b books IH]; [done|].
  rewrite fmap_cons. cbn [count_if]. rewrite Hcond, IH. cbn.
  destruct (keep b); cbn; f_equal; lia.
Qed.
End catalog.

(** ** Adding a book *)

Lemma chars_inj (l m : list ascii) :
  string_of_list_ascii l = string_of_list_ascii m → l = m.
Proof.
  intros H. by rewrite <- (list_ascii_of_string_of_list_ascii l),
    <- (list_ascii_of_string_of_list_ascii m), H.
Qed.

(** The numeral of a number of four digits, digit by digit. *)
Lemma year_chars (y : N) :
  (1000 ≤ y ≤ 9999)%N →
  nat_chars y
  = [digit_char (y / 1000); digit_char (y / 100); digit_char (y / 10); digit_char y].
Proof.
  intros Hy.
  assert (forallb
            (λ k, String.eqb
                    (string_of_list_ascii (nat_chars (N.of_nat k)))
                    (string_of_list_ascii
                       [digit_char (N.of_nat k / 1000); digit_char (N.of_nat k / 100);
                        digit_char (N.of_nat k / 10); digit_char (N.of_nat k)]))
            (seq (N.to_nat 1000) (N.to_nat 9000)) = true) as Hall by (vm_compute; reflexivity).
  rewrite forallb_forall in Hall.
  specialize (Hall (N.to_nat y) (proj2 (in_seq (N.to_nat 9000) (N.to_nat 1000) (N.to_nat y)) ltac:(lia))).
  rewrite N2Nat.id in Hall. by apply String.eqb_eq, chars_inj in Hall.
Qed.

(** A number below 100 padded to two digits. *)
Lemma pad2_chars (n : N) :
  (n < 100)%N → zero_pad 2 n = [digit_char (n / 10); digit_char n].
Proof.
  intros Hn.
  assert (forallb
            (λ k, String.eqb
                    (string_of_list_ascii (zero_pad 2 (N.of_nat k)))
                    (string_of_list_ascii
                       [digit_char (N.of_nat k / 10); digit_char (N.of_nat k)]))
            (seq 0 100) = true) as Hall by (vm_compute; reflexivity).
  rewrite forallb_forall in Hall.
  specialize (Hall (N.to_nat n) (proj2 (in_seq 100 0 (N.to_nat n)) ltac:(lia))).
  rewrite N2Nat.id in Hall. by apply String.eqb_eq, chars_inj in Hall.
Qed.

(** From the year 1000 on the stamp is the date in the form [YYYY-MM-DD]. *)
Lemma strftime_iso (now : datetime) :
  four_digit_date now →
  strftime_ymd now = iso_date (dt_year now) (dt_month now) (dt_day now).
Proof.
  intros (Hy & Hm & Hd). unfold strftime_ymd, iso_date.
  rewrite (year_chars _ Hy), (pad2_chars (dt_month now)), (pad2_chars (dt_day now)) by lia.
  reflexivity.
Qed.

(** C8: [add_book] accepts every title, author, year, genre and read flag:
    it builds the record with exactly these fields and the date of the
    clock, appends it after the records already there, which stay in
    place, and returns it.  The date is the text [strftime] makes of the
    clock, which from the year 1000 on is year, month and day in the form
    [YYYY-MM-DD]. *)
Theorem add_book_appends (books : list Book.t) (now : datetime)
    (title author : string) (year : Z) (genre : string) (read_status : bool) :
  let b := {| Book.title := title; Book.author := author; Book.year := year;
              Book.genre := genre; Book.read := read_status;
              Book.date_added := strftime_ymd now |} in
  add_book (manager_of books) now title author year genre read_status
    = (Ok (of_book b), manager_of (books ++ [b]))
  ∧ length (books ++ [b]) = S (length books)
  ∧ (∀ i, (i < length books)%nat → (books ++ [b]) !! i = books !! i)
  ∧ (books ++ [b]) !! length books = Some b
  ∧ (four_digit_date now →
     Book.date_added b = iso_date (dt_year now) (dt_month now) (dt_day now)).
Proof.
  intros b. split_and!.
  - unfold add_book, manager_of, of_catalog, set_library; simpl.
    by rewrite fmap_app.
  - rewrite length_app; simpl; lia.
  - intros i Hi. by rewrite lookup_app_l.
  - by rewrite list_lookup_middle.
  - apply strftime_iso.
Qed.

(** ** Removing a book *)

Lemma index_in_range_catalog (books : list Book.t) (i : Z) :
  index_in_range (manager_of books) i
    = Ok (bool_decide (0 ≤ i < Z.of_nat (length books))).
Proof.
  unfold index_in_range, manager_of; simpl. rewrite length_fmap.
  destruct (Z.leb_spec 0 i); simpl.
  - destruct (Z.ltb_spec i (Z.of_nat (length books))).
    + by rewrite bool_decide_eq_true_2 by lia.
    + by rewrite bool_decide_eq_false_2 by lia.
  - by rewrite bool_decide_eq_false_2 by lia.
Qed.

(** C1: [remove_book] with an index inside the catalog removes exactly the
    record at that position (records before it stay, records after it move
    down by one), shortens the catalog by one and returns [True] with the
    title of the removed record; with an index below zero or not below the
    length it returns [False] with the empty string and leaves the catalog
    as it was. *)
Theorem remove_book_by_index (books : list Book.t) (i : Z) :
  (0 ≤ i < Z.of_nat (length books) →
     ∃ b rest,
       books !! Z.to_nat i = Some b
       ∧ remove_book (manager_of books) i
           = (Ok (true, VStr (Book.title b)), manager_of rest)
       ∧ S (length rest) = length books
       ∧ (∀ j, (j < Z.to_nat i)%nat → rest !! j = books !! j)
       ∧ (∀ j, (Z.to_nat i ≤ j)%nat → rest !! j = books !! S j))
  ∧ (i < 0 ∨ Z.of_nat (length books) ≤ i →
     remove_book (manager_of books) i = (Ok (false, VStr ""), manager_of books)).
Proof.
  split.
  - intros Hi.
    destruct (lookup_lt_is_Some_2 books (Z.to_nat i)) as [b Hb]; [lia|].
    exists b, (delete (Z.to_nat i) books). split_and!; [done|..].
    + unfold remove_book. rewrite index_in_range_catalog.
      rewrite bool_decide_eq_true_2 by done.
      unfold manager_of at 1, of_catalog at 1; simpl.
      rewrite length_fmap.
      destruct (Z.ltb_spec i 0) as [?|_]; [lia|].
      destruct (Z.leb_spec 0 i) as [_|?]; [|lia].
      destruct (Z.ltb_spec i (Z.of_nat (length books))) as [_|?]; [|lia].
      simpl. rewrite list_lookup_fmap, Hb. simpl.
      unfold set_library, manager_of, of_catalog; simpl.
      by rewrite list_fmap_delete.
    + rewrite length_delete by eauto.
      apply lookup_lt_Some in Hb. lia.
    + intros j Hj. by rewrite list_lookup_delete_lt.
    + intros j Hj. by rewrite list_lookup_delete_ge.
  - intros Hi. unfold remove_book. rewrite index_in_range_catalog.
    by rewrite bool_decide_eq_false_2 by lia.
Qed.

(** ** Floats *)

Lemma round_half_even_error (x : Q) :
  (Qabs (inject_Z (round_half_even x) - x) <= 1 # 2)%Q.
Proof.
  unfold round_half_even. cbv zeta.
  pose proof (Qfloor_le x) as Hlo. pose proof (Qlt_floor x) as Hhi.
  rewrite inject_Z_plus in Hhi. change (inject_Z 1) with 1%Q in Hhi.
  apply Qabs_Qle_condition.
  destruct (x - inject_Z (Qfloor x) ?= 1 # 2)%Q eqn:E.
  - apply Qeq_alt in E. destruct (Z.even (Qfloor x)).
    + split; lra.
    + rewrite inject_Z_plus. change (inject_Z 1) with 1%Q. split; lra.
  - apply Qlt_alt in E. split; lra.
  - apply Qgt_alt in E. rewrite inject_Z_plus. change (inject_Z 1) with 1%Q. split; lra.
Qed.

Lemma round_half_even_le (x : Q) (n : Z) :
  (x <= inject_Z n)%Q → round_half_even x <= n.
Proof.
  intros Hx. unfold round_half_even. cbv zeta.
  pose proof (Qfloor_le x) as Hlo.
  assert (Qfloor x <= n) as Hk.
  { rewrite Zle_Qle. lra. }
  destruct (Z.eq_dec (Qfloor x) n) as [Heq|Hne].
  - assert ((x - inject_Z (Qfloor x) ?= 1 # 2)%Q = Lt) as ->.
    { apply (proj1 (Qlt_alt _ _)). rewrite Heq in *. lra. }
    lia.
  - destruct (x - inject_Z (Qfloor x) ?= 1 # 2)%Q; [destruct (Z.even _)| |]; lia.
Qed.

Lemma round_half_even_ge (x : Q) (n : Z) :
  (inject_Z n <= x)%Q → n <= round_half_even x.
Proof.
  intros Hx. unfold round_half_even. cbv zeta.
  assert (n <= Qfloor x) as Hk.
  { apply Z.lt_succ_r. rewrite Zlt_Qlt. pose proof (Qlt_floor x) as Hhi.
    unfold Z.succ. lra. }
  destruct (x - inject_Z (Qfloor x) ?= 1 # 2)%Q; [destruct (Z.even _)| |]; lia.
Qed.

Lemma two_power_pos (e : Z) : (0 < 2 ^ e)%Q.
Proof. by apply Qpower_0_lt. Qed.

Lemma two_power_succ (e : Z) : (2 ^ (e + 1) == 2 * 2 ^ e)%Q.
Proof. rewrite Qpower_plus by done. change (2 ^ 1)%Q with 2%Q. ring. Qed.

Lemma two_power_log2 (n : Z) :
  0 < n → (2 ^ Z.log2 n <= inject_Z n < 2 * 2 ^ Z.log2 n)%Q.
Proof.
  intros Hn. destruct (Z.log2_spec n Hn) as [H1 H2].
  pose proof (Z.log2_nonneg n) as H0.
  rewrite <- two_power_succ. rewrite <- !(Zpower_Qpower 2) by lia.
  rewrite <- Zle_Qle, <- Zlt_Qlt. by replace (Z.log2 n + 1) with (Z.succ (Z.log2 n)) by lia.
Qed.

(** The exponent of a positive rational brackets it between two powers of 2. *)
Lemma exponent_spec (q : Q) :
  (0 < q)%Q → (2 ^ exponent q <= q < 2 * 2 ^ exponent q)%Q.
Proof.
  intros Hq. unfold exponent. cbv zeta.
  assert (0 < Qnum q) as Hn by (unfold Qlt in Hq; cbn in Hq; lia).
  set (a := Z.log2 (Qnum q)). set (b := Z.log2 (Z.pos (Qden q))).
  destruct (two_power_log2 (Qnum q) Hn) as [Ha1 Ha2]. fold a in Ha1, Ha2.
  destruct (two_power_log2 (Z.pos (Qden q)) eq_refl) as [Hb1 Hb2]. fold b in Hb1, Hb2.
  assert (q * inject_Z (Z.pos (Qden q)) == inject_Z (Qnum q))%Q as Hnd.
  { destruct q as [n d]. cbn [Qnum Qden]. rewrite (Qmake_Qdiv n d). field.
    intros H0. unfold Qeq in H0; cbn in H0; lia. }
  set (N := inject_Z (Qnum q)) in *. set (D := inject_Z (Z.pos (Qden q))) in *.
  assert (2 ^ a == 2 ^ (a - b) * 2 ^ b)%Q as Hab.
  { rewrite <- Qpower_plus by done. by replace (a - b + b) with a by lia. }
  pose proof (two_power_pos (a - b)) as Hp. pose proof (two_power_pos b) as Hpb.
  assert (2 ^ (a - b) == 2 * 2 ^ (a - b - 1))%Q as Hpred.
  { rewrite <- two_power_succ. by replace (a - b - 1 + 1) with (a - b) by lia. }
  pose proof (two_power_pos (a - b - 1)) as Hp1.
  set (P := (2 ^ (a - b))%Q) in *. set (P1 := (2 ^ (a - b - 1))%Q) in *.
  set (A := (2 ^ a)%Q) in *. set (B := (2 ^ b)%Q) in *.
  assert (0 < D)%Q as HD by lra.
  assert (q < 2 * P)%Q as Hhi by nra.
  assert (P1 <= q)%Q as Hlo by nra.
  destruct (Qle_bool P q) eqn:E.
  - apply Qle_bool_iff in E. fold P. lra.
  - assert (¬ (P <= q)%Q) as Hnot by (rewrite <- Qle_bool_iff; congruence).
    fold P1. lra.
Qed.

Lemma nearest53_scaled (q : Q) :
  (q == q / 2 ^ (exponent q - 52) * 2 ^ (exponent q - 52))%Q.
Proof. field. apply Qpower_not_0. done. Qed.

Lemma nearest53_error (q : Q) :
  (0 < q)%Q → (Qabs (nearest53 q - q) <= q * (1 # 2 ^ 53))%Q.
Proof.
  intros Hq. unfold nearest53. cbv zeta.
  destruct (exponent_spec q Hq) as [Hlo _].
  pose proof (nearest53_scaled q) as Hx.
  pose proof (two_power_pos (exponent q - 52)) as HT.
  assert (2 ^ exponent q == 2 ^ 52 * 2 ^ (exponent q - 52))%Q as Hsplit.
  { rewrite <- Qpower_plus by done. by replace (52 + (exponent q - 52)) with (exponent q) by lia. }
  pose proof (round_half_even_error (q / 2 ^ (exponent q - 52))) as Herr.
  apply Qabs_Qle_condition in Herr.
  set (T := (2 ^ (exponent q - 52))%Q) in *. set (x := (q / T)%Q) in *.
  set (m := inject_Z (round_half_even x)) in *.
  rewrite Hsplit in Hlo. change (2 ^ 52)%Q with 4503599627370496%Q in Hlo.
  change (1 # 2 ^ 53)%Q with (1 # 9007199254740992)%Q.
  apply Qabs_Qle_condition. split; nra.
Qed.

(** Rounding does not cross a number that has a mantissa of its own at the
    exponent of [q] or above. *)
Lemma nearest53_le (q : Q) (n k : Z) :
  (0 < q)%Q → exponent q - 52 <= k → (q <= inject_Z n * 2 ^ k)%Q →
  (nearest53 q <= inject_Z n * 2 ^ k)%Q.
Proof.
  intros Hq Hk Hle. unfold nearest53. cbv zeta.
  pose proof (nearest53_scaled q) as Hx.
  pose proof (two_power_pos (exponent q - 52)) as HT.
  assert (2 ^ k == inject_Z (2 ^ (k - (exponent q - 52))) * 2 ^ (exponent q - 52))%Q as Hsplit.
  { rewrite Zpower_Qpower by lia. rewrite <- Qpower_plus by done.
    by replace (k - (exponent q - 52) + (exponent q - 52)) with k by lia. }
  set (T := (2 ^ (exponent q - 52))%Q) in *. set (x := (q / T)%Q) in *.
  set (c := 2 ^ (k - (exponent q - 52))) in *.
  assert (x <= inject_Z (n * c))%Q as Hxle.
  { rewrite inject_Z_mult. rewrite Hsplit in Hle. nra. }
  apply round_half_even_le in Hxle. rewrite Zle_Qle in Hxle.
  rewrite inject_Z_mult in Hxle. rewrite Hsplit. nra.
Qed.

Lemma nearest53_ge (q : Q) (n k : Z) :
  (0 < q)%Q → exponent q - 52 <= k → (inject_Z n * 2 ^ k <= q)%Q →
  (inject_Z n * 2 ^ k <= nearest53 q)%Q.
Proof.
  intros Hq Hk Hle. unfold nearest53. cbv zeta.
  pose proof (nearest53_scaled q) as Hx.
  pose proof (two_power_pos (exponent q - 52)) as HT.
  assert (2 ^ k == inject_Z (2 ^ (k - (exponent q - 52))) * 2 ^ (exponent q - 52))%Q as Hsplit.
  { rewrite Zpower_Qpower by lia. rewrite <- Qpower_plus by done.
    by replace (k - (exponent q - 52) + (exponent q - 52)) with k by lia. }
  set (T := (2 ^ (exponent q - 52))%Q) in *. set (x := (q / T)%Q) in *.
  set (c := 2 ^ (k - (exponent q - 52))) in *.
  assert (inject_Z (n * c) <= x)%Q as Hxle.
  { rewrite inject_Z_mult. rewrite Hsplit in Hle. nra. }
  apply round_half_even_ge in Hxle. rewrite Zle_Qle in Hxle.
  rewrite inject_Z_mult in Hxle. rewrite Hsplit. nra.
Qed.

Lemma b64_nearest53 (q : Q) : (0 < q)%Q → (b64 q == nearest53 q)%Q.
Proof.
  intros Hq. unfold b64. destruct q as [[|n|n] d]; [done| |done].
  apply Qred_correct.
Qed.

Lemma b64_zero (q : Q) : (q == 0)%Q → b64 q = 0%Q.
Proof.
  intros Hq. unfold b64. destruct q as [[|n|n] d]; [done| |]; unfold Qeq in Hq; cbn in Hq; lia.
Qed.

(** One rounding is off by at most the fraction 2^-53 of the exact value. *)
Lemma b64_error (q : Q) :
  (0 <= q)%Q → (Qabs (b64 q - q) <= q * (1 # 2 ^ 53))%Q.
Proof.
  intros Hq. destruct (Qlt_le_dec 0 q) as [Hpos|Hle].
  - rewrite (b64_nearest53 q Hpos). by apply nearest53_error.
  - assert (q == 0)%Q as H0 by lra. rewrite (b64_zero q H0).
    apply Qabs_Qle_condition. change (1 # 2 ^ 53)%Q with (1 # 9007199254740992)%Q.
    split; lra.
Qed.

(** A double is a number [n * 2^k] with [|n| < 2^53]; rounding stays on the side of a
    double where the exact value is. *)
Lemma b64_le (q : Q) (n k : Z) :
  0 < n < 2 ^ 53 → (0 <= q <= inject_Z n * 2 ^ k)%Q → (b64 q <= inject_Z n * 2 ^ k)%Q.
Proof.
  intros Hn [Hq Hle]. pose proof (two_power_pos k) as Hk.
  assert (0 < inject_Z n)%Q as Hn0 by (rewrite <- (Zlt_Qlt 0); lia).
  destruct (Qlt_le_dec 0 q) as [Hpos|Hle0].
  - rewrite (b64_nearest53 q Hpos). apply nearest53_le; [done| |done].
    destruct (exponent_spec q Hpos) as [Hlo _].
    assert (2 ^ exponent q < 2 ^ (53 + k))%Q as Hpow.
    { rewrite (Qpower_plus 2 53 k) by done. rewrite <- (Zpower_Qpower 2 53) by lia.
      assert (inject_Z n < inject_Z (2 ^ 53))%Q as Hn53 by (rewrite <- Zlt_Qlt; lia).
      nra. }
    apply Qpower_lt_compat_l_inv in Hpow; [lia|done].
  - assert (q == 0)%Q as H0 by lra. rewrite (b64_zero q H0). nra.
Qed.

Lemma b64_nonneg (q : Q) : (0 <= q)%Q → (0 <= b64 q)%Q.
Proof.
  intros Hq. destruct (Qlt_le_dec 0 q) as [Hpos|Hle0].
  - rewrite (b64_nearest53 q Hpos).
    pose proof (nearest53_ge q 0 (exponent q - 52) Hpos ltac:(lia)) as H.
    change (inject_Z 0) with 0%Q in H. lra.
  - assert (q == 0)%Q as H0 by lra. by rewrite (b64_zero q H0).
Qed.

Lemma b64_ge (q : Q) (n k : Z) :
  0 < n <= 2 ^ 53 → (inject_Z n * 2 ^ k <= q)%Q → (inject_Z n * 2 ^ k <= b64 q)%Q.
Proof.
  intros Hn Hle. pose proof (two_power_pos k) as Hk.
  assert (0 < inject_Z n)%Q as Hn0 by (rewrite <- (Zlt_Qlt 0); lia).
  assert (0 < q)%Q as Hpos by nra.
  rewrite (b64_nearest53 q Hpos).
  destruct (Z.le_gt_cases (exponent q - 52) k) as [Hek|Hek].
  - by apply nearest53_ge.
  - (* the exact value is above every double of exponent k *)
    pose proof (nearest53_ge q (2 ^ 52) (exponent q - 52) Hpos ltac:(lia)) as H.
    destruct (exponent_spec q Hpos) as [Hlo _].
    assert (2 ^ exponent q == inject_Z (2 ^ 52) * 2 ^ (exponent q - 52))%Q as Hsplit.
    { rewrite Zpower_Qpower by lia. rewrite <- Qpower_plus by done.
      by replace (52 + (exponent q - 52)) with (exponent q) by lia. }
    rewrite <- Hsplit in H. specialize (H Hlo).
    assert (2 ^ (53 + k) <= 2 ^ exponent q)%Q as Hpow
      by (apply Qpower_le_compat_l; [lia|done]).
    rewrite (Qpower_plus 2 53 k) in Hpow by done.
    rewrite <- (Zpower_Qpower 2 53) in Hpow by lia.
    assert (inject_Z n <= inject_Z (2 ^ 53))%Q as Hn53 by (rewrite <- Zle_Qle; lia).
    nra.
Qed.

Lemma b64_le_int (q : Q) (n : Z) :
  0 < n < 2 ^ 53 → (0 <= q <= inject_Z n)%Q → (b64 q <= inject_Z n)%Q.
Proof.
  intros Hn [Hq0 Hq1]. pose proof (b64_le q n 0 Hn) as H.
  change (2 ^ 0)%Q with 1%Q in H. rewrite Qmult_1_r in H. by apply H.
Qed.

Lemma b64_ge_int (q : Q) (n : Z) :
  0 < n <= 2 ^ 53 → (inject_Z n <= q)%Q → (inject_Z n <= b64 q)%Q.
Proof.
  intros Hn Hq. pose proof (b64_ge q n 0 Hn) as H.
  change (2 ^ 0)%Q with 1%Q in H. rewrite Qmult_1_r in H. by apply H.
Qed.

Lemma ratio_bounds (r t : Z) :
  0 <= r <= t → 0 < t → (0 <= inject_Z r / inject_Z t <= 1)%Q.
Proof.
  intros Hr Ht.
  assert (0 < inject_Z t)%Q as Ht' by (rewrite <- (Zlt_Qlt 0); lia).
  assert (0 <= inject_Z r <= inject_Z t)%Q as [Hr1 Hr2]
    by (split; [rewrite <- (Zle_Qle 0)|rewrite <- Zle_Qle]; lia).
  split.
  - apply Qle_shift_div_l; [done|lra].
  - apply Qle_shift_div_r; [done|lra].
Qed.

Lemma percent_bounds (r t : Z) :
  0 <= r <= t → 0 < t → (0 <= b64 (b64 (inject_Z r / inject_Z t) * 100) <= 100)%Q.
Proof.
  intros Hr Ht.
  destruct (ratio_bounds r t Hr Ht) as [Hq0 Hq1].
  pose proof (b64_nonneg _ Hq0) as Hx0.
  pose proof (b64_le_int _ 1 ltac:(lia) (conj Hq0 Hq1)) as Hx1.
  change (inject_Z 1) with 1%Q in Hx1.
  split; [apply b64_nonneg; lra|].
  apply (b64_le_int _ 100); [lia|]. change (inject_Z 100) with 100%Q. lra.
Qed.

Lemma percent_error (r t : Z) :
  0 <= r <= t → 0 < t →
  (Qabs (b64 (b64 (inject_Z r / inject_Z t) * 100) - 100 * inject_Z r / inject_Z t)
   <= (100 * inject_Z r / inject_Z t) * (1 # 2 ^ 51))%Q.
Proof.
  intros Hr Ht.
  destruct (ratio_bounds r t Hr Ht) as [Hq0 Hq1].
  assert (100 * inject_Z r / inject_Z t == 100 * (inject_Z r / inject_Z t))%Q as ->.
  { field. intros H0. unfold Qeq in H0; cbn in H0. lia. }
  set (q := (inject_Z r / inject_Z t)%Q) in *.
  pose proof (b64_error q Hq0) as H1. pose proof (b64_nonneg q Hq0) as Hx0.
  set (x := b64 q) in *.
  assert (0 <= x * 100)%Q as Hy0 by lra.
  pose proof (b64_error (x * 100) Hy0) as H2.
  set (p := b64 (x * 100)) in *.
  apply Qabs_Qle_condition in H1, H2. apply Qabs_Qle_condition.
  change (1 # 2 ^ 53)%Q with (1 # 9007199254740992)%Q in *.
  change (1 # 2 ^ 51)%Q with (1 # 2251799813685248)%Q.
  split; nra.
Qed.

Lemma percent_all (t : Z) :
  0 < t → (b64 (b64 (inject_Z t / inject_Z t) * 100) == 100)%Q.
Proof.
  intros Ht.
  assert (inject_Z t / inject_Z t == 1)%Q as Hq.
  { field. intros H0. unfold Qeq in H0; cbn in H0. lia. }
  assert (b64 (inject_Z t / inject_Z t) == 1)%Q as Hx.
  { apply Qle_antisym.
    - apply (b64_le_int _ 1); [lia|]. change (inject_Z 1) with 1%Q. lra.
    - apply (b64_ge_int _ 1); [lia|]. change (inject_Z 1) with 1%Q. lra. }
  apply Qle_antisym.
  - apply (b64_le_int _ 100); [lia|]. change (inject_Z 100) with 100%Q. lra.
  - apply (b64_ge_int _ 100); [lia|]. change (inject_Z 100) with 100%Q. lra.
Qed.

Lemma percent_none (t : Z) : b64 (b64 (inject_Z 0 / inject_Z t) * 100) = 0%Q.
Proof. reflexivity. Qed.

(** The fraction handed to the progress bar: the double [p / 100]. *)
Lemma fraction_bounds (p : Q) : (0 <= p <= 100)%Q → (0 <= b64 (p / 100) <= 1)%Q.
Proof.
  intros [Hp0 Hp1].
  assert (0 <= p / 100 <= 1)%Q as [Hq0 Hq1].
  { split; [apply Qle_shift_div_l|apply Qle_shift_div_r]; lra. }
  split; [by apply b64_nonneg|].
  apply (b64_le_int _ 1); [lia|]. change (inject_Z 1) with 1%Q. lra.
Qed.

(** The fraction differs from read over total by three roundings. *)
Lemma fraction_error (r t : Z) :
  0 <= r <= t → 0 < t →
  (Qabs (b64 (b64 (b64 (inject_Z r / inject_Z t) * 100) / 100) - inject_Z r / inject_Z t)
   <= inject_Z r / inject_Z t * (1 # 2 ^ 50))%Q.
Proof.
  intros Hr Ht.
  destruct (ratio_bounds r t Hr Ht) as [Hq0 Hq1].
  set (q := (inject_Z r / inject_Z t)%Q) in *.
  pose proof (b64_error q Hq0) as H1. pose proof (b64_nonneg q Hq0) as Hx0.
  set (x := b64 q) in *.
  assert (0 <= x * 100)%Q as Hy0 by lra.
  pose proof (b64_error (x * 100) Hy0) as H2. pose proof (b64_nonneg _ Hy0) as Hp0.
  set (p := b64 (x * 100)) in *.
  assert (0 <= p / 100)%Q as Hz0 by (apply Qle_shift_div_l; lra).
  pose proof (b64_error (p / 100) Hz0) as H3.
  assert (p / 100 * 100 == p)%Q as Hz by (field; done).
  set (z := (p / 100)%Q) in *. set (f := b64 z) in *.
  apply Qabs_Qle_condition in H1, H2, H3. apply Qabs_Qle_condition.
  change (1 # 2 ^ 53)%Q with (1 # 9007199254740992)%Q in *.
  change (1 # 2 ^ 50)%Q with (1 # 1125899906842624)%Q.
  assert (z <= q * (1 + (3 # 9007199254740992)))%Q by nra.
  assert (q * (1 - (3 # 9007199254740992)) <= z)%Q by nra.
  split; nra.
Qed.

(** ** Statistics *)

(** C2: on every catalog [get_statistics] returns the number of records as
    total, the number of records whose read flag is set as read, their
    difference as unread, and as percentage the integer 0 when there is no
    record and otherwise the float of [(read / total) * 100]: it differs
    from 100 times read over total by at most the fraction 2^-51 of it,
    lies between 0 and 100, and is 100 when every record is read and 0
    when none is.  The empty catalog gives total 0, read 0, unread 0,
    percentage 0 and no exception. *)
Theorem get_statistics_counts (books : list Book.t) :
  (∃ st,
     get_statistics (manager_of books) = Ok st
     ∧ Stats.total st = Z.of_nat (length books)
     ∧ Stats.read st = Z.of_nat (length (List.filter Book.read books))
     ∧ Stats.unread st = Stats.total st - Stats.read st
     ∧ (0 < Stats.total st →
          ∃ p,
            Stats.percentage st = NFloat p
            ∧ p = b64 (b64 (inject_Z (Stats.read st) / inject_Z (Stats.total st)) * 100)
            ∧ (Qabs (p - 100 * inject_Z (Stats.read st) / inject_Z (Stats.total st))
               <= 100 * inject_Z (Stats.read st) / inject_Z (Stats.total st)
                  * (1 # 2 ^ 51))%Q
            ∧ (0 <= p <= 100)%Q
            ∧ (Stats.read st = Stats.total st → (p == 100)%Q)
            ∧ (Stats.read st = 0 → p = 0%Q))
     ∧ (Stats.total st = 0 → Stats.percentage st = NInt 0))
  ∧ get_statistics (manager_of [])
      = Ok {| Stats.total := 0; Stats.read := 0; Stats.unread := 0;
              Stats.percentage := NInt 0 |}.
Proof.
  split; [|reflexivity].
  unfold get_statistics. cbn [library manager_of]. rewrite len_catalog.
  unfold of_catalog. cbn [mbind result_bind py_iter].
  rewrite (count_if_books _ Book.read) by (intros b; reflexivity).
  eexists. split; [reflexivity|].
  cbn [Stats.total Stats.read Stats.unread Stats.percentage].
  pose proof (filter_length Book.read books) as Hfilter.
  set (r := Z.of_nat (length (List.filter Book.read books))) in *.
  set (t := Z.of_nat (length books)) in *.
  assert (0 ≤ r ≤ t) as Hr by lia.
  split_and!; try done.
  - intros Hpos. destruct (Z.ltb_spec 0 t) as [_|?]; [|lia].
    eexists. split; [reflexivity|]. split; [done|].
    split; [by apply percent_error|]. split; [by apply percent_bounds|]. split.
    + intros ->. by apply percent_all.
    + intros ->. apply percent_none.
  - intros H0. by rewrite H0.
Qed.

(** ** Searching *)

Lemma startswith_spec (p s : string) :
  startswith p s = true ↔ ∃ post, s = (p ++ post)%string.
Proof.
  revert s. induction p as [|a p IH]; intros s; simpl.
  - split; [intros _; by exists s | done].
  - destruct s as [|b s].
    + split; [done | intros [post [=]]].
    + rewrite andb_true_iff, Ascii.eqb_eq, IH. split.
      * intros [-> [post ->]]. by exists post.
      * intros [post [= -> ->]]. eauto.
Qed.

Lemma str_in_spec (needle hay : string) :
  str_in needle hay = true ↔ ∃ pre post, hay = (pre ++ needle ++ post)%string.
Proof.
  induction hay as [|c hay IH]; simpl; rewrite orb_true_iff, startswith_spec.
  - split.
    + intros [[post ->]|[=]]. by exists EmptyString, post.
    + intros [[|? pre] [post H]]; [left; by exists post | done].
  - rewrite IH. split.
    + intros [[post ->]|(pre & post & ->)].
      * by exists EmptyString, post.
      * by exists (String c pre), post.
    + intros [[|c' pre] [post H]].
      * left. by exists post.
      * right. injection H as -> ->. by exists pre, post.
Qed.

(** Every character is one of the 256. *)
Lemma all_ascii (P : ascii → bool) :
  forallb P (ascii_of_nat <$> seq 0 256) = true → ∀ c, P c = true.
Proof.
  intros Hall c. rewrite forallb_forall in Hall. apply Hall.
  rewrite <- (ascii_nat_embedding c). apply in_map, in_seq.
  pose proof (nat_ascii_bounded c). lia.
Qed.

(** Two characters are the same letter exactly when [str.lower] makes
    them equal. *)
Lemma same_letter_lower (a b : ascii) :
  same_letter a b = Ascii.eqb (lower_char a) (lower_char b).
Proof.
  pose proof (all_ascii
    (λ a, forallb (λ b, Bool.eqb (same_letter a b)
                                 (Ascii.eqb (lower_char a) (lower_char b)))
            (ascii_of_nat <$> seq 0 256))) as Hall.
  specialize (Hall ltac:(vm_compute; reflexivity) a). cbv beta in Hall.
  rewrite forallb_forall in Hall. apply Bool.eqb_prop, Hall.
  rewrite <- (ascii_nat_embedding b). apply in_map, in_seq.
  pose proof (nat_ascii_bounded b). lia.
Qed.

Lemma same_letters_lower (s t : string) :
  same_letters s t = true ↔ lower s = lower t.
Proof.
  revert t. induction s as [|a s IH]; intros [|b t]; cbn [same_letters lower]; try done.
  rewrite andb_true_iff, same_letter_lower, Ascii.eqb_eq, IH. split.
  - by intros [-> ->].
  - by intros [= -> ->].
Qed.

Lemma lower_app (s t : string) : lower (s ++ t) = (lower s ++ lower t)%string.
Proof.
  induction s as [|a s IH]; [done|].
  change (lower (String a (s ++ t)) = String (lower_char a) (lower s ++ lower t))%string.
  cbn [lower]. by rewrite IH.
Qed.

Lemma lower_split (s x y : string) :
  lower s = (x ++ y)%string → ∃ s1 s2, s = (s1 ++ s2)%string ∧ lower s1 = x ∧ lower s2 = y.
Proof.
  revert s. induction x as [|c x IH]; intros s H.
  - by exists EmptyString, s.
  - destruct s as [|a s]; [done|].
    change (String (lower_char a) (lower s) = String c (x ++ y))%string in H.
    injection H as <- H. destruct (IH s H) as (s1 & s2 & -> & <- & <-).
    by exists (String a s1), s2.
Qed.

(** The test of the searches is the occurrence of the query, letter case
    ignored. *)
Lemma ci_substring_lower (q t : string) :
  str_in (lower q) (lower t) = true ↔ ci_substring q t.
Proof.
  rewrite str_in_spec. unfold ci_substring. split.
  - intros (pre' & post' & H).
    destruct (lower_split _ _ _ H) as (pre & rest & -> & _ & Hrest).
    destruct (lower_split _ _ _ Hrest) as (mid & post & -> & Hmid & _).
    exists pre, mid, post. split; [done|]. by apply same_letters_lower.
  - intros (pre & mid & post & -> & Hsame). apply same_letters_lower in Hsame.
    exists (lower pre), (lower post). by rewrite !lower_app, Hsame.
Qed.

(** On 8-bit text [str.lower] on code points is the character-wise one. *)
Lemma to_lower_char (c : ascii) : to_lower (N_of_ascii c) = N_of_ascii (lower_char c).
Proof. by destruct c as [[] [] [] [] [] [] [] []]. Qed.

Lemma code_tabulated (c : ascii) : tabulated (N_of_ascii c) = true.
Proof. by destruct c as [[] [] [] [] [] [] [] []]. Qed.

Lemma code_not_sigma (c : ascii) : (N_of_ascii c =? 931)%N = false.
Proof. by destruct c as [[] [] [] [] [] [] [] []]. Qed.

Lemma lower_from_codes (s : string) (before : list N) :
  lower_from before (codes s) = codes (lower s).
Proof.
  revert before. induction s as [|c s IH]; intros before; [done|].
  unfold codes in *. cbn [list_ascii_of_string lower fmap list_fmap lower_from].
  by rewrite code_not_sigma, to_lower_char, IH.
Qed.

(** On a string of 8-bit characters the lower case of the text is the
    character-wise [lower]. *)
Lemma text_lower_codes (s : string) : text_lower (codes s) = Some (codes (lower s)).
Proof.
  unfold text_lower.
  assert (forallb tabulated (codes s) = true) as ->.
  { unfold codes. induction s as [|c s IH]; [done|].
    cbn [list_ascii_of_string fmap list_fmap forallb]. by rewrite code_tabulated, IH. }
  by rewrite lower_from_codes.
Qed.

Lemma text_startswith_codes (p s : string) :
  text_startswith (codes p) (codes s) = startswith p s.
Proof.
  revert s. induction p as [|a p IH]; intros [|b s]; try done.
  unfold codes in *. cbn [list_ascii_of_string fmap list_fmap text_startswith startswith].
  rewrite IH. f_equal.
  destruct (Ascii.eqb_spec a b) as [->|Hne]; [apply N.eqb_refl|].
  apply N.eqb_neq. intros H. apply Hne.
  by rewrite <- (ascii_N_embedding a), <- (ascii_N_embedding b), H.
Qed.

Lemma text_in_codes (needle hay : string) :
  text_in (codes needle) (codes hay) = str_in needle hay.
Proof.
  induction hay as [|c hay IH].
  - unfold codes. cbn [list_ascii_of_string fmap list_fmap text_in str_in].
    f_equal. apply (text_startswith_codes needle EmptyString).
  - cbn [str_in]. rewrite <- IH, <- text_startswith_codes. reflexivity.
Qed.

Lemma lower_in_codes (query field : string) :
  lower_in (codes query) (codes field) = Some (str_in (lower query) (lower field)).
Proof.
  unfold lower_in. rewrite !text_lower_codes. cbn. by rewrite text_in_codes.
Qed.

Lemma search_books (field : string) (get : Book.t → string) (books : list Book.t)
    (q : string) :
  (∀ b, py_getitem (of_book b) field = Ok (VStr (get b))) →
  (items ← py_iter (library (manager_of books));
   comprehension
     (λ book, t ← py_getitem book field; h ← py_lower t; Ok (str_in (lower q) h))
     items)
  = Ok (of_book <$> List.filter (λ b, str_in (lower q) (lower (get b))) books).
Proof.
  intros Hget. cbn [library manager_of of_catalog py_iter mbind result_bind].
  apply comprehension_books. intros b. by rewrite Hget.
Qed.



(** ** Filtering by genre *)

(** C6: [filter_by_genre] with the marker ["All Genres"] returns the whole
    catalog in its order; with any other genre it returns, in the order of
    the catalog, exactly the records whose genre is that very string. *)
Theorem filter_by_genre_exact (books : list Book.t) (g : string) :
  filter_by_genre (manager_of books) "All Genres" = Ok (of_catalog books)
  ∧ (g ≠ "All Genres" →
     filter_by_genre (manager_of books) g
       = Ok (of_catalog (filter (λ b, Book.genre b = g) books))).
Proof.
  split; [reflexivity|]. intros Hg.
  unfold filter_by_genre. rewrite (proj2 (String.eqb_neq _ _) Hg).
  cbn [library manager_of of_catalog py_iter mbind result_bind].
  rewrite (comprehension_books _ (λ b, String.eqb (Book.genre b) g)).
  2:{ intros b. reflexivity. }
  cbn. unfold of_catalog. do 3 f_equal.
  induction books as [|b books IH]; [done|].
  simpl. rewrite filter_cons. destruct (String.eqb_spec (Book.genre b) g).
  - rewrite decide_True by done. by f_equal.
  - by rewrite decide_False by done.
Qed.

(** ** The genres of a catalog *)

Lemma py_set_add_str (g : string) (ss : list string) :
  py_set_add (VStr g) (VStr <$> ss)
    = VStr <$> (if decide (g ∈ ss) then ss else ss ++ [g]).
Proof.
  induction ss as [|a ss IH]; [done|].
  rewrite fmap_cons. cbn [py_set_add hash_eq].
  destruct (String.eqb_spec a g) as [->|Hne].
  - by rewrite decide_True by apply list_elem_of_here.
  - rewrite IH. destruct (decide (g ∈ ss)) as [Hin|Hin].
    + by rewrite decide_True by (by apply list_elem_of_further).
    + rewrite decide_False; [done|].
      intros [?|?]%elem_of_cons; congruence.
Qed.

Lemma genre_set_books (books : list Book.t) (ss : list string) :
  NoDup ss →
  ∃ ss', genre_set (of_book <$> books) (VStr <$> ss) = Ok (VStr <$> ss')
         ∧ NoDup ss'
         ∧ ∀ g, g ∈ ss' ↔ g ∈ ss ∨ ∃ b, b ∈ books ∧ Book.genre b = g.
Proof.
  revert ss. induction books as [|b books IH]; intros ss Hnd.
  - exists ss. split_and!; [done..|].
    intros g. split; [auto|]. intros [?|(b & Hb & _)]; [done|].
    by apply elem_of_nil in Hb.
  - rewrite fmap_cons. cbn [genre_set]. rewrite getitem_genre.
    cbn [mbind result_bind hashable]. rewrite py_set_add_str.
    destruct (decide (Book.genre b ∈ ss)) as [Hin|Hin].
    + destruct (IH ss Hnd) as (ss' & -> & Hnd' & Hiff).
      exists ss'. split_and!; [done..|].
      intros g. rewrite Hiff. split.
      * intros [?|(b' & ? & ?)]; [by left|].
        right. exists b'. split; [by apply list_elem_of_further|done].
      * intros [?|(b' & [->|?]%elem_of_cons & <-)]; [by left|by left|].
        right. by exists b'.
    + destruct (IH (ss ++ [Book.genre b])) as (ss' & -> & Hnd' & Hiff).
      { apply NoDup_app. split_and!; [done| |apply NoDup_singleton].
        intros x Hx ->%list_elem_of_singleton. done. }
      exists ss'. split_and!; [done..|].
      intros g. rewrite Hiff, elem_of_app, list_elem_of_singleton. split.
      * intros [[?| ->]|(b' & ? & ?)]; [by left| |].
        -- right. exists b. split; [apply list_elem_of_here|done].
        -- right. exists b'. split; [by apply list_elem_of_further|done].
      * intros [?|(b' & [->|?]%elem_of_cons & <-)]; [by left; left|by left; right|].
        right. by exists b'.
Qed.

Lemma mapM_as_string (ss : list string) : mapM as_string (VStr <$> ss) = Some ss.
Proof.
  apply mapM_Some. induction ss; constructor; done.
Qed.

Lemma py_sorted_strings (ss : list string) :
  py_sorted (VStr <$> ss) = Ok (VStr <$> merge_sort String.le ss).
Proof.
  destruct ss as [|a [|b ss]]; [done..|].
  unfold py_sorted. rewrite !fmap_cons, <- !fmap_cons.
  by rewrite mapM_as_string.
Qed.

Lemma str_le_lt (a b : string) : String.le a b → a ≠ b → str_lt a b.
Proof.
  unfold String.le, String.leb, str_lt. intros Hle Hne.
  destruct (String.compare a b) eqn:Hc; [|done|done].
  by apply String.compare_eq_iff in Hc.
Qed.

Lemma StronglySorted_strict (ss : list string) :
  StronglySorted String.le ss → NoDup ss → StronglySorted str_lt ss.
Proof.
  induction 1 as [|a ss Hs IH Hall]; intros Hnd; [constructor|].
  apply NoDup_cons in Hnd as [Hnotin Hnd]. constructor; [auto|].
  rewrite Forall_forall in *. intros x Hx.
  apply str_le_lt; [auto|]. intros ->. done.
Qed.

(** C7: [get_all_genres] returns the genres that occur in the catalog,
    each once, in ascending lexicographic order: a genre is in the result
    exactly when some record has it. *)
Theorem get_all_genres_sorted_distinct (books : list Book.t) :
  ∃ gs : list string,
    get_all_genres (manager_of books) = Ok (VStr <$> gs)
    ∧ StronglySorted str_lt gs
    ∧ NoDup gs
    ∧ ∀ g, g ∈ gs ↔ ∃ b, b ∈ books ∧ Book.genre b = g.
Proof.
  destruct (genre_set_books books []) as (ss & Hset & Hnd & Hiff);
    [apply NoDup_nil_2|].
  exists (merge_sort String.le ss).
  assert (merge_sort String.le ss ≡ₚ ss) as Hperm by apply merge_sort_Permutation.
  assert (NoDup (merge_sort String.le ss)) as Hnd' by (by rewrite Hperm).
  split_and!.
  - unfold get_all_genres.
    cbn [library manager_of of_catalog py_iter mbind result_bind].
    change (@nil value) with (VStr <$> @nil string). rewrite Hset.
    cbn [mbind result_bind]. apply py_sorted_strings.
  - apply StronglySorted_strict; [|done].
    apply StronglySorted_merge_sort; apply _.
  - done.
  - intros g. rewrite Hperm, Hiff. split; [|auto].
    intros [Hg|?]; [|done]. by apply elem_of_nil in Hg.
Qed.

(** ** Numerals *)

Lemma scan_digits_uint (u : Decimal.uint) (rest : list ascii) :
  match rest with [] => True | c :: _ => is_digit c = false end →
  scan_digits (uint_chars u ++ rest) = (u, rest).
Proof.
  intros Hrest. induction u; cbn [uint_chars app scan_digits];
    try (cbn [char_digit Ascii.eqb]; cbn; by rewrite IHu).
  destruct rest as [|c rest]; [done|]. cbn [scan_digits].
  unfold is_digit in Hrest. by destruct (char_digit c).
Qed.

Lemma nzhead_not_D0 (u : Decimal.uint) :
  match Decimal.nzhead u with Decimal.D0 _ => False | _ => True end.
Proof. induction u; simpl; done. Qed.

(** The numeral of a positive number starts with a digit other than 0. *)
Lemma pos_to_uint_head (p : positive) :
  ∃ c r, uint_chars (Pos.to_uint p) = c :: r
         ∧ is_digit c = true ∧ Ascii.eqb c "0" = false.
Proof.
  pose proof (DecimalPos.Unsigned.to_of (Pos.to_uint p)) as Hnorm.
  rewrite DecimalPos.Unsigned.of_to in Hnorm. cbn [N.to_uint] in Hnorm.
  pose proof (DecimalPos.Unsigned.to_uint_nonzero p) as Hnz.
  pose proof (nzhead_not_D0 (Pos.to_uint p)) as Hhd.
  unfold Decimal.unorm in Hnorm.
  destruct (Decimal.nzhead (Pos.to_uint p)) eqn:E;
    try done; rewrite Hnorm; cbn [uint_chars]; eauto.
Qed.

Lemma scan_integer_nat (n : N) (rest : list ascii) :
  match rest with [] => True | c :: _ => is_digit c = false end →
  scan_integer (nat_chars n ++ rest) = Some (N.to_uint n, rest).
Proof.
  intros Hrest. destruct n as [|p]; [done|].
  unfold nat_chars. cbn [N.to_uint].
  destruct (pos_to_uint_head p) as (c & r & Hcr & Hd & H0).
  pose proof (scan_digits_uint (Pos.to_uint p) rest Hrest) as Hscan.
  rewrite Hcr in *. cbn [app scan_integer] in *. by rewrite H0, Hd, Hscan.
Qed.

Lemma ends_number_digit (rest : list ascii) :
  ends_number rest = true →
  match rest with [] => True | c :: _ => is_digit c = false end.
Proof.
  destruct rest as [|c rest]; [done|]. cbn. by destruct (is_digit c).
Qed.

Lemma ends_number_float_tail (rest : list ascii) :
  ends_number rest = true → float_tail rest = false.
Proof.
  destruct rest as [|c [|d rest]]; [done| done |].
  cbn. destruct (is_digit c); [done|].
  destruct (Ascii.eqb c "."); [done|].
  destruct (Ascii.eqb c "e"); [done|]. by destruct (Ascii.eqb c "E").
Qed.

Lemma parse_number_int (n : Z) (rest : list ascii) :
  ends_number rest = true →
  parse_number (int_chars n ++ rest) = Parsed (VInt n, rest).
Proof.
  intros Hrest.
  pose proof (ends_number_digit rest Hrest) as Hd.
  pose proof (ends_number_float_tail rest Hrest) as Hf.
  assert (∀ m, parse_number (nat_chars m ++ rest) = Parsed (VInt (Z.of_N m), rest)) as Hnat.
  { intros m. unfold parse_number.
    assert (match nat_chars m ++ rest with
            | c :: r => if Ascii.eqb c "-" then (true, r) else (false, nat_chars m ++ rest)
            | [] => (false, nat_chars m ++ rest)
            end = (false, nat_chars m ++ rest)) as ->.
    { destruct m as [|p]; [done|]. unfold nat_chars. cbn [N.to_uint].
      destruct (pos_to_uint_head p) as (c & r & -> & Hc & _). cbn [app].
      destruct (Ascii.eqb_spec c "-") as [->|]; done. }
    rewrite scan_integer_nat, Hf by done.
    by rewrite DecimalN.Unsigned.of_to. }
  destruct n as [|p|p].
  - apply (Hnat 0%N).
  - apply (Hnat (Npos p)).
  - change (int_chars (Z.neg p) ++ rest)
      with ("-"%char :: (nat_chars (Npos p) ++ rest)).
    change (parse_number ("-"%char :: (nat_chars (Npos p) ++ rest)))
      with (match scan_integer (nat_chars (Npos p) ++ rest) with
            | Some (u, r) =>
                if float_tail r then Outside
                else Parsed (VInt (- Z.of_N (N.of_uint u)), r)
            | None =>
                if true && bool_decide (is_Some (strip_prefix (chars "Infinity")
                                                   (nat_chars (Npos p) ++ rest)))
                then Outside else Malformed
            end).
    rewrite scan_integer_nat, Hf by done.
    by rewrite DecimalN.Unsigned.of_to.
Qed.

(** ** Strings *)

Lemma scan_string_escape (c : ascii) (tail : list ascii) :
  scan_string (escape_char c ++ tail)
    = '(t, r) ← scan_string tail; Parsed (String c t, r).
Proof.
  destruct c as [[] [] [] [] [] [] [] []]; reflexivity.
Qed.

Lemma scan_string_encoded (s : string) (rest : list ascii) :
  scan_string (flat_map escape_char (chars s) ++ quote :: rest) = Parsed (s, rest).
Proof.
  induction s as [|c s IH]; [done|].
  cbn [chars list_ascii_of_string flat_map]. rewrite <- app_assoc.
  rewrite scan_string_escape. unfold chars in IH. by rewrite IH.
Qed.

Lemma encode_string_app (s : string) (rest : list ascii) :
  encode_string s ++ rest
    = quote :: flat_map escape_char (chars s) ++ quote :: rest.
Proof. unfold encode_string. by rewrite <- app_comm_cons, <- app_assoc. Qed.

(** ** White space *)

Lemma skip_ws_newline_indent (level : nat) (s : list ascii) :
  skip_ws (newline_indent level ++ s) = skip_ws s.
Proof.
  unfold newline_indent. generalize (4 * level)%nat as n. intros n.
  change (skip_ws (replicate n " "%char ++ s) = skip_ws s).
  induction n as [|n IH]; [done|]. exact IH.
Qed.

Lemma skip_ws_starts (c : ascii) (r : list ascii) :
  is_ws c = false → skip_ws (c :: r) = c :: r.
Proof. intros H. cbn. by rewrite H. Qed.

Lemma starts_value_not_ws (c : ascii) : starts_value c = true → is_ws c = false.
Proof.
  destruct c as [[] [] [] [] [] [] [] []]; cbn; done.
Qed.

Lemma starts_value_not_close (c : ascii) :
  starts_value c = true → Ascii.eqb c "]" = false ∧ Ascii.eqb c "}" = false.
Proof.
  destruct c as [[] [] [] [] [] [] [] []]; cbn; done.
Qed.

(** ** Decoding the text of the encoder *)

Lemma value_ind (P : value → Prop) :
  P VNone → (∀ b, P (VBool b)) → (∀ n, P (VInt n)) → (∀ s, P (VStr s)) →
  (∀ l, Forall P l → P (VList l)) →
  (∀ d, Forall (λ kv, P kv.2) d → P (VDict d)) →
  ∀ v, P v.
Proof.
  intros HNone HBool HInt HStr HList HDict. fix IH 1.
  intros [ |b|n|s|l|d]; [done..| |].
  - apply HList. induction l as [|x l IHl]; constructor; [apply IH|exact IHl].
  - apply HDict. induction d as [|[k x] d IHd]; constructor; [apply IH|exact IHd].
Qed.

Lemma int_chars_head (n : Z) :
  ∃ c r, int_chars n = c :: r ∧ (is_digit c || Ascii.eqb c "-") = true.
Proof.
  destruct n as [|p|p]; [by eexists _, _| |by eexists _, _].
  unfold int_chars, nat_chars. cbn [Z.to_N N.to_uint].
  destruct (pos_to_uint_head p) as (c & r & -> & Hc & _).
  exists c, r. by rewrite Hc.
Qed.

Lemma encode_head (level : nat) (v : value) :
  ∃ c r, encode level v = c :: r ∧ starts_value c = true.
Proof.
  destruct v as [ |[]|n|s|[|x l]|[|kx d]]; try by eexists _, _.
  destruct (int_chars_head n) as (c & r & Hcr & Hc).
  exists c, r. split; [done|]. unfold starts_value.
  apply orb_true_iff in Hc as [->| ->]; [done|]. by rewrite orb_true_r.
Qed.

Lemma skip_ws_encode (level : nat) (v : value) (tail : list ascii) :
  ∃ c r, skip_ws (encode level v ++ tail) = c :: r
         ∧ encode level v ++ tail = c :: r
         ∧ Ascii.eqb c "]" = false ∧ Ascii.eqb c "}" = false.
Proof.
  destruct (encode_head level v) as (c & r & -> & Hc).
  exists c, (r ++ tail). rewrite <- app_comm_cons.
  rewrite skip_ws_starts by by apply starts_value_not_ws.
  split_and!; [done..| |]; by apply starts_value_not_close.
Qed.

Lemma parse_value_number (fuel : nat) (c : ascii) (r : list ascii) (p : value * list ascii) :
  (is_digit c || Ascii.eqb c "-") = true →
  parse_number (c :: r) = Parsed p →
  parse_value (S fuel) (c :: r) = Parsed p.
Proof.
  intros Hc Hp.
  destruct c as [[] [] [] [] [] [] [] []]; try discriminate Hc;
    cbn [parse_value]; cbn -[parse_number]; by rewrite Hp.
Qed.

Lemma parse_value_int (fuel : nat) (n : Z) (rest : list ascii) :
  ends_number rest = true →
  parse_value (S fuel) (int_chars n ++ rest) = Parsed (VInt n, rest).
Proof.
  intros Hrest. pose proof (parse_number_int n rest Hrest) as Hp.
  destruct (int_chars_head n) as (c & r & Hcr & Hc).
  rewrite Hcr in *. rewrite <- app_comm_cons in *.
  by apply parse_value_number.
Qed.

Lemma parse_value_string (fuel : nat) (s : string) (rest : list ascii) :
  parse_value (S fuel) (encode_string s ++ rest) = Parsed (VStr s, rest).
Proof.
  rewrite encode_string_app. cbn [parse_value]. cbn [Ascii.eqb Bool.eqb andb].
  by rewrite scan_string_encoded.
Qed.

Lemma parse_value_open_list (fuel : nat) (r : list ascii) (c : ascii) (r' : list ascii) :
  skip_ws r = c :: r' → Ascii.eqb c "]" = false →
  parse_value (S fuel) ("["%char :: r) = parse_elements fuel [] (c :: r').
Proof. intros Hr Hc. cbn [parse_value]. cbn [Ascii.eqb Bool.eqb andb]. by rewrite Hr, Hc. Qed.

Lemma parse_value_open_dict (fuel : nat) (r : list ascii) (c : ascii) (r' : list ascii) :
  skip_ws r = c :: r' → Ascii.eqb c "}" = false →
  parse_value (S fuel) ("{"%char :: r) = parse_members fuel [] (c :: r').
Proof. intros Hr Hc. cbn [parse_value]. cbn [Ascii.eqb Bool.eqb andb]. by rewrite Hr, Hc. Qed.

Lemma parse_elements_unfold (fuel : nat) (acc : list value) (s : list ascii) :
  parse_elements (S fuel) acc s =
    '(v, r) ← parse_value fuel s;
    match skip_ws r with
    | [] => Malformed
    | c :: r' =>
        if Ascii.eqb c "]" then Parsed (VList (acc ++ [v]), r')
        else if Ascii.eqb c "," then parse_elements fuel (acc ++ [v]) (skip_ws r')
        else Malformed
    end.
Proof. reflexivity. Qed.

Lemma parse_members_unfold (fuel : nat) (acc : list (string * value)) (k : string)
    (r : list ascii) :
  parse_members (S fuel) acc (encode_string k ++ chars ": " ++ r) =
    '(v, r3) ← parse_value fuel (skip_ws r);
    match skip_ws r3 with
    | [] => Malformed
    | c' :: r4 =>
        if Ascii.eqb c' "}" then Parsed (VDict (dict_set k v acc), r4)
        else if Ascii.eqb c' ","
        then parse_members fuel (dict_set k v acc) (skip_ws r4)
        else Malformed
    end.
Proof.
  rewrite encode_string_app. cbn [parse_members]. cbn [Ascii.eqb Bool.eqb andb].
  rewrite scan_string_encoded. reflexivity.
Qed.

Lemma dict_set_fresh (k : string) (v : value) (acc : list (string * value)) :
  k ∉ acc.*1 → dict_set k v acc = acc ++ [(k, v)].
Proof.
  induction acc as [|[k' v'] acc IH]; [done|].
  rewrite fmap_cons, not_elem_of_cons. intros [Hne Hnotin].
  cbn [fst] in Hne. cbn [dict_set]. rewrite (proj2 (String.eqb_neq _ _) Hne).
  cbn [app]. by rewrite IH.
Qed.

(** Lists of characters put in the form [c :: ... ++ (... ++ ...)]. *)
Ltac right_assoc :=
  repeat (rewrite <- app_comm_cons || rewrite <- app_assoc).

Lemma parse_elements_encoded (level : nat) (rest : list ascii) (xs : list value) :
  ∀ (x : value) (acc : list value) (fuel : nat),
    decodes x → Forall decodes xs →
    (weight x + foldr (λ y n, S (weight y + n)) 0 xs < fuel)%nat →
    parse_elements fuel acc
      (encode (S level) x
         ++ flat_map (λ y, ","%char :: newline_indent (S level) ++ encode (S level) y) xs
         ++ newline_indent level ++ "]"%char :: rest)
    = Parsed (VList (acc ++ x :: xs), rest).
Proof.
  induction xs as [|y ys IH]; intros x acc [|fuel] Hx Hxs Hfuel; try lia.
  - rewrite parse_elements_unfold. cbn [flat_map app].
    rewrite Hx by (done || cbn in Hfuel; lia). cbn [mbind parse_bind].
    by rewrite skip_ws_newline_indent.
  - apply Forall_cons in Hxs as [Hy Hys].
    rewrite parse_elements_unfold. cbn [flat_map]. right_assoc.
    rewrite Hx by (done || cbn in Hfuel; lia). cbn [mbind parse_bind].
    rewrite skip_ws_starts by done. cbn [Ascii.eqb Bool.eqb andb].
    rewrite skip_ws_newline_indent.
    destruct (skip_ws_encode (S level) y
                (flat_map (λ y, ","%char :: newline_indent (S level) ++ encode (S level) y) ys
                   ++ newline_indent level ++ "]"%char :: rest))
      as (c & r & -> & <- & _).
    rewrite IH by (done || cbn in Hfuel; lia).
    by rewrite <- app_assoc.
Qed.

Lemma parse_members_encoded (level : nat) (rest : list ascii)
    (kxs : list (string * value)) :
  ∀ (kx : string * value) (acc : list (string * value)) (fuel : nat),
    decodes kx.2 → Forall (λ kv, decodes kv.2) kxs →
    NoDup (acc ++ kx :: kxs).*1 →
    (weight kx.2 + foldr (λ kv n, S (weight kv.2 + n)) 0 kxs < fuel)%nat →
    parse_members fuel acc
      (encode_string kx.1 ++ chars ": " ++ encode (S level) kx.2
         ++ flat_map (λ ky, ","%char :: newline_indent (S level)
                              ++ encode_string ky.1 ++ chars ": "
                              ++ encode (S level) ky.2) kxs
         ++ newline_indent level ++ "}"%char :: rest)
    = Parsed (VDict (acc ++ kx :: kxs), rest).
Proof.
  induction kxs as [|ky kys IH]; intros [k x] acc [|fuel] Hx Hxs Hnd Hfuel; try lia.
  - rewrite parse_members_unfold. cbn [flat_map app fst snd] in *.
    destruct (skip_ws_encode (S level) x (newline_indent level ++ "}"%char :: rest))
      as (c & r & -> & <- & _).
    rewrite Hx by (done || lia). cbn [mbind parse_bind].
    rewrite skip_ws_newline_indent. cbn.
    rewrite dict_set_fresh; [done|].
    rewrite fmap_app in Hnd. apply NoDup_app in Hnd as (_ & Hnd & _).
    intros Hin. apply (Hnd _ Hin). cbn. apply list_elem_of_here.
  - apply Forall_cons in Hxs as [Hy Hys].
    rewrite parse_members_unfold. cbn [flat_map fst snd] in *.
    right_assoc.
    match goal with
    | |- context [skip_ws (encode (S level) x ++ ?tail)] =>
        destruct (skip_ws_encode (S level) x tail) as (c & r & -> & <- & _)
    end.
    rewrite Hx by (done || lia). cbn [mbind parse_bind].
    rewrite skip_ws_starts by done. cbn [Ascii.eqb Bool.eqb andb].
    rewrite skip_ws_newline_indent.
    assert (k ∉ acc.*1) as Hfresh.
    { rewrite fmap_app in Hnd. apply NoDup_app in Hnd as (_ & Hnd & _).
      intros Hin. apply (Hnd _ Hin). cbn. apply list_elem_of_here. }
    rewrite dict_set_fresh by done.
    assert (∀ s, skip_ws (encode_string ky.1 ++ s) = encode_string ky.1 ++ s) as ->.
    { intros s. by rewrite encode_string_app. }
    right_assoc.
    rewrite (IH ky (acc ++ [(k, x)]) fuel Hy Hys).
    + by rewrite <- app_assoc.
    + by rewrite <- app_assoc.
    + cbn [foldr] in Hfuel. lia.
Qed.

Lemma Forall_decodes (l : list value) :
  Forall (λ v, wf v → decodes v) l → Forall wf l → Forall decodes l.
Proof. rewrite !Forall_forall. auto. Qed.

Lemma decodes_wf (v : value) : wf v → decodes v.
Proof.
  induction v as [ |b|n|s|l IH|d IH] using value_ind; intros Hwf.
  - intros level [|fuel] rest _ Hfuel; [cbn in Hfuel; lia|done].
  - intros level [|fuel] rest _ Hfuel; [cbn in Hfuel; lia|by destruct b].
  - intros level [|fuel] rest Hrest Hfuel; [cbn in Hfuel; lia|].
    by apply parse_value_int.
  - intros level [|fuel] rest _ Hfuel; [cbn in Hfuel; lia|].
    apply parse_value_string.
  - inversion Hwf as [ | | | |l' Hl| ]; subst.
    pose proof (Forall_decodes l IH Hl) as Hdec.
    intros level [|fuel] rest _ Hfuel; [cbn in Hfuel; lia|].
    destruct l as [|x xs]; [done|].
    apply Forall_cons in Hdec as [Hx Hxs].
    cbn [encode]. right_assoc.
    match goal with
    | |- context [newline_indent (S level) ++ encode (S level) x ++ ?tail] =>
        destruct (skip_ws_encode (S level) x tail) as (c & r & Hskip & Heq & Hc & _)
    end.
    erewrite parse_value_open_list;
      [|by rewrite skip_ws_newline_indent, Hskip|done].
    rewrite <- Heq. cbn [chars list_ascii_of_string app].
    apply parse_elements_encoded; [done..|]. cbn [weight foldr] in Hfuel. lia.
  - inversion Hwf as [ | | | | |d' Hnd Hd]; subst.
    assert (Forall (λ kv, decodes kv.2) d) as Hdec.
    { rewrite Forall_forall in *. auto. }
    intros level [|fuel] rest _ Hfuel; [cbn in Hfuel; lia|].
    destruct d as [|kx kxs]; [done|].
    apply Forall_cons in Hdec as [Hx Hxs].
    cbn [encode]. right_assoc.
    erewrite parse_value_open_dict;
      [|by rewrite skip_ws_newline_indent, encode_string_app|done].
    rewrite <- encode_string_app. cbn [chars list_ascii_of_string app].
    apply (parse_members_encoded level rest kxs kx []); [done..|].
    cbn [weight foldr] in Hfuel. lia.
Qed.

Lemma weight_le_length (v : value) : ∀ level, (weight v ≤ length (encode level v))%nat.
Proof.
  induction v as [ |b|n|s|l IH|d IH] using value_ind; intros level.
  - cbn; lia.
  - destruct b; cbn; lia.
  - destruct (int_chars_head n) as (c & r & Hcr & _).
    cbn [encode weight]. rewrite Hcr. cbn; lia.
  - cbn; lia.
  - destruct l as [|x xs]; [cbn; lia|].
    apply Forall_cons in IH as [Hx Hxs].
    cbn [encode weight foldr]. cbn [length]. rewrite !length_app.
    specialize (Hx (S level)).
    assert (foldr (λ y n, S (weight y + n)) 0 xs
            ≤ length (flat_map (λ y, ","%char :: newline_indent (S level)
                                       ++ encode (S level) y) xs))%nat as Hsum.
    { induction Hxs as [|y ys Hy _ IHys]; [done|].
      cbn [foldr flat_map]. rewrite length_app. cbn [length]. rewrite length_app.
      specialize (Hy (S level)). lia. }
    cbn [newline_indent length]. lia.
  - destruct d as [|kx kxs]; [cbn; lia|].
    apply Forall_cons in IH as [Hx Hxs].
    cbn [encode weight foldr]. cbn [length]. rewrite !length_app.
    specialize (Hx (S level)).
    assert (foldr (λ kv n, S (weight kv.2 + n)) 0 kxs
            ≤ length (flat_map (λ ky, ","%char :: newline_indent (S level)
                                        ++ encode_string ky.1 ++ chars ": "
                                        ++ encode (S level) ky.2) kxs))%nat as Hsum.
    { induction Hxs as [|y ys Hy _ IHys]; [done|].
      cbn [foldr flat_map]. rewrite length_app. cbn [length]. rewrite !length_app.
      specialize (Hy (S level)). lia. }
    cbn [newline_indent length]. lia.
Qed.

(** What [json.dump] writes for a value with distinct keys, [json.load]
    reads back as that value. *)
Lemma json_load_dump (v : value) : wf v → json_load (json_dump v) = Parsed v.
Proof.
  intros Hwf. unfold json_load, json_dump, chars.
  rewrite list_ascii_of_string_of_list_ascii.
  destruct (skip_ws_encode 0 v []) as (c & r & Hskip & Heq & _).
  rewrite app_nil_r in Hskip, Heq. rewrite Hskip, <- Heq.
  rewrite <- (app_nil_r (encode 0 v)) at 2.
  rewrite (decodes_wf v Hwf 0%nat _ []); [done..|].
  pose proof (weight_le_length v 0). lia.
Qed.

Lemma wf_book (b : Book.t) : wf (of_book b).
Proof.
  constructor.
  - cbn. apply (bool_decide_unpack _). by vm_compute.
  - repeat constructor.
Qed.

Lemma wf_catalog (books : list Book.t) : wf (of_catalog books).
Proof.
  constructor. apply Forall_fmap, Forall_forall. intros b _. apply wf_book.
Qed.

(** ** The decoder consumes text and never lacks fuel *)

Lemma skip_ws_length (s : list ascii) : (length (skip_ws s) ≤ length s)%nat.
Proof.
  induction s as [|c s IH]; [done|]. cbn [skip_ws].
  destruct (is_ws c); cbn [length]; lia.
Qed.

Lemma skip_ws_cons_length (s : list ascii) (c : ascii) (r : list ascii) :
  skip_ws s = c :: r → (length r < length s)%nat.
Proof.
  intros H. pose proof (skip_ws_length s) as Hl. rewrite H in Hl.
  cbn [length] in Hl. lia.
Qed.

Lemma scan_string_shorter (n : nat) :
  ∀ s t r, (length s ≤ n)%nat → scan_string s = Parsed (t, r) →
           (length r < length s)%nat.
Proof.
  induction n as [|n IH]; intros s t r Hn Hs.
  - destruct s; [done|cbn in Hn; lia].
  - destruct s as [|c s]; [done|]. cbn [scan_string] in Hs. cbn [length] in *.
    destruct (Ascii.eqb c quote).
    { injection Hs as _ <-. lia. }
    destruct (Ascii.eqb c backslash).
    + destruct s as [|e r1]; [done|]. cbn [length] in *.
      destruct (Ascii.eqb e "u").
      * destruct r1 as [|h1 [|h2 [|h3 [|h4 r2]]]]; try done.
        destruct (hex4 h1 h2 h3 h4) as [m|]; [|done].
        destruct (m <? 256)%N; [|done].
        destruct (scan_string r2) as [[t' r3]| | |] eqn:E; try done.
        cbn in Hs. injection Hs as _ <-.
        apply IH in E; cbn [length] in *; lia.
      * destruct (unescape e); [|done].
        destruct (scan_string r1) as [[t' r3]| | |] eqn:E; try done.
        cbn in Hs. injection Hs as _ <-.
        apply IH in E; cbn [length] in *; lia.
    + destruct (N_of_ascii c <? 32)%N; [done|].
      destruct (scan_string s) as [[t' r3]| | |] eqn:E; try done.
      cbn in Hs. injection Hs as _ <-.
      apply IH in E; lia.
Qed.

Lemma scan_digits_length (s : list ascii) :
  (length (scan_digits s).2 ≤ length s)%nat.
Proof.
  induction s as [|c s IH]; [done|]. cbn [scan_digits].
  destruct (char_digit c) as [d|]; [|done].
  destruct (scan_digits s) as [u r]. cbn [snd length] in *. lia.
Qed.

Lemma scan_integer_shorter (s : list ascii) (u : Decimal.uint) (r : list ascii) :
  scan_integer s = Some (u, r) → (length r < length s)%nat.
Proof.
  destruct s as [|c s]; [done|]. cbn [scan_integer length].
  destruct (Ascii.eqb c "0"); [intros [= _ <-]; lia|].
  destruct (is_digit c) eqn:Hc; [|done]. intros [= H].
  cbn [scan_digits] in H. unfold is_digit in Hc.
  destruct (char_digit c) as [d|]; [|done].
  pose proof (scan_digits_length s) as Hl.
  destruct (scan_digits s) as [u' r']. injection H as _ <-. cbn [snd] in Hl. lia.
Qed.

Lemma parse_number_shorter (s : list ascii) (v : value) (r : list ascii) :
  parse_number s = Parsed (v, r) → (length r < length s)%nat.
Proof.
  unfold parse_number.
  destruct (match s with
            | c :: r0 => if Ascii.eqb c "-" then (true, r0) else (false, s)
            | [] => (false, s)
            end) as [negative s1] eqn:Hsign.
  assert (length s1 ≤ length s)%nat as Hs1.
  { destruct s as [|c s]; [by injection Hsign as _ <-|].
    destruct (Ascii.eqb c "-"); injection Hsign as _ <-; cbn [length]; lia. }
  destruct (scan_integer s1) as [[u r']|] eqn:Hint.
  - apply scan_integer_shorter in Hint.
    destruct (float_tail r'); [done|]. intros [= _ <-]. lia.
  - by destruct (negative && _).
Qed.

Lemma strip_prefix_length (p s r : list ascii) :
  strip_prefix p s = Some r → length s = (length p + length r)%nat.
Proof.
  revert s. induction p as [|a p IH]; intros s; cbn [strip_prefix].
  - by intros [= ->].
  - destruct s as [|b s]; [done|]. destruct (Ascii.eqb a b); [|done].
    intros H%IH. cbn [length]. lia.
Qed.

Lemma literal_shorter (name : string) (v0 : value) (s : list ascii)
    (v : value) (r : list ascii) :
  name ≠ EmptyString → literal name v0 s = Some (Parsed (v, r)) →
  (length r < length s)%nat.
Proof.
  intros Hname. unfold literal.
  destruct (strip_prefix (chars name) s) as [r'|] eqn:E; [|done].
  intros [= _ <-]. apply strip_prefix_length in E.
  destruct name; [done|]. cbn [chars list_ascii_of_string length] in E. lia.
Qed.

Lemma parse_shorter (fuel : nat) :
  (∀ s v r, parse_value fuel s = Parsed (v, r) → (length r < length s)%nat)
  ∧ (∀ acc s v r, parse_elements fuel acc s = Parsed (v, r) → (length r < length s)%nat)
  ∧ (∀ acc s v r, parse_members fuel acc s = Parsed (v, r) → (length r < length s)%nat).
Proof.
  induction fuel as [|fuel (IHv & IHe & IHm)]; [done|]. split_and!.
  - intros [|c r0] v r H; [done|]. cbn [parse_value] in H. cbn [length].
    destruct (Ascii.eqb c quote).
    { destruct (scan_string r0) as [[t r1]| | |] eqn:E; try done.
      cbn in H. injection H as _ <-.
      apply (scan_string_shorter (length r0)) in E; lia. }
    destruct (Ascii.eqb c "{").
    { destruct (skip_ws r0) as [|c' r'] eqn:E; [done|].
      apply skip_ws_cons_length in E.
      destruct (Ascii.eqb c' "}"); [injection H as _ <-; lia|].
      apply IHm in H. cbn [length] in H. lia. }
    destruct (Ascii.eqb c "[").
    { destruct (skip_ws r0) as [|c' r'] eqn:E; [done|].
      apply skip_ws_cons_length in E.
      destruct (Ascii.eqb c' "]"); [injection H as _ <-; lia|].
      apply IHe in H. cbn [length] in H. lia. }
    destruct (literal "null" VNone (c :: r0)) as [p|] eqn:E1.
    { subst p. apply literal_shorter in E1; [|done]. cbn [length] in E1. lia. }
    destruct (literal "true" (VBool true) (c :: r0)) as [p|] eqn:E2.
    { subst p. apply literal_shorter in E2; [|done]. cbn [length] in E2. lia. }
    destruct (literal "false" (VBool false) (c :: r0)) as [p|] eqn:E3.
    { subst p. apply literal_shorter in E3; [|done]. cbn [length] in E3. lia. }
    destruct (parse_number (c :: r0)) as [[v' r']| | |] eqn:E4; try done.
    + injection H as _ <-. apply parse_number_shorter in E4.
      cbn [length] in E4. lia.
    + by destruct (_ || _).
  - intros acc s v r H. cbn [parse_elements] in H.
    destruct (parse_value fuel s) as [[v' r1]| | |] eqn:E; try done.
    apply IHv in E. cbn in H.
    destruct (skip_ws r1) as [|c r'] eqn:E'; [done|].
    apply skip_ws_cons_length in E'.
    destruct (Ascii.eqb c "]"); [injection H as _ <-; lia|].
    destruct (Ascii.eqb c ","); [|done].
    apply IHe in H. pose proof (skip_ws_length r'). lia.
  - intros acc [|q r0] v r H; [done|]. cbn [parse_members] in H. cbn [length].
    destruct (Ascii.eqb q quote); [|done].
    destruct (scan_string r0) as [[k r1]| | |] eqn:E; try done.
    apply (scan_string_shorter (length r0)) in E; [|lia]. cbn in H.
    destruct (skip_ws r1) as [|c r2] eqn:E1; [done|].
    apply skip_ws_cons_length in E1.
    destruct (Ascii.eqb c ":"); [|done].
    destruct (parse_value fuel (skip_ws r2)) as [[v' r3]| | |] eqn:E2; try done.
    apply IHv in E2. pose proof (skip_ws_length r2). cbn in H.
    destruct (skip_ws r3) as [|c' r4] eqn:E3; [done|].
    apply skip_ws_cons_length in E3.
    destruct (Ascii.eqb c' "}"); [injection H as _ <-; lia|].
    destruct (Ascii.eqb c' ","); [|done].
    apply IHm in H. pose proof (skip_ws_length r4). lia.
Qed.

Lemma scan_string_fuel (n : nat) :
  ∀ s, (length s ≤ n)%nat → scan_string s ≠ Exhausted.
Proof.
  induction n as [|n IH]; intros s Hn.
  - by destruct s; [|cbn in Hn; lia].
  - destruct s as [|c s]; [done|]. cbn [scan_string]. cbn [length] in Hn.
    destruct (Ascii.eqb c quote); [done|].
    destruct (Ascii.eqb c backslash).
    + destruct s as [|e r1]; [done|]. cbn [length] in Hn.
      destruct (Ascii.eqb e "u").
      * destruct r1 as [|h1 [|h2 [|h3 [|h4 r2]]]]; try done.
        destruct (hex4 h1 h2 h3 h4) as [m|]; [|done].
        destruct (m <? 256)%N; [|done].
        destruct (scan_string r2) as [[t' r3]| | |] eqn:E; try done.
        apply IH in E; [done|]. cbn [length] in Hn. lia.
      * destruct (unescape e); [|done].
        destruct (scan_string r1) as [[t' r3]| | |] eqn:E; try done.
        apply IH in E; [done|]. lia.
    + destruct (N_of_ascii c <? 32)%N; [done|].
      destruct (scan_string s) as [[t' r3]| | |] eqn:E; try done.
      apply IH in E; [done|]. lia.
Qed.

Lemma parse_number_fuel (s : list ascii) : parse_number s ≠ Exhausted.
Proof.
  unfold parse_number.
  destruct (match s with
            | c :: r0 => if Ascii.eqb c "-" then (true, r0) else (false, s)
            | [] => (false, s)
            end) as [negative s1].
  destruct (scan_integer s1) as [[u r']|].
  - by destruct (float_tail r').
  - by destruct (negative && _).
Qed.

Lemma parse_fuel (fuel : nat) :
  (∀ s, (2 * length s < fuel)%nat → parse_value fuel s ≠ Exhausted)
  ∧ (∀ acc s, (2 * length s + 1 < fuel)%nat → parse_elements fuel acc s ≠ Exhausted)
  ∧ (∀ acc s, (2 * length s < fuel)%nat → parse_members fuel acc s ≠ Exhausted).
Proof.
  induction fuel as [|fuel (IHv & IHe & IHm)]; [split_and!; intros; lia|].
  destruct (parse_shorter fuel) as (Hv & _ & _).
  split_and!.
  - intros [|c r0] Hf; [done|]. cbn [parse_value]. cbn [length] in Hf.
    destruct (Ascii.eqb c quote).
    { pose proof (scan_string_fuel (length r0) r0 (le_n _)).
      by destruct (scan_string r0) as [[t r1]| | |]. }
    destruct (Ascii.eqb c "{").
    { destruct (skip_ws r0) as [|c' r'] eqn:E; [done|].
      apply skip_ws_cons_length in E.
      destruct (Ascii.eqb c' "}"); [done|].
      apply IHm. cbn [length]. lia. }
    destruct (Ascii.eqb c "[").
    { destruct (skip_ws r0) as [|c' r'] eqn:E; [done|].
      apply skip_ws_cons_length in E.
      destruct (Ascii.eqb c' "]"); [done|].
      apply IHe. cbn [length]. lia. }
    destruct (literal "null" VNone (c :: r0)) as [p|] eqn:E1.
    { unfold literal in E1. destruct (strip_prefix _ _); by simplify_eq. }
    destruct (literal "true" (VBool true) (c :: r0)) as [p|] eqn:E2.
    { unfold literal in E2. destruct (strip_prefix _ _); by simplify_eq. }
    destruct (literal "false" (VBool false) (c :: r0)) as [p|] eqn:E3.
    { unfold literal in E3. destruct (strip_prefix _ _); by simplify_eq. }
    pose proof (parse_number_fuel (c :: r0)).
    destruct (parse_number (c :: r0)) as [[v' r']| | |]; try done.
    by destruct (_ || _).
  - intros acc s Hf. cbn [parse_elements].
    destruct (parse_value fuel s) as [[v' r1]| | |] eqn:E; try done.
    + apply Hv in E. cbn.
      destruct (skip_ws r1) as [|c r'] eqn:E'; [done|].
      apply skip_ws_cons_length in E'.
      destruct (Ascii.eqb c "]"); [done|].
      destruct (Ascii.eqb c ","); [|done].
      apply IHe. pose proof (skip_ws_length r'). lia.
    + apply IHv in E; [done|lia].
  - intros acc [|q r0] Hf; [done|]. cbn [parse_members]. cbn [length] in Hf.
    destruct (Ascii.eqb q quote); [|done].
    pose proof (scan_string_fuel (length r0) r0 (le_n _)).
    destruct (scan_string r0) as [[k r1]| | |] eqn:E; try done.
    apply (scan_string_shorter (length r0)) in E; [|lia]. cbn.
    destruct (skip_ws r1) as [|c r2] eqn:E1; [done|].
    apply skip_ws_cons_length in E1.
    destruct (Ascii.eqb c ":"); [|done].
    pose proof (skip_ws_length r2).
    destruct (parse_value fuel (skip_ws r2)) as [[v' r3]| | |] eqn:E2; try done.
    + apply Hv in E2. cbn.
      destruct (skip_ws r3) as [|c' r4] eqn:E3; [done|].
      apply skip_ws_cons_length in E3.
      destruct (Ascii.eqb c' "}"); [done|].
      destruct (Ascii.eqb c' ","); [|done].
      apply IHm. pose proof (skip_ws_length r4). lia.
    + apply IHv in E2; [done|lia].
Qed.

(** [json_load] always has fuel left: its answer is a value, [Malformed],
    or [Outside]. *)
Lemma json_load_fuel (text : string) : json_load text ≠ Exhausted.
Proof.
  unfold json_load.
  destruct (parse_fuel (S (2 * length (skip_ws (chars text))))) as (Hv & _ & _).
  specialize (Hv (skip_ws (chars text)) ltac:(lia)).
  destruct (parse_value _ _) as [[v r]| | |]; try done.
  cbn. by destruct (skip_ws r).
Qed.

(** ** Saving and loading *)

Lemma of_catalog_inj (books books' : list Book.t) :
  of_catalog books = of_catalog books' → books = books'.
Proof.
  unfold of_catalog. intros [= H]. revert books' H.
  induction books as [|b books IH]; intros [|b' books'] H; try done.
  rewrite !fmap_cons in H.
  assert (of_book b = of_book b' ∧ of_book <$> books = of_book <$> books')
    as [Hb Hrest] by (split; congruence).
  f_equal; [by apply of_book_inj|by apply IH].
Qed.

Lemma write_text_node (w w' : world) (path text : string) :
  write_text w path text = Complete w' →
  ∃ r, files w' !! path = Some (File r true text).
Proof.
  unfold write_text. intros Hw.
  destruct (files w !! path) as [[r [] old| |r old room e]|] eqn:E; try done.
  - injection Hw as <-. exists r. cbn. by rewrite lookup_insert_eq.
  - destruct (may_create w); [|done].
    injection Hw as <-. exists true. cbn. by rewrite lookup_insert_eq.
Qed.

(** The write of [save_library] fails in two ways.  The open is refused,
    on a directory, on a file without write permission, or where the file
    is absent and none can be created: the exception is [OSError] and
    nothing is touched.  Or the file opens and the write breaks: the file
    keeps the first [room] characters of the text. *)
Lemma write_text_fails (w w1 : world) (path text : string) (e : exn) :
  write_text w path text = Broken e w1 ↔
  (e = OSError ∧ w1 = w
   ∧ (files w !! path = Some Directory
      ∨ (∃ r old, files w !! path = Some (File r false old))
      ∨ (files w !! path = None ∧ may_create w = false)))
  ∨ (∃ r old room,
       files w !! path = Some (Faulty r old room e)
       ∧ w1 = with_files w (<[path := Faulty r (cut room text) room e]> (files w))).
Proof.
  unfold write_text.
  destruct (files w !! path) as [[r [] old| |r old room e0]|].
  - split; [done|]. intros [(_ & _ & [?|[(? & ? & ?)|[? _]]])|(? & ? & ? & ? & _)]; done.
  - split.
    + intros [= <- <-]. left. split_and!; [done..|]. right; left. eauto.
    + intros [(-> & -> & _)|(? & ? & ? & ? & _)]; done.
  - split.
    + intros [= <- <-]. left. split_and!; [done..|]. by left.
    + intros [(-> & -> & _)|(? & ? & ? & ? & _)]; done.
  - split.
    + intros [= <- <-]. right. by exists r, old, room.
    + intros [(_ & _ & [?|[(? & ? & ?)|[? _]]])|(? & ? & ? & [= <- <- <- <-] & ->)]; done.
  - destruct (may_create w).
    + split; [done|].
      intros [(_ & _ & [?|[(? & ? & ?)|[_ ?]]])|(? & ? & ? & ? & _)]; done.
    + split.
      * intros [= <- <-]. left. split_and!; [done..|]. by right; right.
      * intros [(-> & -> & _)|(? & ? & ? & ? & _)]; done.
Qed.

(** A store whose library has distinct keys in every dictionary comes back
    from its own file: after a successful save, in a world where the file
    can be read, the constructor builds the same store. *)
Lemma save_then_init (self self1 : LibraryManager) (w w1 : world) :
  wf (library self) → filename self = "library.txt" →
  save_library self w = (true, self1, w1) →
  (∃ text, read_text w1 "library.txt" = Ok text) →
  init w1 = Some (self, w1).
Proof.
  intros Hwf Hname Hsave [text Hread].
  unfold save_library in Hsave. rewrite Hname in Hsave.
  destruct (write_text w "library.txt" (json_dump (library self)))
    as [w'|e w'] eqn:Hw; [|done].
  injection Hsave as <- <-.
  destruct (write_text_node _ _ _ _ Hw) as [r Hnode].
  unfold init, load_library, path_exists, read_text in *.
  cbn [filename blank]. rewrite Hnode in *.
  destruct r; [|done]. rewrite json_load_dump by done.
  destruct self as [l name]. cbn in Hname. by subst.
Qed.

(** A file that does not decode leaves the store as it was: the call
    returns [False] and shows the error. *)
Lemma load_malformed_file (self : LibraryManager) (w : world) (text : string) :
  read_text w (filename self) = Ok text →
  json_load text = Malformed →
  load_library self w = Some (false, self, st_error (LoadError JSONDecodeError) w).
Proof.
  intros Hread Hload. unfold load_library, path_exists.
  unfold read_text in Hread.
  destruct (files w !! filename self) as [[[] wr t| |[] t room e]|] eqn:E; try done;
    injection Hread as ->; unfold read_text; by rewrite E, Hload.
Qed.

(** The model is silent about a load only where the document is outside
    the modelled values. *)
Lemma load_library_silent (self : LibraryManager) (w : world) :
  load_library self w = None ↔
  ∃ text, read_text w (filename self) = Ok text ∧ json_load text = Outside.
Proof.
  unfold load_library, path_exists, read_text.
  destruct (files w !! filename self) as [[[] wr t| |[] t room e]|]; cbv beta iota.
  - pose proof (json_load_fuel t).
    destruct (json_load t) eqn:E; [| | |done].
    + split; [done|]. intros (text & Ht & Hl). congruence.
    + split; [done|]. intros (text & Ht & Hl). congruence.
    + split; [|done]. intros _. by exists t.
  - split; [done|]. by intros (text & ? & _).
  - split; [done|]. by intros (text & ? & _).
  - pose proof (json_load_fuel t).
    destruct (json_load t) eqn:E; [| | |done].
    + split; [done|]. intros (text & Ht & Hl). congruence.
    + split; [done|]. intros (text & Ht & Hl). congruence.
    + split; [|done]. intros _. by exists t.
  - split; [done|]. by intros (text & ? & _).
  - split; [done|]. by intros (text & ? & _).
Qed.

(** C4: when [save_library] reports success and the file it wrote can be
    read, a newly constructed store holds exactly the saved sequence of
    records, in the same order and with every field (title, author, year,
    genre, read, date_added) as it was. *)
Theorem save_then_load_restores (books : list Book.t) (w w1 : world)
    (self1 : LibraryManager) :
  save_library (manager_of books) w = (true, self1, w1) →
  (∃ text, read_text w1 "library.txt" = Ok text) →
  init w1 = Some (manager_of books, w1)
  ∧ ∀ books', library (manager_of books) = of_catalog books' → books' = books.
Proof.
  intros Hsave Hread. split.
  - apply (save_then_init (manager_of books) self1 w); [|done..].
    apply wf_catalog.
  - intros books' H. symmetry. by apply of_catalog_inj.
Qed.

Lemma save_then_load_restores_witness :
  let w1 := (save_library (manager_of [dune; hamlet]) empty_world).2 in
  init w1 = Some (manager_of [dune; hamlet], w1).
Proof.
  apply (save_then_load_restores [dune; hamlet] empty_world _
           (manager_of [dune; hamlet])).
  - reflexivity.
  - eexists. reflexivity.
Defined.

(** C5, as the claim has it: on a missing file [load_library] would report
    success.  It does not: without [library.txt] the call returns [False]. *)
Lemma load_missing_file_returns_false :
  path_exists empty_world (filename blank) = false
  ∧ load_library blank empty_world = Some (false, blank, empty_world)
  ∧ ¬ returns_true (load_library blank empty_world).
Proof.
  split_and!; [reflexivity..|]. intros (self & w & H). discriminate H.
Qed.

(** C5, amended: when the persisted file does not exist, [load_library]
    raises nothing, shows no error and leaves the store and the world as
    they were, so that a newly constructed store is empty; the value it
    returns is [False]. *)
Theorem load_missing_file_is_silent (self : LibraryManager) (w : world) :
  path_exists w (filename self) = false →
  load_library self w = Some (false, self, w)
  ∧ (filename self = "library.txt" → init w = Some (blank, w) ∧ library blank = VList []).
Proof.
  intros Hmissing. split.
  - unfold load_library. by rewrite Hmissing.
  - intros Hname. rewrite Hname in Hmissing.
    unfold init, load_library. cbn [filename blank]. by rewrite Hmissing.
Qed.

Lemma load_missing_file_is_silent_witness :
  load_library blank empty_world = Some (false, blank, empty_world)
  ∧ (filename blank = "library.txt" →
     init empty_world = Some (blank, empty_world) ∧ library blank = VList []).
Proof.
  apply (load_missing_file_is_silent blank empty_world). reflexivity.
Defined.

(** C9: when the write fails, whether the file does not open or the write
    breaks after the file was opened, [save_library] returns [False]
    without raising, shows the error, and leaves the store, and with it
    the collection in memory, exactly as it was. *)
Theorem save_failure_keeps_memory (self : LibraryManager) (w w1 : world) (e : exn) :
  write_text w (filename self) (json_dump (library self)) = Broken e w1 →
  ∃ self' w',
    save_library self w = (false, self', w')
    ∧ self' = self
    ∧ library self' = library self
    ∧ errors w' = errors w ++ [SaveError e].
Proof.
  intros Hfail. exists self, (st_error (SaveError e) w1).
  unfold save_library. rewrite Hfail. split_and!; [done..|].
  apply write_text_fails in Hfail as [(_ & -> & _)|(r & old & room & _ & ->)]; done.
Qed.

Lemma save_failure_keeps_memory_witness :
  ∃ self' w',
    save_library (manager_of [dune]) (world_full "[]") = (false, self', w')
    ∧ self' = manager_of [dune]
    ∧ library self' = library (manager_of [dune])
    ∧ errors w' = errors (world_full "[]") ++ [SaveError OSError].
Proof.
  eapply (save_failure_keeps_memory (manager_of [dune]) (world_full "[]") _ OSError).
  reflexivity.
Defined.

(** C10: [load_library] validates nothing.  Whatever value the text of an
    existing, readable file decodes to becomes the library as it is, and the
    call returns [True]: a number, or a list whose elements lack the fields
    of a book record, as well as a catalog.  The methods that read the
    library then raise: on a number [get_statistics] and the searches raise
    [TypeError], on a list with an empty object they raise [KeyError]. *)
Theorem load_library_accepts_any_value (self : LibraryManager) (w : world)
    (text : string) (v : value) :
  read_text w (filename self) = Ok text →
  json_load text = Parsed v →
  load_library self w = Some (true, set_library self v, w)
  ∧ library (set_library self v) = v
  ∧ (∀ n q, v = VInt n →
       get_statistics (set_library self v) = Raise TypeError
       ∧ search_by_title (set_library self v) q = Raise TypeError
       ∧ search_by_author (set_library self v) q = Raise TypeError
       ∧ get_all_genres (set_library self v) = Raise TypeError)
  ∧ (∀ q, v = VList [VDict []] →
       get_statistics (set_library self v) = Raise KeyError
       ∧ search_by_title (set_library self v) q = Raise KeyError
       ∧ search_by_author (set_library self v) q = Raise KeyError
       ∧ get_all_genres (set_library self v) = Raise KeyError).
Proof.
  intros Hread Hload. split_and!.
  - unfold load_library, path_exists. unfold read_text in Hread.
    destruct (files w !! filename self) as [[[] wr t| |[] t room e]|] eqn:E; try done;
      injection Hread as ->; unfold read_text; by rewrite E, Hload.
  - done.
  - by intros n q ->.
  - by intros q ->.
Qed.

Lemma load_library_accepts_any_value_witness :
  load_library blank (world_with true true "42")
    = Some (true, set_library blank (VInt 42), world_with true true "42")
  ∧ get_statistics (set_library blank (VInt 42)) = Raise TypeError.
Proof.
  destruct (load_library_accepts_any_value blank (world_with true true "42") "42" (VInt 42))
    as (Hload & _ & Hnum & _); [reflexivity..|].
  split; [exact Hload|]. by destruct (Hnum 42 "" eq_refl).
Defined.

(** ** The scenarios of the specification, run on the model *)

Example scenario_add_then_statistics :
  let now := {| dt_year := 2024; dt_month := 5; dt_day := 17 |} in
  let self := (add_book blank now "Dune" "Herbert" 1965 "Sci-Fi" true).2 in
  library self = of_catalog [dune]
  ∧ get_statistics self
      = Ok {| Stats.total := 1; Stats.read := 1; Stats.unread := 0;
              Stats.percentage := NFloat (100 # 1) |}.
Proof. split; reflexivity. Qed.

Example scenario_genres_sorted :
  get_all_genres (manager_of [dune; hamlet; emma]) = Ok [VStr "Drama"; VStr "Sci-Fi"].
Proof. reflexivity. Qed.

Example scenario_filter_all_genres :
  filter_by_genre (manager_of [dune; hamlet; emma]) "All Genres"
    = Ok (of_catalog [dune; hamlet; emma])
  ∧ filter_by_genre (manager_of [dune; hamlet; emma]) "Drama"
    = Ok (of_catalog [hamlet; emma])
  ∧ filter_by_genre (manager_of [dune; hamlet; emma]) "drama" = Ok (of_catalog []).
Proof. split_and!; reflexivity. Qed.

Example scenario_search_mixed_case :
  search_by_title (manager_of [dune; hamlet; emma]) "dUN" = Ok [of_book dune]
  ∧ search_by_author (manager_of [dune; hamlet; emma]) "ER" = Ok [of_book dune]
  ∧ search_by_title (manager_of [dune; hamlet; emma]) "m"
    = Ok [of_book hamlet; of_book emma].
Proof. split_and!; reflexivity. Qed.

Example scenario_remove :
  remove_book (manager_of [dune; hamlet; emma]) 1
    = (Ok (true, VStr "Hamlet"), manager_of [dune; emma])
  ∧ remove_book (manager_of [dune; hamlet; emma]) 3
    = (Ok (false, VStr ""), manager_of [dune; hamlet; emma])
  ∧ remove_book (manager_of [dune; hamlet; emma]) (-1)
    = (Ok (false, VStr ""), manager_of [dune; hamlet; emma]).
Proof. split_and!; reflexivity. Qed.

Example scenario_missing_file : init empty_world = Some (blank, empty_world).
Proof. reflexivity. Qed.

Example scenario_malformed_file :
  load_library blank (world_with true true "[1,")
    = Some (false, blank,
            st_error (LoadError JSONDecodeError) (world_with true true "[1,")).
Proof. reflexivity. Qed.

Example scenario_float_is_outside :
  load_library blank (world_with true true "[1.5]") = None.
Proof. reflexivity. Qed.

Example scenario_save_then_load :
  let w := (save_library (manager_of [dune; hamlet; emma]) empty_world).2 in
  init w = Some (manager_of [dune; hamlet; emma], w).
Proof. vm_compute. reflexivity. Qed.

Example scenario_date : 
  strftime_ymd {| dt_year := 2024; dt_month := 5; dt_day := 7 |} = "2024-05-07".
Proof. reflexivity. Qed.

(** * Further properties of the store *)

(** ** Removal and insertion on any list *)

(** X1: on a library that is a list, whatever its elements, [remove_book]
    answers [False] only out of range and then changes nothing; in range it
    has popped the element before it looks for the title, so that an
    element without a title raises and is gone from the library all the
    same. *)
Theorem remove_book_pops_first (l : list value) (name : string) (i : Z) :
  let self := {| library := VList l; filename := name |} in
  match remove_book self i with
  | (Ok (true, t), self') =>
      ∃ x, 0 ≤ i ∧ l !! Z.to_nat i = Some x ∧ py_getitem x "title" = Ok t
           ∧ self' = set_library self (VList (delete (Z.to_nat i) l))
  | (Ok (false, t), self') =>
      t = VStr "" ∧ self' = self ∧ (i < 0 ∨ Z.of_nat (length l) ≤ i)
  | (Raise e, self') =>
      ∃ x, 0 ≤ i ∧ l !! Z.to_nat i = Some x ∧ py_getitem x "title" = Raise e
           ∧ self' = set_library self (VList (delete (Z.to_nat i) l))
  end.
Proof.
  intros self. unfold remove_book, index_in_range. cbn [library self py_len].
  destruct (Z.leb_spec 0 i) as [Hi|Hi]; cbn [mbind result_bind]; [|split_and!; [done..|lia]].
  destruct (Z.ltb_spec i (Z.of_nat (length l))) as [Hlt|Hge];
    [|split_and!; [done..|lia]].
  unfold py_pop.
  destruct (Z.ltb_spec i 0) as [?|_]; [lia|].
  destruct (Z.leb_spec 0 i) as [_|?]; [|lia].
  destruct (Z.ltb_spec i (Z.of_nat (length l))) as [_|?]; [|lia].
  cbn [andb].
  destruct (lookup_lt_is_Some_2 l (Z.to_nat i)) as [x Hx]; [lia|].
  rewrite Hx. destruct (py_getitem x "title") as [t|e] eqn:Ht; cbn.
  - by exists x.
  - by exists x.
Qed.

(** X2: a book added to a library that is a list, whatever its elements,
    sits at the position [len] had before; removing that position gives
    back the title and the library as it was. *)
Theorem add_then_remove_restores (l : list value) (name : string) (now : datetime)
    (title author : string) (year : Z) (genre : string) (read_status : bool) :
  let self := {| library := VList l; filename := name |} in
  let added := add_book self now title author year genre read_status in
  (∃ book, added = (Ok book, set_library self (VList (l ++ [book]))))
  ∧ remove_book added.2 (Z.of_nat (length l)) = (Ok (true, VStr title), self).
Proof.
  intros self added. split; [by eexists|].
  unfold added, add_book. cbn [library self py_append snd].
  unfold remove_book, index_in_range, set_library.
  cbn [library filename py_len mbind result_bind].
  rewrite length_app. cbn [length].
  destruct (Z.leb_spec 0 (Z.of_nat (length l))) as [_|?]; [|lia].
  destruct (Z.ltb_spec (Z.of_nat (length l)) (Z.of_nat (length l + 1))) as [_|?]; [|lia].
  unfold py_pop. rewrite length_app. cbn [length].
  destruct (Z.ltb_spec (Z.of_nat (length l)) 0) as [?|_]; [lia|].
  destruct (Z.leb_spec 0 (Z.of_nat (length l))) as [_|?]; [|lia].
  destruct (Z.ltb_spec (Z.of_nat (length l)) (Z.of_nat (length l + 1))) as [_|?]; [|lia].
  cbn [andb]. rewrite Nat2Z.id, list_lookup_middle by done.
  rewrite delete_middle, app_nil_r. reflexivity.
Qed.

(** ** Statistics on any library *)

Lemma count_if_bounds (cond : value → result bool) (items : list value) (n : Z) :
  count_if cond items = Ok n → 0 ≤ n ≤ Z.of_nat (length items).
Proof.
  revert n. induction items as [|x items IH]; intros n.
  - intros [= <-]. cbn. lia.
  - cbn [count_if]. destruct (cond x) as [b|e]; [|done].
    destruct (count_if cond items) as [m|e]; [|done].
    cbn. specialize (IH m eq_refl). cbn [length].
    destruct b; intros [= <-]; lia.
Qed.

Lemma len_iter (v : value) (n : Z) (items : list value) :
  py_len v = Ok n → py_iter v = Ok items → n = Z.of_nat (length items).
Proof.
  destruct v as [ | | |s|l|d]; try done; cbn; intros [= <-] [= <-].
  - rewrite length_map. f_equal.
    induction s as [|c s IH]; [done|]. cbn. by rewrite IH.
  - done.
  - by rewrite length_map.
Qed.

(** X3: whenever [get_statistics] returns, on a catalog or on anything else
    a file put in the library, its numbers are consistent: read is between
    0 and total, unread is what is left and is not negative, the
    percentage, the float that the two roundings leave, lies between 0
    and 100, and it is the integer 0 exactly on an empty library. *)
Theorem get_statistics_consistent (self : LibraryManager) (st : Stats.t) :
  get_statistics self = Ok st →
  0 ≤ Stats.read st ≤ Stats.total st
  ∧ 0 ≤ Stats.unread st
  ∧ Stats.read st + Stats.unread st = Stats.total st
  ∧ (0 <= number_value (Stats.percentage st) <= 100)%Q
  ∧ (Stats.total st = 0 ↔ Stats.percentage st = NInt 0).
Proof.
  unfold get_statistics.
  destruct (py_len (library self)) as [n|e] eqn:Hlen; [|done].
  destruct (py_iter (library self)) as [items|e] eqn:Hiter; [|done].
  cbn [mbind result_bind].
  destruct (count_if _ items) as [r|e] eqn:Hcount; [|done].
  cbn [mbind result_bind]. intros [= <-].
  cbn [Stats.total Stats.read Stats.unread Stats.percentage].
  apply count_if_bounds in Hcount.
  pose proof (len_iter _ _ _ Hlen Hiter) as Hn.
  split; [lia|]. split; [lia|]. split; [lia|]. split.
  - destruct (Z.ltb_spec 0 n); cbn [number_value]; [|done].
    apply percent_bounds; lia.
  - destruct (Z.ltb_spec 0 n); split; try done; lia.
Qed.

Lemma get_statistics_consistent_witness :
  0 ≤ 2 ≤ 3 ∧ 0 ≤ 1 ∧ 2 + 1 = 3
  ∧ (0 <= number_value (NFloat (2345624805922133 # 35184372088832)) <= 100)%Q
  ∧ (3 = 0 ↔ NFloat (2345624805922133 # 35184372088832) = NInt 0).
Proof.
  apply (get_statistics_consistent (manager_of [dune; hamlet; emma])
           {| Stats.total := 3; Stats.read := 2; Stats.unread := 1;
              Stats.percentage := NFloat (2345624805922133 # 35184372088832) |}).
  vm_compute. reflexivity.
Defined.

(** ** Which libraries the readers accept *)

Lemma comprehension_succeeds (cond : value → result bool) (items : list value) :
  (∃ r, comprehension cond items = Ok r) ↔ Forall (λ x, ∃ b, cond x = Ok b) items.
Proof.
  induction items as [|x items IH]; cbn [comprehension].
  - split; [constructor|by eexists].
  - rewrite Forall_cons, <- IH. split.
    + intros [r Hr]. destruct (cond x) as [b|e]; [|done].
      split; [by eexists|].
      destruct (comprehension cond items) as [r'|e]; [by eexists|done].
    + intros [[b ->] [r' ->]]. by eexists.
Qed.

Lemma count_if_succeeds (cond : value → result bool) (items : list value) :
  (∃ n, count_if cond items = Ok n) ↔ Forall (λ x, ∃ b, cond x = Ok b) items.
Proof.
  induction items as [|x items IH]; cbn [count_if].
  - split; [constructor|by eexists].
  - rewrite Forall_cons, <- IH. split.
    + intros [r Hr]. destruct (cond x) as [b|e]; [|done].
      split; [by eexists|].
      destruct (count_if cond items) as [r'|e]; [by eexists|done].
    + intros [[b ->] [r' ->]]. by eexists.
Qed.

Lemma getitem_succeeds (x : value) (k : string) (v : value) :
  py_getitem x k = Ok v ↔ ∃ d, x = VDict d ∧ dict_get k d = Some v.
Proof.
  destruct x as [ | | | | |d]; cbn; try (split; [done|by intros (d' & ? & _)]).
  destruct (dict_get k d) as [y|] eqn:E; split.
  - intros [= ->]. by exists d.
  - intros (d' & [= <-] & H). congruence.
  - done.
  - intros (d' & [= <-] & H). congruence.
Qed.

(** X4: on a library that is a list, [get_statistics] returns exactly when
    every element is a dictionary with the key ["read"], whatever the value
    under it; a value Python holds true (a number other than 0, a string or
    container that is not empty) counts as read. *)
Theorem get_statistics_accepts (l : list value) (name : string) :
  let self := {| library := VList l; filename := name |} in
  ((∃ st, get_statistics self = Ok st)
   ↔ Forall (λ x, ∃ d r, x = VDict d ∧ dict_get "read" d = Some r) l)
  ∧ ∀ st, get_statistics self = Ok st →
      Stats.total st = Z.of_nat (length l)
      ∧ Stats.read st
        = Z.of_nat (length (List.filter
            (λ x, match py_getitem x "read" with
                  | Ok r => py_truthy r
                  | Raise _ => false
                  end) l)).
Proof.
  intros self. unfold get_statistics, self.
  cbn [library py_len py_iter mbind result_bind].
  split.
  - transitivity (∃ n, count_if (λ book, r ← py_getitem book "read"; Ok (py_truthy r)) l
                       = Ok n).
    + split.
      * intros [st Hst]. destruct (count_if _ l) as [n|e]; [by eexists|done].
      * intros [n ->]. by eexists.
    + rewrite count_if_succeeds. apply Forall_proper; [|done]. intros x. split.
      * intros [b Hb]. destruct (py_getitem x "read") as [r|e] eqn:E; [|done].
        apply getitem_succeeds in E as (d & -> & Hd). eauto.
      * intros (d & r & -> & Hd). cbn. rewrite Hd. by eexists.
  - intros st.
    destruct (count_if _ l) as [n|e] eqn:Hcount; [|done].
    cbn [mbind result_bind]. intros [= <-]. cbn. split; [done|].
    clear self. revert n Hcount. induction l as [|x l IH]; intros n.
    + by intros [= <-].
    + cbn [count_if List.filter].
      destruct (py_getitem x "read") as [r|e]; [|done]. cbn [mbind result_bind].
      destruct (count_if _ l) as [m|e]; [|done]. cbn [mbind result_bind].
      specialize (IH m eq_refl). intros [= <-].
      destruct (py_truthy r); cbn [length]; lia.
Qed.

(** X5: on a library that is a list, [search_by_title] (and likewise
    [search_by_author]) returns exactly when every element is a dictionary
    whose title (author) is a string; the query plays no part in it, and one
    element with a number for a title makes every search raise. *)
Theorem search_accepts (l : list value) (name : string) (q : string) :
  let self := {| library := VList l; filename := name |} in
  ((∃ r, search_by_title self q = Ok r)
   ↔ Forall (λ x, ∃ d s, x = VDict d ∧ dict_get "title" d = Some (VStr s)) l)
  ∧ ((∃ r, search_by_author self q = Ok r)
   ↔ Forall (λ x, ∃ d s, x = VDict d ∧ dict_get "author" d = Some (VStr s)) l).
Proof.
  intros self.
  assert (∀ k x,
    (∃ b, (t ← py_getitem x k; h ← py_lower t; Ok (str_in (lower q) h)) = Ok b)
    ↔ ∃ d s, x = VDict d ∧ dict_get k d = Some (VStr s)) as Helem.
  { intros k x. split.
    - intros [b Hb]. destruct (py_getitem x k) as [t|e] eqn:E; [|done].
      apply getitem_succeeds in E as (d & -> & Hd).
      destruct t; try done. eauto.
    - intros (d & s & -> & Hd). cbn. rewrite Hd. by eexists. }
  unfold search_by_title, search_by_author, self.
  cbn [library py_iter mbind result_bind].
  split; rewrite comprehension_succeeds; (apply Forall_proper; [|done]);
    intros x; apply Helem.
Qed.

(** ** Readers on a catalog *)

Lemma lower_char_idem (c : ascii) : lower_char (lower_char c) = lower_char c.
Proof. destruct c as [[] [] [] [] [] [] [] []]; reflexivity. Qed.

Lemma lower_idem (s : string) : lower (lower s) = lower s.
Proof. induction s as [|c s IH]; [done|]. cbn. by rewrite lower_char_idem, IH. Qed.

Lemma string_app_assoc (a b c : string) :
  ((a ++ b) ++ c = a ++ (b ++ c))%string.
Proof.
  induction a as [|x a IH]; [done|].
  change (String x ((a ++ b) ++ c) = String x (a ++ (b ++ c)))%string.
  by rewrite IH.
Qed.

Lemma str_in_trans (a b c : string) :
  str_in a b = true → str_in b c = true → str_in a c = true.
Proof.
  rewrite !str_in_spec. intros (p1 & s1 & ->) (p2 & s2 & ->).
  exists (p2 ++ p1)%string, (s1 ++ s2)%string.
  by rewrite !string_app_assoc.
Qed.

Lemma filter_sublist_impl {A : Type} (f g : A → bool) (l : list A) :
  (∀ x, f x = true → g x = true) → List.filter f l `sublist_of` List.filter g l.
Proof.
  intros Himpl. induction l as [|x l IH]; [done|]. cbn [List.filter].
  destruct (f x) eqn:Hf.
  - rewrite (Himpl x Hf). by constructor.
  - destruct (g x); [by constructor|done].
Qed.

Lemma get_statistics_books (books : list Book.t) :
  get_statistics (manager_of books)
  = Ok {| Stats.total := Z.of_nat (length books);
          Stats.read := Z.of_nat (length (List.filter Book.read books));
          Stats.unread := Z.of_nat (length books)
                          - Z.of_nat (length (List.filter Book.read books));
          Stats.percentage :=
            if 0 <? Z.of_nat (length books)
            then NFloat (b64 (b64 (inject_Z (Z.of_nat (length (List.filter Book.read books)))
                                   / inject_Z (Z.of_nat (length books))) * 100))
            else NInt 0 |}.
Proof.
  unfold get_statistics. cbn [library manager_of]. rewrite len_catalog.
  unfold of_catalog. cbn [mbind result_bind py_iter].
  by rewrite (count_if_books _ Book.read) by (intros b; reflexivity).
Qed.

Lemma get_all_genres_books (books : list Book.t) :
  ∃ gs : list string,
    get_all_genres (manager_of books) = Ok (VStr <$> gs)
    ∧ NoDup gs
    ∧ ∀ g, g ∈ gs ↔ ∃ b, b ∈ books ∧ Book.genre b = g.
Proof.
  destruct (genre_set_books books []) as (ss & Hset & Hnd & Hiff);
    [apply NoDup_nil_2|].
  exists (merge_sort String.le ss).
  assert (merge_sort String.le ss ≡ₚ ss) as Hperm by apply merge_sort_Permutation.
  split_and!.
  - unfold get_all_genres.
    cbn [library manager_of of_catalog py_iter mbind result_bind].
    change (@nil value) with (VStr <$> @nil string). rewrite Hset.
    cbn [mbind result_bind]. apply py_sorted_strings.
  - by rewrite Hperm.
  - intros g. rewrite Hperm, Hiff. split; [|auto].
    intros [Hg|?]; [|done]. by apply elem_of_nil in Hg.
Qed.

Lemma filter_by_genre_books (books : list Book.t) (g : string) :
  filter_by_genre (manager_of books) g
  = Ok (of_catalog
          (List.filter (λ b, String.eqb g "All Genres" || String.eqb (Book.genre b) g)
             books)).
Proof.
  unfold filter_by_genre. destruct (String.eqb g "All Genres") eqn:Hg.
  - cbn [orb library manager_of]. do 2 f_equal.
    induction books as [|b books IH]; [done|]. cbn. by rewrite <- IH.
  - cbn [orb library manager_of of_catalog py_iter mbind result_bind].
    by rewrite (comprehension_books _ (λ b, String.eqb (Book.genre b) g))
      by (intros b; reflexivity).
Qed.

(** X6: on text of the code points below U+0100, a query that contains
    another one, letter case ignored, finds a part of what the shorter
    query finds, in the same order; and two queries with the same letters,
    whatever their case, find the same records. *)
Theorem search_narrows (books : list Book.t) (q1 q2 : string) :
  ci_substring q1 q2 →
  (∃ r1 r2,
     search_by_title (manager_of books) q1 = Ok (of_book <$> r1)
     ∧ search_by_title (manager_of books) q2 = Ok (of_book <$> r2)
     ∧ r2 `sublist_of` r1 ∧ r1 `sublist_of` books)
  ∧ (∃ r1 r2,
     search_by_author (manager_of books) q1 = Ok (of_book <$> r1)
     ∧ search_by_author (manager_of books) q2 = Ok (of_book <$> r2)
     ∧ r2 `sublist_of` r1 ∧ r1 `sublist_of` books)
  ∧ (∀ q, same_letters q1 q = true →
       search_by_title (manager_of books) q = search_by_title (manager_of books) q1
       ∧ search_by_author (manager_of books) q = search_by_author (manager_of books) q1).
Proof.
  intros Hsub.
  assert (str_in (lower q1) (lower q2) = true) as H12 by by apply ci_substring_lower.
  assert (∀ keep : Book.t → bool, List.filter keep books `sublist_of` books) as Hsl.
  { intros keep. induction books as [|b books IH]; [done|]. cbn.
    destruct (keep b); by constructor. }
  split_and!.
  - eexists _, _. split_and!.
    + apply (search_books "title" Book.title). intros b; reflexivity.
    + apply (search_books "title" Book.title). intros b; reflexivity.
    + apply filter_sublist_impl. intros b. by apply str_in_trans.
    + apply Hsl.
  - eexists _, _. split_and!.
    + apply (search_books "author" Book.author). intros b; reflexivity.
    + apply (search_books "author" Book.author). intros b; reflexivity.
    + apply filter_sublist_impl. intros b. by apply str_in_trans.
    + apply Hsl.
  - intros q Hq. apply same_letters_lower in Hq.
    unfold search_by_title, search_by_author. by rewrite Hq.
Qed.

Lemma search_narrows_witness :
  ∃ r1 r2,
    search_by_title (manager_of [dune; hamlet; emma]) "M" = Ok (of_book <$> r1)
    ∧ search_by_title (manager_of [dune; hamlet; emma]) "amL" = Ok (of_book <$> r2)
    ∧ r2 `sublist_of` r1 ∧ r1 `sublist_of` [dune; hamlet; emma].
Proof.
  apply (search_narrows [dune; hamlet; emma] "M" "amL").
  by exists "a", "m", "L".
Defined.

(** X7: the genres [get_all_genres] offers are the ones [filter_by_genre]
    finds a record for: an offered genre lists at least one record, a genre
    that is not offered, the marker apart, lists none, and the records
    listed for a genre other than the marker are the ones that have it. *)
Theorem offered_genres_list_books (books : list Book.t) :
  ∃ gs : list string,
    get_all_genres (manager_of books) = Ok (VStr <$> gs)
    ∧ ∀ g, ∃ bs,
        filter_by_genre (manager_of books) g = Ok (of_catalog bs)
        ∧ (g ∈ gs → bs ≠ [])
        ∧ (g ∉ gs → g ≠ "All Genres" → bs = [])
        ∧ (g ≠ "All Genres" → ∀ b, b ∈ bs ↔ b ∈ books ∧ Book.genre b = g).
Proof.
  destruct (get_all_genres_books books) as (gs & Hgs & _ & Hiff).
  exists gs. split; [done|]. intros g. eexists. split; [apply filter_by_genre_books|].
  assert (∀ b, b ∈ List.filter
                 (λ b, String.eqb g "All Genres" || String.eqb (Book.genre b) g) books
               ↔ b ∈ books ∧ (g = "All Genres" ∨ Book.genre b = g)) as Hmem.
  { intros b. rewrite !list_elem_of_In, filter_In, orb_true_iff, !String.eqb_eq.
    done. }
  split_and!.
  - intros (b & Hb & Hgen)%Hiff Hnil.
    assert (b ∈ @nil Book.t) as Hin by (rewrite <- Hnil; apply Hmem; auto).
    by apply elem_of_nil in Hin.
  - intros Hnot Hne.
    destruct (List.filter _ books) as [|b bs]; [done|].
    destruct (proj1 (Hmem b) (list_elem_of_here _ _)) as [Hb [?|Hgen]]; [done|].
    exfalso. apply Hnot, Hiff. eauto.
  - intros Hne b. rewrite Hmem. split; [intros [? [?|?]]|intros [? ?]]; auto; done.
Qed.

(** X8: after [add_book] the statistics count one record more, among the
    read ones when the flag is set and among the unread ones otherwise, and
    the genres offered are the former ones and the genre of the new
    record. *)
Theorem add_book_updates_readers (books : list Book.t) (now : datetime)
    (title author : string) (year : Z) (genre : string) (read_status : bool) :
  let self' := (add_book (manager_of books) now title author year genre read_status).2 in
  (∃ st st',
     get_statistics (manager_of books) = Ok st
     ∧ get_statistics self' = Ok st'
     ∧ Stats.total st' = Stats.total st + 1
     ∧ Stats.read st' = Stats.read st + (if read_status then 1 else 0)
     ∧ Stats.unread st' = Stats.unread st + (if read_status then 0 else 1))
  ∧ (∃ gs gs',
     get_all_genres (manager_of books) = Ok (VStr <$> gs)
     ∧ get_all_genres self' = Ok (VStr <$> gs')
     ∧ ∀ g, g ∈ gs' ↔ g ∈ gs ∨ g = genre).
Proof.
  intros self'.
  set (b := {| Book.title := title; Book.author := author; Book.year := year;
               Book.genre := genre; Book.read := read_status;
               Book.date_added := strftime_ymd now |}).
  assert (self' = manager_of (books ++ [b])) as ->.
  { unfold self', add_book, manager_of, of_catalog, set_library; cbn.
    by rewrite fmap_app. }
  split.
  - eexists _, _. split; [apply get_statistics_books|].
    split; [apply get_statistics_books|]. cbn.
    rewrite List.filter_app, !length_app. cbn.
    destruct read_status; cbn; lia.
  - destruct (get_all_genres_books books) as (gs & Hgs & _ & Hiff).
    destruct (get_all_genres_books (books ++ [b])) as (gs' & Hgs' & _ & Hiff').
    exists gs, gs'. split_and!; [done..|].
    intros g. rewrite Hiff', Hiff. split.
    + intros (x & [Hx| ->%list_elem_of_singleton]%elem_of_app & <-); [left; eauto|by right].
    + intros [(x & Hx & <-)| ->].
      * exists x. split; [|done]. apply elem_of_app. by left.
      * exists b. split; [|done]. apply elem_of_app. right. apply list_elem_of_here.
Qed.

(** * Further properties of saving and loading *)

Lemma load_library_store (self self' : LibraryManager) (w w' : world) (r : bool) :
  load_library self w = Some (r, self', w') →
  files w' = files w
  ∧ filename self' = filename self
  ∧ if r
    then ∃ text, read_text w (filename self) = Ok text
                 ∧ json_load text = Parsed (library self')
    else self' = self.
Proof.
  unfold load_library. destruct (path_exists w (filename self)); [|by intros [= <- <- <-]].
  destruct (read_text w (filename self)) as [text|e]; [|by intros [= <- <- <-]].
  destruct (json_load text) as [v| | |] eqn:Hload; [| |done..]; intros [= <- <- <-];
    [|done]. split_and!; [done..|]. by exists text.
Qed.

Lemma save_library_self (self : LibraryManager) (w : world) :
  (save_library self w).1.2 = self.
Proof. unfold save_library. by destruct (write_text w _ _). Qed.

Lemma save_library_node (self self1 : LibraryManager) (w w1 : world) :
  save_library self w = (true, self1, w1) →
  self1 = self
  ∧ ∃ r, files w1 !! filename self = Some (File r true (json_dump (library self)))
         ∧ ∀ r0 wr old, files w !! filename self = Some (File r0 wr old) → r = r0.
Proof.
  unfold save_library, write_text.
  destruct (files w !! filename self) as [[r [] old| |r old room e]|] eqn:E;
    [| | | |destruct (may_create w)]; try done; intros [= <- <-]; (split; [done|]).
  - exists r. cbn. rewrite lookup_insert_eq. split; [done|]. by intros ??? [= ->].
  - exists true. cbn. by rewrite lookup_insert_eq.
Qed.

(** X9: [load_library] never writes: the files are the same after it.  It
    replaces the library only when it returns [True], and then shows
    nothing; when it returns [False] the store is untouched, and an error
    is shown exactly when the file exists. *)
Theorem load_library_frame (self self' : LibraryManager) (w w' : world) (r : bool) :
  load_library self w = Some (r, self', w') →
  files w' = files w
  ∧ may_create w' = may_create w
  ∧ filename self' = filename self
  ∧ (r = true →
       errors w' = errors w
       ∧ ∃ text, read_text w (filename self) = Ok text
                 ∧ json_load text = Parsed (library self'))
  ∧ (r = false →
       self' = self
       ∧ if path_exists w (filename self)
         then ∃ e, errors w' = errors w ++ [LoadError e]
         else w' = w).
Proof.
  unfold load_library. destruct (path_exists w (filename self)); [|by intros [= <- <- <-]].
  destruct (read_text w (filename self)) as [text|e].
  - destruct (json_load text) as [v| | |] eqn:Hload; [| |done..].
    + intros [= <- <- <-]. split_and!; try done. intros _. split; [done|]. by exists text.
    + intros [= <- <- <-]. split_and!; try done. intros _. split; [done|]. by eexists.
  - intros [= <- <- <-]. split_and!; try done. intros _. split; [done|]. by eexists.
Qed.

Lemma load_library_frame_witness :
  let w := world_with true true "[1," in
  let w' := st_error (LoadError JSONDecodeError) w in
  files w' = files w
  ∧ may_create w' = may_create w
  ∧ filename blank = filename blank
  ∧ (false = true →
       errors w' = errors w
       ∧ ∃ text, read_text w (filename blank) = Ok text
                 ∧ json_load text = Parsed (library blank))
  ∧ (false = false →
       blank = blank
       ∧ if path_exists w (filename blank)
         then ∃ e, errors w' = errors w ++ [LoadError e]
         else w' = w).
Proof.
  apply (load_library_frame blank blank (world_with true true "[1,")
           (st_error (LoadError JSONDecodeError) (world_with true true "[1,")) false).
  reflexivity.
Defined.




(** ** What the decoder returns *)

Lemma dict_set_keys (k : string) (v : value) (acc : list (string * value)) :
  (dict_set k v acc).*1 = if decide (k ∈ acc.*1) then acc.*1 else acc.*1 ++ [k].
Proof.
  induction acc as [|[k' v'] acc IH]; [done|].
  cbn [dict_set]. rewrite !fmap_cons. cbn [fst].
  destruct (String.eqb_spec k k') as [->|Hne].
  - by rewrite decide_True by apply list_elem_of_here.
  - rewrite fmap_cons, IH. cbn [fst].
    destruct (decide (k ∈ acc.*1)) as [Hin|Hin].
    + by rewrite decide_True by (by apply list_elem_of_further).
    + rewrite decide_False; [done|]. by intros [?|?]%elem_of_cons.
Qed.

Lemma dict_set_NoDup (k : string) (v : value) (acc : list (string * value)) :
  NoDup acc.*1 → NoDup (dict_set k v acc).*1.
Proof.
  intros Hnd. rewrite dict_set_keys. destruct (decide (k ∈ acc.*1)); [done|].
  apply NoDup_app. split_and!; [done| |apply NoDup_singleton].
  by intros x Hx ->%list_elem_of_singleton.
Qed.

Lemma dict_set_Forall (P : value → Prop) (k : string) (v : value)
    (acc : list (string * value)) :
  P v → Forall (λ kv, P kv.2) acc → Forall (λ kv, P kv.2) (dict_set k v acc).
Proof.
  intros Hv. induction 1 as [|[k' v'] acc Hx Hacc IH]; cbn [dict_set].
  - by repeat constructor.
  - destruct (String.eqb k k'); constructor; done.
Qed.

Lemma parse_number_wf (s : list ascii) (v : value) (r : list ascii) :
  parse_number s = Parsed (v, r) → wf v.
Proof.
  unfold parse_number.
  destruct (match s with
            | c :: r0 => if Ascii.eqb c "-" then (true, r0) else (false, s)
            | [] => (false, s)
            end) as [negative s1].
  destruct (scan_integer s1) as [[u r']|].
  - destruct (float_tail r'); [done|]. intros [= <- _]. constructor.
  - by destruct (negative && _).
Qed.

Lemma parse_wf (fuel : nat) :
  (∀ s v r, parse_value fuel s = Parsed (v, r) → wf v)
  ∧ (∀ acc s v r, Forall wf acc → parse_elements fuel acc s = Parsed (v, r) → wf v)
  ∧ (∀ acc s v r, NoDup acc.*1 → Forall (λ kv, wf kv.2) acc →
                  parse_members fuel acc s = Parsed (v, r) → wf v).
Proof.
  induction fuel as [|fuel (IHv & IHe & IHm)]; [done|]. split_and!.
  - intros [|c r0] v r H; [done|]. cbn [parse_value] in H.
    destruct (Ascii.eqb c quote).
    { destruct (scan_string r0) as [[t r1]| | |]; try done.
      cbn in H. injection H as <- _. constructor. }
    destruct (Ascii.eqb c "{").
    { destruct (skip_ws r0) as [|c' r']; [done|].
      destruct (Ascii.eqb c' "}").
      - injection H as <- _. constructor; [apply NoDup_nil_2|constructor].
      - apply IHm in H; [done|apply NoDup_nil_2|constructor]. }
    destruct (Ascii.eqb c "[").
    { destruct (skip_ws r0) as [|c' r']; [done|].
      destruct (Ascii.eqb c' "]").
      - injection H as <- _. by repeat constructor.
      - by apply IHe in H. }
    unfold literal in H.
    destruct (strip_prefix (chars "null") (c :: r0)); [injection H as <- _; constructor|].
    destruct (strip_prefix (chars "true") (c :: r0)); [injection H as <- _; constructor|].
    destruct (strip_prefix (chars "false") (c :: r0)); [injection H as <- _; constructor|].
    destruct (parse_number (c :: r0)) as [[v' r']| | |] eqn:E; try done.
    + injection H as <- _. by apply parse_number_wf in E.
    + by destruct (_ || _).
  - intros acc s v r Hacc H. cbn [parse_elements] in H.
    destruct (parse_value fuel s) as [[v' r1]| | |] eqn:E; try done.
    apply IHv in E. cbn in H.
    assert (Forall wf (acc ++ [v'])) as Hacc' by (apply Forall_app; by repeat constructor).
    destruct (skip_ws r1) as [|c r']; [done|].
    destruct (Ascii.eqb c "]"); [injection H as <- _; by constructor|].
    destruct (Ascii.eqb c ","); [|done]. by apply IHe in H.
  - intros acc [|q r0] v r Hnd Hacc H; [done|]. cbn [parse_members] in H.
    destruct (Ascii.eqb q quote); [|done].
    destruct (scan_string r0) as [[k r1]| | |]; try done. cbn in H.
    destruct (skip_ws r1) as [|c r2]; [done|].
    destruct (Ascii.eqb c ":"); [|done].
    destruct (parse_value fuel (skip_ws r2)) as [[v' r3]| | |] eqn:E; try done.
    apply IHv in E. cbn in H.
    pose proof (dict_set_NoDup k v' acc Hnd) as Hnd'.
    pose proof (dict_set_Forall wf k v' acc E Hacc) as Hacc'.
    destruct (skip_ws r3) as [|c' r4]; [done|].
    destruct (Ascii.eqb c' "}"); [injection H as <- _; by constructor|].
    destruct (Ascii.eqb c' ","); [|done]. by apply IHm in H.
Qed.

Lemma json_load_wf (text : string) (v : value) : json_load text = Parsed v → wf v.
Proof.
  unfold json_load.
  destruct (parse_value _ _) as [[v' r]| | |] eqn:E; try done.
  apply parse_wf in E. cbn. destruct (skip_ws r); [|done]. by intros [= <-].
Qed.

(** X12: the store the script builds at start-up survives a save: when
    [save_library] succeeds on it, the next start-up builds a store with
    the same library, whatever the file held before (a catalog, any other
    document, a text that does not decode, or no file). *)
Theorem restart_after_save (self self1 : LibraryManager) (w w0 w1 : world) :
  init w = Some (self, w0) →
  save_library self w0 = (true, self1, w1) →
  ∃ self2 w2, init w1 = Some (self2, w2) ∧ library self2 = library self.
Proof.
  unfold init. destruct (load_library blank w) as [[[r s] w']|] eqn:Hload; [|done].
  cbn. intros [= -> ->] Hsave.
  assert (wf (library self) ∧ filename self = "library.txt") as [Hwf Hname].
  { destruct (load_library_store _ _ _ _ _ Hload) as (_ & Hname & Hr).
    split; [|done]. destruct r.
    - destruct Hr as (text & _ & Hparsed). by apply json_load_wf in Hparsed.
    - rewrite Hr. by repeat constructor. }
  destruct (save_library_node _ _ _ _ Hsave) as (-> & rd & Hnode & Hkeep).
  rewrite Hname in Hnode, Hkeep.
  unfold load_library, path_exists, read_text. cbn [filename blank]. rewrite Hnode.
  destruct rd.
  - rewrite json_load_dump by done. by eexists _, _.
  - eexists _, _. split; [done|].
    destruct (load_library_store _ _ _ _ _ Hload) as (Hfiles & _ & Hr).
    destruct r; [|by rewrite Hr].
    destruct Hr as (text & Hread & _).
    unfold read_text in Hread. cbn [filename blank] in Hread.
    rewrite Hfiles in Hkeep.
    destruct (files w !! "library.txt") as [[[] wr old| |[] old room e]|] eqn:E;
      try done.
    + by specialize (Hkeep _ _ _ eq_refl).
    + unfold save_library, write_text in Hsave. by rewrite Hname, Hfiles, E in Hsave.
Qed.

Lemma restart_after_save_witness :
  let w := world_with true true "[1, [true], null]" in
  ∃ self2 w2,
    init (save_library (set_library blank (VList [VInt 1; VList [VBool true]; VNone])) w).2
      = Some (self2, w2)
    ∧ library self2 = VList [VInt 1; VList [VBool true]; VNone].
Proof.
  intros w.
  apply (restart_after_save (set_library blank (VList [VInt 1; VList [VBool true]; VNone]))
           (set_library blank (VList [VInt 1; VList [VBool true]; VNone])) w w).
  - reflexivity.
  - reflexivity.
Defined.

(** ** The text of the file *)

Lemma escape_char_plain (c : ascii) : forallb plain (escape_char c) = true.
Proof. destruct c as [[] [] [] [] [] [] [] []]; reflexivity. Qed.

Lemma encode_string_plain (s : string) : forallb plain (encode_string s) = true.
Proof.
  assert (forallb plain (flat_map escape_char (chars s)) = true) as Hbody.
  { unfold chars. induction s as [|c s IH]; [done|].
    cbn [list_ascii_of_string flat_map]. by rewrite forallb_app, escape_char_plain, IH. }
  unfold encode_string. cbn [forallb]. by rewrite forallb_app, Hbody.
Qed.

Lemma uint_chars_plain (u : Decimal.uint) : forallb plain (uint_chars u) = true.
Proof. induction u; cbn [uint_chars forallb]; [done|by rewrite IHu..]. Qed.

Lemma int_chars_plain (n : Z) : forallb plain (int_chars n) = true.
Proof.
  destruct n; unfold int_chars, nat_chars; cbn [forallb]; by rewrite ?uint_chars_plain.
Qed.

Lemma newline_indent_plain (level : nat) : forallb plain (newline_indent level) = true.
Proof.
  unfold newline_indent. cbn [forallb]. generalize (4 * level)%nat as n. intros n.
  change (forallb plain (replicate n " "%char) = true).
  induction n as [|n IH]; [done|]. exact IH.
Qed.

Lemma encode_plain (v : value) : ∀ level, forallb plain (encode level v) = true.
Proof.
  induction v as [ |b|n|s|l IH|d IH] using value_ind; intros level.
  - done.
  - by destruct b.
  - apply int_chars_plain.
  - apply encode_string_plain.
  - destruct l as [|x xs]; [done|].
    apply Forall_cons in IH as [Hx Hxs].
    cbn [encode forallb]. rewrite !forallb_app, newline_indent_plain, Hx.
    rewrite newline_indent_plain.
    change (forallb plain (chars "]")) with true. rewrite andb_true_r.
    change (plain "[") with true. cbn [andb].
    induction Hxs as [|y ys Hy _ IHys]; [done|].
    cbn [flat_map forallb app]. rewrite !forallb_app, newline_indent_plain, Hy.
    exact IHys.
  - destruct d as [|kx kxs]; [done|].
    apply Forall_cons in IH as [Hx Hxs].
    cbn [encode forallb]. rewrite !forallb_app, newline_indent_plain, Hx.
    rewrite encode_string_plain, newline_indent_plain.
    change (forallb plain (chars "}")) with true. rewrite andb_true_r.
    change (forallb plain (chars ": ")) with true.
    change (plain "{") with true. cbn [andb].
    induction Hxs as [|y ys Hy _ IHys]; [done|].
    cbn [flat_map forallb app].
    rewrite !forallb_app, newline_indent_plain, Hy, encode_string_plain.
    exact IHys.
Qed.

(** X13: the file [save_library] writes is plain text whatever the records
    hold: every character of it is printable ASCII or a line feed, and it
    is never empty. *)
Theorem saved_file_is_plain (self self' : LibraryManager) (w w' : world) :
  save_library self w = (true, self', w') →
  ∃ r text,
    files w' !! filename self = Some (File r true text)
    ∧ forallb plain (chars text) = true
    ∧ text ≠ EmptyString.
Proof.
  intros Hsave. destruct (save_library_node _ _ _ _ Hsave) as (_ & r & Hnode & _).
  exists r, (json_dump (library self)). split; [done|].
  unfold json_dump, chars. rewrite list_ascii_of_string_of_list_ascii.
  split; [apply encode_plain|].
  destruct (encode_head 0 (library self)) as (c & rest & -> & _). done.
Qed.

Lemma saved_file_is_plain_witness :
  ∃ r text,
    files (save_library (manager_of [dune; hamlet]) empty_world).2 !! "library.txt"
      = Some (File r true text)
    ∧ forallb plain (chars text) = true
    ∧ text ≠ EmptyString.
Proof.
  apply (saved_file_is_plain (manager_of [dune; hamlet]) (manager_of [dune; hamlet])
           empty_world).
  reflexivity.
Defined.

(** * Properties of the script *)

(** ** What the Library tab lists *)

Lemma status_test_book (s : string) (b : Book.t) :
  status_test s (of_book b)
  = Ok (String.eqb s "All Books"
        || String.eqb s "Read" && Book.read b
        || String.eqb s "Unread" && negb (Book.read b)).
Proof.
  unfold status_test. destruct (String.eqb s "All Books"); [done|].
  destruct (String.eqb_spec s "Read") as [->|_].
  - rewrite getitem_read. cbn. by destruct (Book.read b).
  - cbn [mbind result_bind orb andb].
    destruct (String.eqb s "Unread"); [|done]. by rewrite getitem_read.
Qed.

Lemma filter_filter {A : Type} (f g : A → bool) (l : list A) :
  List.filter g (List.filter f l) = List.filter (λ x, f x && g x) l.
Proof.
  induction l as [|x l IH]; [done|]. cbn [List.filter].
  destruct (f x); cbn [List.filter andb]; [|done]. by rewrite IH.
Qed.

Lemma filtered_books_books (books : list Book.t) (g s : string) :
  filtered_books (manager_of books) g s = Ok (of_book <$> List.filter (listed g s) books).
Proof.
  unfold filtered_books. rewrite filter_by_genre_books.
  cbn [mbind result_bind of_catalog py_iter].
  rewrite (comprehension_books _ _ _ (status_test_book s)).
  by rewrite filter_filter.
Qed.

Lemma filter_all {A : Type} (f : A → bool) (l : list A) :
  (∀ x, f x = true) → List.filter f l = l.
Proof.
  intros Hf. induction l as [|x l IH]; [done|]. cbn. by rewrite Hf, IH.
Qed.

Lemma filter_none {A : Type} (f : A → bool) (l : list A) :
  (∀ x, f x = false) → List.filter f l = [].
Proof.
  intros Hf. induction l as [|x l IH]; [done|]. cbn. by rewrite Hf, IH.
Qed.

Lemma listed_statuses (g : string) (b : Book.t) :
  let of_genre := String.eqb g "All Genres" || String.eqb (Book.genre b) g in
  listed g "All Books" b = of_genre
  ∧ listed g "Read" b = of_genre && Book.read b
  ∧ listed g "Unread" b = of_genre && negb (Book.read b).
Proof.
  unfold listed.
  destruct (String.eqb g "All Genres" || String.eqb (Book.genre b) g), (Book.read b);
    by split_and!.
Qed.

(** X14: the Library tab lists, in the order of the catalog, the records
    of the chosen genre (all of them for the marker) that pass the status
    filter.  The records listed as read and those listed as unread are
    together the records listed for all books, none twice; a status other
    than the three of the select box lists nothing. *)
Theorem library_tab_listing (books : list Book.t) (g s : string) :
  filtered_books (manager_of books) g s = Ok (of_book <$> List.filter (listed g s) books)
  ∧ filtered_books (manager_of books) "All Genres" "All Books" = Ok (of_book <$> books)
  ∧ List.filter (listed g "Read") books ++ List.filter (listed g "Unread") books
      ≡ₚ List.filter (listed g "All Books") books
  ∧ (∀ b, b ∈ List.filter (listed g "Read") books →
          b ∉ List.filter (listed g "Unread") books)
  ∧ (s ≠ "All Books" → s ≠ "Read" → s ≠ "Unread" →
     filtered_books (manager_of books) g s = Ok []).
Proof.
  split_and!.
  - apply filtered_books_books.
  - rewrite filtered_books_books. by rewrite filter_all.
  - induction books as [|b books IH]; [done|]. cbn [List.filter].
    destruct (listed_statuses g b) as (-> & -> & ->).
    destruct (String.eqb g "All Genres" || String.eqb (Book.genre b) g);
      cbn [andb]; [|exact IH].
    destruct (Book.read b); cbn [negb app].
    + by rewrite IH.
    + by rewrite <- Permutation_middle, IH.
  - intros b. rewrite !list_elem_of_In, !filter_In.
    destruct (listed_statuses g b) as (_ & -> & ->).
    intros [_ Hr] [_ Hu]. apply andb_true_iff in Hr as [_ Hr], Hu as [_ Hu].
    by destruct (Book.read b).
  - intros H1 H2 H3. rewrite filtered_books_books, filter_none; [done|].
    intros b. unfold listed.
    rewrite (proj2 (String.eqb_neq _ _) H1), (proj2 (String.eqb_neq _ _) H2),
      (proj2 (String.eqb_neq _ _) H3). apply andb_false_r.
Qed.

(** ** Which record the Library tab removes *)

Lemma py_eq_books (a b : Book.t) : py_eq (of_book a) (of_book b) = true ↔ a = b.
Proof.
  split; [|intros ->].
  - destruct a as [t1 a1 y1 g1 r1 d1], b as [t2 a2 y2 g2 r2 d2].
    cbn. rewrite !andb_true_iff, !String.eqb_eq, !Z.eqb_eq.
    intros (Ht & Ha & Hy & Hg & Hr & Hd & _). subst.
    f_equal. destruct r1, r2; done.
  - destruct b as [t a y g r d]. cbn.
    rewrite !String.eqb_refl, Z.eqb_refl. by destruct r.
Qed.

Lemma list_index_books (books : list Book.t) (b : Book.t) :
  b ∈ books →
  ∃ pre post, books = pre ++ b :: post ∧ (b ∉ pre)
              ∧ list_index (of_book <$> books) (of_book b) = Some (length pre).
Proof.
  induction books as [|x books IH]; [by intros ?%elem_of_nil|].
  intros Hin. rewrite fmap_cons. cbn [list_index].
  destruct (py_eq (of_book x) (of_book b)) eqn:E.
  - apply py_eq_books in E as ->. exists [], books. split_and!; [done| |done].
    apply not_elem_of_nil.
  - assert (x ≠ b) as Hne by (intros ->; by rewrite (proj2 (py_eq_books b b)) in E).
    apply elem_of_cons in Hin as [?|Hin]; [done|].
    destruct (IH Hin) as (pre & post & -> & Hpre & ->).
    exists (x :: pre), post. split_and!; [done| |done].
    by intros [?|?]%elem_of_cons.
Qed.

Lemma titles_of_books (books : list Book.t) :
  titles_of (of_book <$> books) = Ok ((λ b, VStr (Book.title b)) <$> books).
Proof.
  induction books as [|b books IH]; [done|].
  rewrite !fmap_cons. cbn [titles_of]. rewrite getitem_title, IH. done.
Qed.

Lemma list_index_titles (books : list Book.t) (t : string) :
  (∃ b, b ∈ books ∧ Book.title b = t) →
  ∃ before b after,
    books = before ++ b :: after
    ∧ Forall (λ x, Book.title x ≠ t) before ∧ Book.title b = t
    ∧ list_index ((λ b, VStr (Book.title b)) <$> books) (VStr t) = Some (length before).
Proof.
  induction books as [|x books IH]; [by intros (b & ?%elem_of_nil & _)|].
  intros (b & Hin & Ht). rewrite fmap_cons. cbn [list_index py_eq].
  destruct (String.eqb_spec (Book.title x) t) as [Hx|Hx].
  - exists [], x, books. by split_and!.
  - apply elem_of_cons in Hin as [->|Hin]; [done|].
    destruct (IH (ex_intro _ b (conj Hin Ht))) as (before & b' & after & -> & Hb & Ht' & ->).
    exists (x :: before), b', after. split_and!; [done| |done..].
    by constructor.
Qed.

Lemma remove_book_middle (pre post : list Book.t) (b : Book.t) :
  remove_book (manager_of (pre ++ b :: post)) (Z.of_nat (length pre))
  = (Ok (true, VStr (Book.title b)), manager_of (pre ++ post)).
Proof.
  unfold remove_book. rewrite index_in_range_catalog.
  rewrite bool_decide_eq_true_2 by (rewrite length_app; cbn [length]; lia).
  unfold manager_of at 1, of_catalog at 1. cbn [library py_pop].
  rewrite length_fmap, length_app. cbn [length].
  destruct (Z.ltb_spec (Z.of_nat (length pre)) 0) as [?|_]; [lia|].
  destruct (Z.leb_spec 0 (Z.of_nat (length pre))) as [_|?]; [|lia].
  destruct (Z.ltb_spec (Z.of_nat (length pre)) (Z.of_nat (length pre + S (length post))))
    as [_|?]; [|lia].
  cbn [andb]. rewrite Nat2Z.id, list_lookup_fmap, list_lookup_middle by done.
  cbn. unfold set_library, manager_of, of_catalog. cbn.
  by rewrite <- list_fmap_delete, delete_middle.
Qed.

(** The removal of the record with the chosen title, up to the save. *)
Lemma library_tab_removal (show_table : list value → result unit)
    (books : list Book.t) (w : world) (g s t : string) :
  t ≠ "" →
  show_table (of_book <$> List.filter (listed g s) books) = Ok tt →
  (∃ b, b ∈ books ∧ listed g s b = true ∧ Book.title b = t) →
  ∃ b before after pre post,
    List.filter (listed g s) books = before ++ b :: after
    ∧ Forall (λ x, Book.title x ≠ t) before ∧ Book.title b = t
    ∧ books = pre ++ b :: post ∧ (b ∉ pre)
    ∧ library_tab show_table (manager_of books) w g s (VStr t) true
      = let '(_, self, w') := save_library (manager_of (pre ++ post)) w in
        (Done [RemovedFromLibrary (VStr t)], self, w').
Proof.
  intros Ht Hshow (b0 & Hin0 & Hl0 & Ht0).
  destruct (list_index_titles (List.filter (listed g s) books) t)
    as (before & b & after & Hlist & Hbefore & Htitle & Hindex).
  { exists b0. split; [|done]. apply list_elem_of_In, filter_In.
    split; [by apply list_elem_of_In|done]. }
  assert (b ∈ books) as Hb.
  { assert (b ∈ List.filter (listed g s) books) as H
      by (rewrite Hlist; apply elem_of_app; right; apply list_elem_of_here).
    apply list_elem_of_In, filter_In in H as [H _]. by apply list_elem_of_In. }
  destruct (list_index_books books b Hb) as (pre & post & Hbooks & Hpre & Hpos).
  exists b, before, after, pre, post. split_and!; [done..|].
  unfold library_tab.
  destruct (get_all_genres_books books) as (gs & -> & _).
  rewrite filtered_books_books, Hlist.
  assert (py_truthy (VList (of_book <$> before ++ b :: after)) = true) as ->.
  { cbn. rewrite length_fmap, length_app. cbn [length].
    by rewrite Nat.add_succ_r. }
  rewrite <- Hlist, Hshow, titles_of_books, Hlist.
  assert (py_truthy (VStr t) = true) as ->.
  { cbn. by rewrite (proj2 (String.eqb_neq _ _) Ht). }
  cbn [andb]. rewrite <- Hlist, Hindex, Hlist.
  rewrite list_lookup_fmap, list_lookup_middle by done. cbn [fmap option_fmap option_map].
  unfold py_index. cbn [library manager_of of_catalog]. rewrite Hpos.
  rewrite Hbooks at 1. rewrite remove_book_middle, Htitle. done.
Qed.

(** X15: with a title chosen and the button pressed, the Library tab
    removes one record: the first record of the catalog that is equal,
    field by field, to the first listed record with that title.  Every
    other record keeps its place in the order, the record removed has the
    chosen title and is among the listed ones, and the shortened catalog is
    what [save_library] then writes. *)
Theorem library_tab_removes_first_match (show_table : list value → result unit)
    (books : list Book.t) (w : world) (g s t : string) :
  t ≠ "" →
  show_table (of_book <$> List.filter (listed g s) books) = Ok tt →
  (∃ b, b ∈ books ∧ listed g s b = true ∧ Book.title b = t) →
  ∃ b before after pre post w',
    List.filter (listed g s) books = before ++ b :: after
    ∧ Forall (λ x, Book.title x ≠ t) before
    ∧ Book.title b = t ∧ listed g s b = true
    ∧ books = pre ++ b :: post ∧ (b ∉ pre)
    ∧ library_tab show_table (manager_of books) w g s (VStr t) true
      = (Done [RemovedFromLibrary (VStr t)], manager_of (pre ++ post), w')
    ∧ (save_library (manager_of (pre ++ post)) w).2 = w'
    ∧ S (length (pre ++ post)) = length books.
Proof.
  intros Ht Hshow Hex.
  destruct (library_tab_removal show_table books w g s t Ht Hshow Hex)
    as (b & before & after & pre & post & Hlist & Hbefore & Htitle & Hbooks & Hpre & Htab).
  exists b, before, after, pre, post, (save_library (manager_of (pre ++ post)) w).2.
  split_and!; try done.
  - assert (b ∈ List.filter (listed g s) books) as H
      by (rewrite Hlist; apply elem_of_app; right; apply list_elem_of_here).
    by apply list_elem_of_In, filter_In in H as [_ H].
  - rewrite Htab. pose proof (save_library_self (manager_of (pre ++ post)) w) as Hself.
    destruct (save_library (manager_of (pre ++ post)) w) as [[ok self] w'].
    cbn in Hself. by rewrite Hself.
  - rewrite Hbooks, !length_app. cbn [length]. lia.
Qed.

Lemma library_tab_removes_first_match_witness :
  ∃ b before after pre post w',
    List.filter (listed "Drama" "Unread") [dune; hamlet; dune_film; emma; dune_film]
      = before ++ b :: after
    ∧ Forall (λ x, Book.title x ≠ "Dune") before
    ∧ Book.title b = "Dune" ∧ listed "Drama" "Unread" b = true
    ∧ [dune; hamlet; dune_film; emma; dune_film] = pre ++ b :: post ∧ (b ∉ pre)
    ∧ library_tab table_drawn (manager_of [dune; hamlet; dune_film; emma; dune_film])
        empty_world "Drama" "Unread" (VStr "Dune") true
      = (Done [RemovedFromLibrary (VStr "Dune")], manager_of (pre ++ post), w')
    ∧ (save_library (manager_of (pre ++ post)) empty_world).2 = w'
    ∧ S (length (pre ++ post)) = length [dune; hamlet; dune_film; emma; dune_film].
Proof.
  apply (library_tab_removes_first_match table_drawn
           [dune; hamlet; dune_film; emma; dune_film] empty_world "Drama" "Unread" "Dune").
  - discriminate.
  - reflexivity.
  - exists dune_film. split_and!; [|reflexivity..].
    apply list_elem_of_In. cbn. auto.
Defined.

(** X16: when the save after a removal fails because the file does not
    open for writing, which leaves the world as it was, the tab announces
    the removal all the same: the record is gone from the store, the file
    is as it was and the error of the save is shown beside the message.  A
    file that held the catalog then brings the removed record back at the
    next start. *)
Theorem removal_outlives_failed_save (show_table : list value → result unit)
    (books : list Book.t) (w : world) (g s t : string) (e : exn) :
  t ≠ "" →
  show_table (of_book <$> List.filter (listed g s) books) = Ok tt →
  (∃ b, b ∈ books ∧ listed g s b = true ∧ Book.title b = t) →
  (∀ text, write_text w "library.txt" text = Broken e w) →
  read_text w "library.txt" = Ok (json_dump (of_catalog books)) →
  ∃ b pre post w',
    books = pre ++ b :: post ∧ Book.title b = t
    ∧ library_tab show_table (manager_of books) w g s (VStr t) true
      = (Done [RemovedFromLibrary (VStr t)], manager_of (pre ++ post), w')
    ∧ files w' = files w
    ∧ errors w' = errors w ++ [SaveError e]
    ∧ ∃ w'', init w' = Some (manager_of books, w'').
Proof.
  intros Ht Hshow Hex Hfail Hread.
  destruct (library_tab_removal show_table books w g s t Ht Hshow Hex)
    as (b & before & after & pre & post & _ & _ & Htitle & Hbooks & _ & Htab).
  exists b, pre, post, (st_error (SaveError e) w).
  unfold save_library in Htab. cbn [filename manager_of] in Htab.
  rewrite Hfail in Htab. split_and!; [done..|].
  exists (st_error (SaveError e) w).
  unfold init, load_library, path_exists, read_text in *.
  cbn [filename blank files st_error].
  destruct (files w !! "library.txt") as [[[] wr old| |[] old room e0]|]; try done;
    injection Hread as ->; by rewrite json_load_dump by apply wf_catalog.
Qed.

Lemma removal_outlives_failed_save_witness :
  let w := world_with true false (json_dump (of_catalog [dune; hamlet])) in
  ∃ b pre post w',
    [dune; hamlet] = pre ++ b :: post ∧ Book.title b = "Hamlet"
    ∧ library_tab table_drawn (manager_of [dune; hamlet]) w "All Genres" "All Books"
        (VStr "Hamlet") true
      = (Done [RemovedFromLibrary (VStr "Hamlet")], manager_of (pre ++ post), w')
    ∧ files w' = files w
    ∧ errors w' = errors w ++ [SaveError OSError]
    ∧ ∃ w'', init w' = Some (manager_of [dune; hamlet], w'').
Proof.
  intros w.
  apply (removal_outlives_failed_save table_drawn [dune; hamlet] w
           "All Genres" "All Books" "Hamlet" OSError).
  - discriminate.
  - reflexivity.
  - exists hamlet. split_and!; [|reflexivity..].
    apply list_elem_of_In. cbn. auto.
  - intros text. reflexivity.
  - reflexivity.
Defined.

(** X17: without the button pressed, or with the blank entry of the
    select box chosen, the Library tab changes neither the store nor the
    world, whatever the catalog; a record whose title is the empty string
    is listed but cannot be removed there. *)
Theorem library_tab_idle (show_table : list value → result unit)
    (books : list Book.t) (w : world) (g s t : string) (clicked : bool) :
  show_table (of_book <$> List.filter (listed g s) books) = Ok tt →
  clicked = false ∨ t = "" →
  ∃ shown,
    library_tab show_table (manager_of books) w g s (VStr t) clicked
      = (Done shown, manager_of books, w)
    ∧ (shown = [NoBooksFound] ↔ List.filter (listed g s) books = []).
Proof.
  intros Hshow Hidle. unfold library_tab.
  destruct (get_all_genres_books books) as (gs & -> & _).
  rewrite filtered_books_books.
  destruct (List.filter (listed g s) books) as [|b bs] eqn:Hlist.
  - exists [NoBooksFound]. by split.
  - assert (py_truthy (VList (of_book <$> b :: bs)) = true) as -> by done.
    rewrite Hshow, titles_of_books.
    assert (clicked && py_truthy (VStr t) = false) as ->.
    { destruct Hidle as [-> | ->]; [done|]. apply andb_false_r. }
    exists []. split; [done|]. by split.
Qed.

Lemma library_tab_idle_witness :
  let blank_title :=
    {| Book.title := ""; Book.author := "Anon"; Book.year := 1900;
       Book.genre := "Drama"; Book.read := false; Book.date_added := "2024-01-01" |} in
  ∃ shown,
    library_tab table_drawn (manager_of [blank_title]) empty_world
      "All Genres" "All Books" (VStr "") true
      = (Done shown, manager_of [blank_title], empty_world)
    ∧ (shown = [NoBooksFound]
       ↔ List.filter (listed "All Genres" "All Books") [blank_title] = []).
Proof.
  intros blank_title.
  apply (library_tab_idle table_drawn [blank_title] empty_world
           "All Genres" "All Books" "" true).
  - reflexivity.
  - by right.
Defined.

(** ** The Add Book tab *)


(** ** The Statistics tab *)

Lemma count_genre_tally (g : string) (tally : list (string * Z)) :
  count_genre (VStr g) (of_tally tally) = of_tally (tally_add g tally).
Proof.
  unfold of_tally. induction tally as [|[g0 n] tally IH]; [done|].
  rewrite fmap_cons. cbn [count_genre tally_add hash_eq fst snd].
  destruct (String.eqb g0 g); [done|]. by rewrite IH.
Qed.

Lemma tally_add_get (g g' : string) (tally : list (string * Z)) :
  tally_get g' (tally_add g tally)
  = tally_get g' tally + (if String.eqb g g' then 1 else 0).
Proof.
  induction tally as [|[g0 n] tally IH]; cbn [tally_add tally_get].
  - destruct (String.eqb g g'); lia.
  - destruct (String.eqb_spec g0 g) as [->|Hne]; cbn [tally_get].
    + destruct (String.eqb g g'); lia.
    + destruct (String.eqb_spec g0 g') as [->|Hne'].
      * rewrite (proj2 (String.eqb_neq g g')) by done. lia.
      * exact IH.
Qed.

Lemma tally_add_keys (g : string) (tally : list (string * Z)) :
  (tally_add g tally).*1 = if decide (g ∈ tally.*1) then tally.*1 else tally.*1 ++ [g].
Proof.
  induction tally as [|[g0 n] tally IH]; [done|].
  cbn [tally_add]. rewrite !fmap_cons. cbn [fst].
  destruct (String.eqb_spec g0 g) as [->|Hne].
  - by rewrite decide_True by apply list_elem_of_here.
  - rewrite fmap_cons, IH. cbn [fst].
    destruct (decide (g ∈ tally.*1)) as [Hin|Hin].
    + by rewrite decide_True by (by apply list_elem_of_further).
    + rewrite decide_False; [done|]. by intros [?|?]%elem_of_cons.
Qed.

Lemma tally_add_positive (g : string) (tally : list (string * Z)) :
  Forall (λ gn, 0 < gn.2) tally → Forall (λ gn, 0 < gn.2) (tally_add g tally).
Proof.
  induction 1 as [|[g0 n] tally Hn Htally IH]; cbn [tally_add].
  - by repeat constructor.
  - destruct (String.eqb g0 g); constructor; cbn in *; (lia || done).
Qed.

Lemma tally_add_sum (g : string) (tally : list (string * Z)) :
  foldr Z.add 0 (tally_add g tally).*2 = foldr Z.add 0 tally.*2 + 1.
Proof.
  induction tally as [|[g0 n] tally IH]; [done|].
  cbn [tally_add]. destruct (String.eqb g0 g); rewrite !fmap_cons; cbn [foldr snd]; lia.
Qed.

Lemma tally_key_positive (g : string) (tally : list (string * Z)) :
  Forall (λ gn, 0 < gn.2) tally → (g ∈ tally.*1 ↔ 0 < tally_get g tally).
Proof.
  induction 1 as [|[g0 n] tally Hn Htally IH]; cbn [tally_get].
  - split; [by intros ?%elem_of_nil|lia].
  - rewrite fmap_cons, elem_of_cons. cbn [fst snd] in *.
    destruct (String.eqb_spec g0 g) as [->|Hne].
    + split; [done|by left].
    + rewrite IH. split; [by intros [?|?]|by right].
Qed.

Lemma genre_count_snoc (g : string) (books : list Book.t) (b : Book.t) :
  genre_count g (books ++ [b])
  = genre_count g books + (if String.eqb (Book.genre b) g then 1 else 0).
Proof.
  unfold genre_count. rewrite List.filter_app, length_app. cbn [List.filter].
  destruct (String.eqb (Book.genre b) g); cbn [length]; lia.
Qed.

Lemma genre_counts_books (books : list Book.t) :
  ∀ (seen : list Book.t) (tally : list (string * Z)),
    NoDup tally.*1 → Forall (λ gn, 0 < gn.2) tally →
    (∀ g, tally_get g tally = genre_count g seen) →
    foldr Z.add 0 tally.*2 = Z.of_nat (length seen) →
    ∃ tally',
      genre_counts (of_book <$> books) (of_tally tally) = Ok (of_tally tally')
      ∧ NoDup tally'.*1 ∧ Forall (λ gn, 0 < gn.2) tally'
      ∧ (∀ g, tally_get g tally' = genre_count g (seen ++ books))
      ∧ foldr Z.add 0 tally'.*2 = Z.of_nat (length (seen ++ books)).
Proof.
  induction books as [|b books IH]; intros seen tally Hnd Hpos Hget Hsum.
  - exists tally. rewrite app_nil_r. by split_and!.
  - rewrite fmap_cons. cbn [genre_counts]. rewrite getitem_genre.
    cbn [mbind result_bind hashable]. rewrite count_genre_tally.
    destruct (IH (seen ++ [b]) (tally_add (Book.genre b) tally)) as (tally' & H).
    + rewrite tally_add_keys. destruct (decide (Book.genre b ∈ tally.*1)); [done|].
      apply NoDup_app. split_and!; [done| |apply NoDup_singleton].
      by intros x Hx ->%list_elem_of_singleton.
    + by apply tally_add_positive.
    + intros g. by rewrite tally_add_get, genre_count_snoc, Hget.
    + rewrite tally_add_sum, Hsum, length_app. cbn [length]. lia.
    + exists tally'. by rewrite <- app_assoc in H.
Qed.

(** X19: on a catalog with a record the Statistics tab counts every genre
    once, in a dictionary whose keys are the genres present, with the
    number of records of each genre as its count; the counts add up to the
    number of records.  The fraction for the progress bar is the float of
    the percentage over 100: it lies between 0 and 1 and differs from read
    over total by at most the fraction 2^-50 of it.  On the empty catalog
    the tab draws neither. *)
Theorem statistics_tab_counts (books : list Book.t) :
  (books = [] →
   ∃ st, statistics_tab (manager_of books) = Ok (st, None) ∧ Stats.total st = 0)
  ∧ (books ≠ [] →
   ∃ st p tally,
     statistics_tab (manager_of books) = Ok (st, Some (p, of_tally tally))
     ∧ (0 <= p <= 1)%Q
     ∧ (Qabs (p - inject_Z (Stats.read st) / inject_Z (Stats.total st))
        <= inject_Z (Stats.read st) / inject_Z (Stats.total st) * (1 # 2 ^ 50))%Q
     ∧ NoDup tally.*1
     ∧ (∀ g, g ∈ tally.*1 ↔ ∃ b, b ∈ books ∧ Book.genre b = g)
     ∧ (∀ g n, (g, n) ∈ tally → n = genre_count g books ∧ 0 < n)
     ∧ foldr Z.add 0 tally.*2 = Z.of_nat (length books)).
Proof.
  split.
  - intros ->. by eexists.
  - intros Hne. unfold statistics_tab. rewrite get_statistics_books.
    cbn [mbind result_bind Stats.total Stats.percentage].
    assert (0 < Z.of_nat (length books)) as Hlen by (destruct books; [done|cbn; lia]).
    destruct (Z.ltb_spec 0 (Z.of_nat (length books))) as [_|?]; [|lia].
    cbn [library manager_of of_catalog py_iter mbind result_bind].
    destruct (genre_counts_books books [] []) as (tally & Hcounts & Hnd & Hpos & Hget & Hsum);
      [apply NoDup_nil_2|constructor|done|done|].
    change (@nil (value * Z)) with (of_tally []). rewrite Hcounts.
    cbn [mbind result_bind app] in *.
    eexists _, _, tally. split; [reflexivity|]. cbn [Stats.read Stats.total number_value].
    assert (0 ≤ Z.of_nat (length (List.filter Book.read books)) ≤ Z.of_nat (length books))
      as Hread by (pose proof (List.filter_length_le Book.read books); lia).
    split; [by apply fraction_bounds, percent_bounds|].
    split; [by apply fraction_error|]. clear Hread.
    split_and!; [done| | |done].
    + intros g. rewrite (tally_key_positive g tally Hpos), Hget. unfold genre_count.
      split.
      * intros Hcount. destruct (List.filter _ books) as [|b bs] eqn:E; [cbn in Hcount; lia|].
        assert (In b (List.filter (λ b, String.eqb (Book.genre b) g) books)) as Hin
          by (rewrite E; by left).
        apply filter_In in Hin as [Hin Hg]. exists b.
        split; [by apply list_elem_of_In|by apply String.eqb_eq].
      * intros (b & Hb & Hg).
        assert (In b (List.filter (λ b, String.eqb (Book.genre b) g) books)) as Hin
          by (apply filter_In; split; [by apply list_elem_of_In|by apply String.eqb_eq]).
        destruct (List.filter _ books); [done|cbn; lia].
    + intros g n Hin.
      assert (tally_get g tally = n) as <-.
      { clear -Hnd Hin. induction tally as [|[g0 n0] tally IH]; [by apply elem_of_nil in Hin|].
        rewrite fmap_cons in Hnd. apply NoDup_cons in Hnd as [Hnot Hnd]. cbn [tally_get].
        apply elem_of_cons in Hin as [[= <- <-]|Hin].
        - by rewrite String.eqb_refl.
        - destruct (String.eqb_spec g0 g) as [->|_]; [|by apply IH].
          exfalso. apply Hnot. cbn. apply list_elem_of_fmap. by exists (g, n). }
      split; [apply Hget|].
      apply (tally_key_positive g tally Hpos). apply list_elem_of_fmap.
      eexists; split; [|exact Hin]; done.
Qed.

(** X20: whatever the library, when the Statistics tab draws the progress
    bar there is at least one element and the fraction handed to it, the
    float of the percentage over 100, lies between 0 and 1; it draws none
    exactly when the library is empty. *)
Theorem statistics_tab_progress (self : LibraryManager) (st : Stats.t)
    (panel : option (Q * list (value * Z))) :
  statistics_tab self = Ok (st, panel) →
  match panel with
  | Some (p, counts) => 0 < Stats.total st ∧ (0 <= p <= 1)%Q
  | None => Stats.total st = 0
  end.
Proof.
  unfold statistics_tab, get_statistics.
  destruct (py_len (library self)) as [n|e] eqn:Hlen; [|done].
  destruct (py_iter (library self)) as [items|e] eqn:Hiter; [|done].
  cbn [mbind result_bind].
  destruct (count_if _ items) as [r|e] eqn:Hcount; [|done].
  cbn [mbind result_bind Stats.total Stats.percentage].
  apply count_if_bounds in Hcount.
  pose proof (len_iter _ _ _ Hlen Hiter) as Hn.
  destruct (Z.ltb_spec 0 n) as [Hpos|Hle].
  - destruct (genre_counts items []) as [counts|e]; [|done].
    cbn [mbind result_bind]. intros [= <- <-]. cbn [Stats.total]. split; [done|].
    cbn [number_value]. apply fraction_bounds, percent_bounds; lia.
  - intros [= <- <-]. cbn. lia.
Qed.

Lemma statistics_tab_progress_witness :
  0 < 3 ∧ (0 <= 1501199875790165 # 2251799813685248 <= 1)%Q.
Proof.
  apply (statistics_tab_progress (manager_of [dune; hamlet; emma])
           {| Stats.total := 3; Stats.read := 2; Stats.unread := 1;
              Stats.percentage := NFloat (2345624805922133 # 35184372088832) |}
           (Some (1501199875790165 # 2251799813685248,
                  [(VStr "Sci-Fi", 1); (VStr "Drama", 2)]))).
  vm_compute. reflexivity.
Defined.

(** ** The date stamp *)

Lemma nat_chars_short (w : nat) (n : N) :
  (w ≤ 4)%nat → (n < 10 ^ N.of_nat w)%N → (length (nat_chars n) ≤ Nat.max 1 w)%nat.
Proof.
  intros Hw Hn.
  assert (∀ w k, (w ≤ 4)%nat → (k < N.to_nat (10 ^ N.of_nat w))%nat →
                 (length (nat_chars (N.of_nat k)) ≤ Nat.max 1 w)%nat) as Hall.
  { clear. intros w k Hw Hk.
    assert (forallb (λ w, forallb (λ k, length (nat_chars (N.of_nat k)) <=? Nat.max 1 w)%nat
                            (seq 0 (N.to_nat (10 ^ N.of_nat w))))
              (seq 0 5) = true) as Hcheck by (vm_compute; reflexivity).
    rewrite forallb_forall in Hcheck.
    specialize (Hcheck w (proj2 (in_seq 5 0 w) ltac:(lia))).
    rewrite forallb_forall in Hcheck.
    specialize (Hcheck k (proj2 (in_seq (N.to_nat (10 ^ N.of_nat w)) 0 k) ltac:(lia))).
    by apply Nat.leb_le in Hcheck. }
  specialize (Hall w (N.to_nat n) Hw ltac:(lia)). by rewrite N2Nat.id in Hall.
Qed.

Lemma scan_zeros (k : nat) (s : list ascii) (u : Decimal.uint) (rest : list ascii) :
  scan_digits s = (u, rest) →
  ∃ u', scan_digits (replicate k "0"%char ++ s) = (u', rest) ∧ N.of_uint u' = N.of_uint u.
Proof.
  intros Hs. induction k as [|k (u' & Hscan & Hu')]; [by exists u|].
  exists (Decimal.D0 u'). cbn [replicate app scan_digits].
  change (char_digit "0") with (Some Decimal.D0). by rewrite Hscan.
Qed.

(** A zero-padded numeral is [width] digits that spell the number. *)
Lemma zero_pad_reads (w : nat) (n : N) (rest : list ascii) :
  (1 ≤ w ≤ 4)%nat → (n < 10 ^ N.of_nat w)%N →
  match rest with [] => True | c :: _ => is_digit c = false end →
  length (zero_pad w n) = w
  ∧ ∃ u, scan_digits (zero_pad w n ++ rest) = (u, rest) ∧ N.of_uint u = n.
Proof.
  intros Hw Hn Hrest. unfold zero_pad. cbv zeta.
  pose proof (nat_chars_short w n ltac:(lia) Hn) as Hlen.
  split; [rewrite length_app, length_replicate; lia|].
  rewrite <- app_assoc.
  destruct (scan_zeros (w - length (nat_chars n)) _ _ _
              (scan_digits_uint (N.to_uint n) rest Hrest)) as (u & Hscan & Hu).
  exists u. split; [exact Hscan|]. by rewrite Hu, DecimalN.Unsigned.of_to.
Qed.

(** X21: for a clock whose year has four digits, the record [add_book]
    hands back carries a ten-character date: four digits, a hyphen, two
    digits, a hyphen, two digits, and the digits spell the year, the month
    and the day of the clock. *)
Theorem add_book_stamps_date (books : list Book.t) (now : datetime)
    (title author : string) (year : Z) (genre : string) (read_status : bool) :
  four_digit_date now →
  ∃ book ys ms ds uy um ud,
    (add_book (manager_of books) now title author year genre read_status).1 = Ok book
    ∧ py_getitem book "date_added"
      = Ok (VStr (string_of_list_ascii (ys ++ "-"%char :: ms ++ "-"%char :: ds)))
    ∧ length ys = 4%nat ∧ length ms = 2%nat ∧ length ds = 2%nat
    ∧ scan_digits (ys ++ "-"%char :: ms ++ "-"%char :: ds) = (uy, "-"%char :: ms ++ "-"%char :: ds)
    ∧ scan_digits (ms ++ "-"%char :: ds) = (um, "-"%char :: ds)
    ∧ scan_digits ds = (ud, [])
    ∧ N.of_uint uy = dt_year now ∧ N.of_uint um = dt_month now
    ∧ N.of_uint ud = dt_day now.
Proof.
  intros (Hy & Hm & Hd).
  assert (zero_pad 4 (dt_year now) = nat_chars (dt_year now)) as Hpad.
  { unfold zero_pad. cbv zeta. by rewrite (year_chars _ Hy). }
  destruct (zero_pad_reads 4 (dt_year now)
              ("-"%char :: zero_pad 2 (dt_month now) ++ "-"%char :: zero_pad 2 (dt_day now))
              ltac:(lia) ltac:(cbn; lia) eq_refl) as (Hly & uy & Hsy & Huy).
  destruct (zero_pad_reads 2 (dt_month now) ("-"%char :: zero_pad 2 (dt_day now))
              ltac:(lia) ltac:(cbn; lia) eq_refl) as (Hlm & um & Hsm & Hum).
  destruct (zero_pad_reads 2 (dt_day now) [] ltac:(lia) ltac:(cbn; lia) I)
    as (Hld & ud & Hsd & Hud).
  rewrite app_nil_r in Hsd. rewrite Hpad in Hly, Hsy.
  eexists _, (nat_chars (dt_year now)), (zero_pad 2 (dt_month now)),
    (zero_pad 2 (dt_day now)), uy, um, ud.
  split; [reflexivity|]. split; [reflexivity|]. by split_and!.
Qed.

Lemma add_book_stamps_date_witness :
  ∃ book ys ms ds uy um ud,
    (add_book (manager_of [dune]) {| dt_year := 2024; dt_month := 5; dt_day := 7 |}
       "Emma" "Austen" 1815 "Novel" false).1 = Ok book
    ∧ py_getitem book "date_added"
      = Ok (VStr (string_of_list_ascii (ys ++ "-"%char :: ms ++ "-"%char :: ds)))
    ∧ length ys = 4%nat ∧ length ms = 2%nat ∧ length ds = 2%nat
    ∧ scan_digits (ys ++ "-"%char :: ms ++ "-"%char :: ds) = (uy, "-"%char :: ms ++ "-"%char :: ds)
    ∧ scan_digits (ms ++ "-"%char :: ds) = (um, "-"%char :: ds)
    ∧ scan_digits ds = (ud, [])
    ∧ N.of_uint uy = 2024%N ∧ N.of_uint um = 5%N ∧ N.of_uint ud = 7%N.
Proof.
  apply (add_book_stamps_date [dune] {| dt_year := 2024; dt_month := 5; dt_day := 7 |}
           "Emma" "Austen" 1815 "Novel" false).
  unfold four_digit_date. cbn. lia.
Defined.

(** ** Sessions *)

Lemma add_book_tab_adds (books : list Book.t) (b : Book.t) (now : datetime) (w : world) :
  Book.date_added b = strftime_ymd now →
  Book.title b ≠ "" → Book.author b ≠ "" → Book.genre b ≠ "" →
  add_book_tab (manager_of books) w now (Book.title b) (Book.author b) (Book.year b)
    (Book.genre b) (Book.read b) true
  = (Done [AddedToLibrary (Book.title b)], manager_of (books ++ [b]),
     (save_library (manager_of (books ++ [b])) w).2).
Proof.
  destruct b as [t a y g r d]. cbn [Book.title Book.author Book.year Book.genre
                                    Book.read Book.date_added].
  intros -> Ht Ha Hg. unfold add_book_tab. cbn [py_truthy].
  rewrite (proj2 (String.eqb_neq _ _) Ht), (proj2 (String.eqb_neq _ _) Ha),
    (proj2 (String.eqb_neq _ _) Hg). cbn [negb andb].
  set (b := {| Book.title := t; Book.author := a; Book.year := y; Book.genre := g;
               Book.read := r; Book.date_added := strftime_ymd now |}).
  assert (add_book (manager_of books) now t a y g r
          = (Ok (of_book b), manager_of (books ++ [b]))) as ->.
  { unfold add_book, manager_of, of_catalog, set_library; cbn. by rewrite fmap_app. }
  unfold save_library. by destruct (write_text w _ _).
Qed.

Lemma save_library_writes (books : list Book.t) (w : world) :
  (files w !! "library.txt" = None ∧ may_create w = true
   ∨ ∃ text, files w !! "library.txt" = Some (File true true text)) →
  ∃ w',
    save_library (manager_of books) w = (true, manager_of books, w')
    ∧ files w' !! "library.txt" = Some (File true true (json_dump (of_catalog books)))
    ∧ errors w' = errors w.
Proof.
  intros Hfile. unfold save_library, write_text. cbn [filename manager_of library].
  destruct Hfile as [[-> ->]|[text ->]]; eexists; split_and!; try reflexivity;
    cbn; by rewrite lookup_insert_eq.
Qed.


